(** * RedFish metadata store (mds/mstor.c): a shallow embedding

    The metadata store keeps a POSIX-style namespace and the chunk layout of
    every file in an ordered key-value engine (leveldb).  This development
    embeds the code of [mds/mstor.c] as Rocq functions over an explicit
    store state and proves properties of the embedding.

    Conventions.
    - C integers are [Z]; wrap-around is written out where the code can
      reach it ([uint64_t] counters, [uint16_t] modes, [uint32_t] offsets).
    - Bytes are [Z] in [0, 256); keys and values are [list Z].
    - The engine is modelled as a list of records sorted by key; it never
      fails, so the [-EIO] / [-ENOMEM] exits that depend on an engine or
      allocator error are not taken.  The [-EIO] exits that depend on the
      stored data (wrong payload length and the like) are kept.
    - [abort()] is modelled by [None]. *)

From Stdlib Require Import ZArith String Ascii Bool Lia List.
Import ListNotations.
Local Open Scope Z_scope.

(** ** errno values (<errno.h>, Linux) *)
Module Errno.
Definition EPERM : Z := 1.
Definition ENOENT : Z := 2.
Definition EIO : Z := 5.
Definition ENOMEM : Z := 12.
Definition EEXIST : Z := 17.
Definition ENOTDIR : Z := 20.
Definition EISDIR : Z := 21.
Definition EINVAL : Z := 22.
Definition ENAMETOOLONG : Z := 36.
Definition ENOSYS : Z := 38.
Definition ENOTEMPTY : Z := 39.
Definition EOVERFLOW : Z := 75.
Definition EUSERS : Z := 87.
Definition ENOTSUP : Z := 95.
End Errno.
Import Errno.

(** ** util/packed.h: fixed-width integer packing *)
Module Packed.

(** Modelled from the spec: [pack_to_be16/32/64] of the missing
    util/packed.h; every multi-byte integer is encoded big-endian.
    [pack_to_be n x] is the [n]-byte big-endian encoding of the low
    [8 * n] bits of [x]. *)
Fixpoint pack_to_be (n : nat) (x : Z) : list Z :=
  match n with
  | O => []
  | S m => (x / 256 ^ Z.of_nat m) mod 256 :: pack_to_be m x
  end.

Fixpoint unpack_acc (acc : Z) (l : list Z) : Z :=
  match l with
  | [] => acc
  | b :: t => unpack_acc (acc * 256 + b) t
  end.

(** Modelled from the spec: [unpack_from_be16/32/64] of the missing
    util/packed.h; reads the first [n] bytes as a big-endian integer. *)
Definition unpack_from_be (n : nat) (l : list Z) : Z :=
  unpack_acc 0 (firstn n l).

Definition pack_to_be16 := pack_to_be 2.
Definition pack_to_be32 := pack_to_be 4.
Definition pack_to_be64 := pack_to_be 8.
Definition unpack_from_be16 := unpack_from_be 2.
Definition unpack_from_be32 := unpack_from_be 4.
Definition unpack_from_be64 := unpack_from_be 8.

(** Byte order of the machine the store runs on: what a cast of an
    integer's address to [const char *] exposes. *)
Inductive byte_order := BigEndian | LittleEndian.

(** The object representation of an [n]-byte unsigned integer. *)
Definition host_bytes (o : byte_order) (n : nat) (x : Z) : list Z :=
  match o with
  | BigEndian => pack_to_be n x
  | LittleEndian => rev (pack_to_be n x)
  end.

End Packed.
Import Packed.

(** ** The ordered key-value engine (leveldb/c.h) *)
Module Leveldb.

Definition bytes := list Z.
Definition entry : Type := bytes * bytes.
Definition db := list entry.

(** leveldb's default BytewiseComparator: [memcmp] on the common prefix,
    the shorter key first on a tie. *)
Fixpoint key_compare (a b : bytes) : comparison :=
  match a, b with
  | [], [] => Eq
  | [], _ :: _ => Lt
  | _ :: _, [] => Gt
  | x :: a', y :: b' =>
      match x ?= y with
      | Eq => key_compare a' b'
      | c => c
      end
  end.

Definition key_ltb (a b : bytes) : bool :=
  match key_compare a b with Lt => true | _ => false end.

Definition key_eqb (a b : bytes) : bool :=
  match key_compare a b with Eq => true | _ => false end.

Fixpoint leveldb_get (d : db) (k : bytes) : option bytes :=
  match d with
  | [] => None
  | (k', v) :: d' =>
      match key_compare k k' with
      | Eq => Some v
      | Lt => None
      | Gt => leveldb_get d' k
      end
  end.

Fixpoint leveldb_put (d : db) (k v : bytes) : db :=
  match d with
  | [] => [(k, v)]
  | (k', v') :: d' =>
      match key_compare k k' with
      | Eq => (k, v) :: d'
      | Lt => (k, v) :: d
      | Gt => (k', v') :: leveldb_put d' k v
      end
  end.

Fixpoint leveldb_delete (d : db) (k : bytes) : db :=
  match d with
  | [] => []
  | (k', v') :: d' =>
      match key_compare k k' with
      | Eq => d'
      | Lt => d
      | Gt => (k', v') :: leveldb_delete d' k
      end
  end.

(** A write batch: the updates in the order they were added. *)
Inductive batch_op :=
| BPut (k v : bytes)
| BDelete (k : bytes).

Definition writebatch := list batch_op.

Definition apply_op (d : db) (o : batch_op) : db :=
  match o with
  | BPut k v => leveldb_put d k v
  | BDelete k => leveldb_delete d k
  end.

Definition leveldb_write (d : db) (bat : writebatch) : db :=
  fold_left apply_op bat d.

(** An iterator over a snapshot: the records before the position (nearest
    first) and the records from the position on.  It is valid when
    [it_after] is not empty. *)
Record iter := Iter { it_before : list entry; it_after : list entry }.

Fixpoint seek_from (k : bytes) (before after : list entry) : iter :=
  match after with
  | [] => Iter before []
  | e :: rest =>
      if key_ltb (fst e) k then seek_from k (e :: before) rest
      else Iter before after
  end.

(** Position at the first record whose key is at or past [k]. *)
Definition leveldb_iter_seek (d : db) (k : bytes) : iter :=
  seek_from k [] d.

Definition leveldb_iter_seek_to_first (d : db) : iter := Iter [] d.

Definition leveldb_iter_valid (it : iter) : bool :=
  match it_after it with [] => false | _ => true end.

(** leveldb requires a valid iterator for [Prev] and [Next]; here an
    invalid iterator stays invalid.  Stepping back from the first record
    invalidates the iterator. *)
Definition leveldb_iter_prev (it : iter) : iter :=
  match it_after it, it_before it with
  | [], _ => it
  | _ :: _, [] => Iter [] []
  | _ :: _, e :: b => Iter b (e :: it_after it)
  end.

Definition leveldb_iter_next (it : iter) : iter :=
  match it_after it with
  | [] => it
  | e :: rest => Iter (e :: it_before it) rest
  end.

Definition leveldb_iter_key (it : iter) : bytes :=
  match it_after it with [] => [] | e :: _ => fst e end.

Definition leveldb_iter_value (it : iter) : bytes :=
  match it_after it with [] => [] | e :: _ => snd e end.

(** Keys strictly ascending: the representation invariant of [db]. *)
Fixpoint db_sorted (d : db) : bool :=
  match d with
  | [] => true
  | e :: d' =>
      match d' with
      | [] => true
      | e' :: _ => key_ltb (fst e) (fst e') && db_sorted d'
      end
  end.

End Leveldb.
Import Leveldb.


(** ** Constants and collaborators that mstor.c takes from other headers *)

(** What the build fixes outside mstor.c: limits of mds/limits.h, sentinels
    of jorm/jorm_const.h and msg/generic.h, the path canonicalizer of
    util/path.h, and the byte order of the host.  Their values are not part
    of mstor.c, so the embedding is parameterised by them. *)
Class Platform := {
  RF_PATH_MAX : Z;
  RF_PCOMP_MAX : Z;
  RF_MAX_OID : Z;
  RF_SUPERUSER_UID : Z;
  RF_SUPERUSER_GID : Z;
  RF_INVAL_TIME : Z;
  JORM_INVAL_INT : Z;
  sizeof_mmm_stat_hdr : Z;
  host_order : byte_order;
  (** [canonicalize_path] rewrites the path buffer in place and returns 0
      or a negative error code. *)
  canonicalize_path : string -> Z * string
}.

Definition two64 : Z := 2 ^ 64.
Definition two32 : Z := 2 ^ 32.
Definition two16 : Z := 2 ^ 16.

Definition MSTOR_DEFAULT_SEQUESTER_TIME : Z := 300.
Definition MSTOR_DEFAULT_MIN_REPL : Z := 2.
Definition MSTOR_DEFAULT_MAN_REPL : Z := 3.

Definition MSTOR_CUR_VERSION : Z := 1.
(** "Fish" *)
Definition MSTOR_VERSION_MAGIC : bytes := [70; 105; 115; 104].
Definition MSTOR_VERSION_MAGIC_LEN : nat := 4.
Definition MSTOR_VERSION_BODY_LEN : nat := 8.
Definition MSTOR_VERSION_INVAL : Z := 0xffffffff.

(** Modelled from the spec: [MNODE_IS_DIR] of the missing mds/mstor.h, the
    single directory flag in the high bit of the 16-bit mode-and-type
    field, above the nine permission bits. *)
Definition MNODE_IS_DIR : Z := 0x8000.

Definition MSTOR_ROOT_NID : Z := 0.
(** [0755 | MNODE_IS_DIR]; octal 0755 is 493. *)
Definition MSTOR_ROOT_NID_INIT_MODE : Z := Z.lor 493 MNODE_IS_DIR.

Definition MSTOR_PERM_EXEC : Z := 1.
Definition MSTOR_PERM_WRITE : Z := 2.
Definition MSTOR_PERM_READ : Z := 4.

Definition MSTOR_NID_MAX : Z := 0xffffffffffff0000.
Definition MSTOR_CID_MAX : Z := 0xffffffffffff0000.
Definition MNODE_KEY_LEN : nat := 9.
Definition MCHILD_KEY_LEN_PREFIX : nat := 9.
Definition MCHUNK_KEY_LEN : nat := 9.
Definition MFILE_KEY_LEN : nat := 17.

Definition MREQ_FLAG_CHECK_PERMS : Z := 1.

(** Family tags: the first byte of every key. *)
Definition tag_c : Z := 99.
Definition tag_f : Z := 102.
Definition tag_h : Z := 104.
Definition tag_n : Z := 110.
Definition tag_v : Z := 118.

(** ** Users (mds/user.h) *)

(** Modelled from the spec: a user of the missing mds/user.h, as
    [lookup_user] returns it: uid, primary gid and group membership. *)
Record user := {
  uid : Z;
  gid : Z;
  segid : list Z
}.

Record group := { g_gid : Z }.

(** Modelled from the spec: [user_in_gid] of the missing mds/user.h, true
    when the user is a member of the group. *)
Definition user_in_gid (u : user) (g : Z) : bool :=
  (gid u =? g) || existsb (Z.eqb g) (segid u).

(** Modelled from the spec: the user directory of the missing mds/user.h;
    a lookup gives the entry or an error code. *)
Record udata := {
  udata_lookup_user : string -> user + Z;
  udata_lookup_group : string -> group + Z
}.

(** ** Types of mstor.c *)

(** Modelled from the spec: the configuration record of the missing
    common/config/mstorc.h, with the options the store consumes. *)
Record mstorc := {
  mstor_path : string;
  mstor_create : Z;
  mstor_cache_size : Z;
  c_min_sequester_time : Z;
  c_min_repl : Z;
  c_man_repl : Z
}.

(** [struct mnode]: [val] is [None] for a NULL payload pointer. *)
Record mnode := {
  nid : Z;
  val : option bytes
}.

Definition mnode_zero : mnode := {| nid := 0; val := None |}.

(** [struct mnode_payload], packed: 34 bytes. *)
Definition sizeof_mnode_payload : nat := 34.
Definition off_mtime : nat := 0.
Definition off_atime : nat := 8.
Definition off_length : nat := 16.
Definition off_uid : nat := 24.
Definition off_gid : nat := 28.
Definition off_mode_and_type : nat := 32.

(** The bytes [node->val] points to; the code reads them only where the
    pointer is not NULL. *)
Definition hdr (node : mnode) : bytes :=
  match val node with Some v => v | None => [] end.

(** Overwrite [length new] bytes of [v] at offset [off]. *)
Definition store_at (off : nat) (new v : bytes) : bytes :=
  firstn off v ++ new ++ skipn (off + length new) v.

Definition payload_mtime (v : bytes) : Z := unpack_from_be64 (skipn off_mtime v).
Definition payload_atime (v : bytes) : Z := unpack_from_be64 (skipn off_atime v).
Definition payload_length (v : bytes) : Z := unpack_from_be64 (skipn off_length v).
Definition payload_uid (v : bytes) : Z := unpack_from_be32 (skipn off_uid v).
Definition payload_gid (v : bytes) : Z := unpack_from_be32 (skipn off_gid v).
Definition payload_mode_and_type (v : bytes) : Z :=
  unpack_from_be16 (skipn off_mode_and_type v).

(** [struct mstor] without the engine option records and the locks. *)
Record mstor := {
  ldb : db;
  next_nid : Z;
  min_sequester_time : Z;
  min_repl : Z;
  man_repl : Z;
  next_cid : Z;
  udir : udata
}.

Definition set_ldb (m : mstor) (d : db) : mstor :=
  {| ldb := d; next_nid := next_nid m;
     min_sequester_time := min_sequester_time m; min_repl := min_repl m;
     man_repl := man_repl m; next_cid := next_cid m; udir := udir m |}.

Definition set_next_nid (m : mstor) (n : Z) : mstor :=
  {| ldb := ldb m; next_nid := n;
     min_sequester_time := min_sequester_time m; min_repl := min_repl m;
     man_repl := man_repl m; next_cid := next_cid m; udir := udir m |}.

Definition set_next_cid (m : mstor) (n : Z) : mstor :=
  {| ldb := ldb m; next_nid := next_nid m;
     min_sequester_time := min_sequester_time m; min_repl := min_repl m;
     man_repl := man_repl m; next_cid := n; udir := udir m |}.

(** [calloc(1, sizeof(struct mstor))] followed by [mstor->udata = udata]. *)
Definition mstor_calloc (u : udata) : mstor :=
  {| ldb := []; next_nid := 0; min_sequester_time := 0; min_repl := 0;
     man_repl := 0; next_cid := 0; udir := u |}.

(** [struct chunk_info] of mds/mstor.h, as mstor.c fills it. *)
Record chunk_info := {
  ci_cid : Z;
  ci_start : Z
}.

(** One packed stat record of the output buffer: the fields of
    [struct mmm_stat_hdr] and the name that follows it. *)
Record stat_entry := {
  st_stat_len : Z;
  st_mode_and_type : Z;
  st_block_sz : Z;
  st_mtime : Z;
  st_atime : Z;
  st_length : Z;
  st_man_repl : Z;
  st_uid : Z;
  st_gid : Z;
  st_name : string
}.

(** The operation of a request with its input fields, as mstor.c reads
    them from [struct mreq_creat], [struct mreq_open], ... of mds/mstor.h. *)
Inductive mreq_op :=
| MSTOR_OP_CREAT (mode ctime : Z)
| MSTOR_OP_OPEN (atime : Z)
| MSTOR_OP_CHUNKFIND (start end_ : Z) (max_cinfos : Z)
| MSTOR_OP_CHUNKALLOC (nid off : Z)
| MSTOR_OP_MKDIRS (mode ctime : Z)
| MSTOR_OP_LISTDIR (out_len : Z)
| MSTOR_OP_STAT (out_len : Z)
| MSTOR_OP_CHMOD (mode : Z)
| MSTOR_OP_CHOWN (new_user new_group : option string)
| MSTOR_OP_UTIMES (atime mtime : Z)
| MSTOR_OP_RMDIR (rmr : bool)
| MSTOR_OP_SEQUESTER_TREE
| MSTOR_OP_FIND_SEQUESTERED
| MSTOR_OP_DESTROY_SEQUESTERED
| MSTOR_OP_RENAME.

(** [struct mreq]: the fields every request has. *)
Record mreq := {
  op : mreq_op;
  full_path : string;
  user_name : string;
  flags : Z;
  ruser : user
}.

Definition set_flags (r : mreq) (f : Z) : mreq :=
  {| op := op r; full_path := full_path r; user_name := user_name r;
     flags := f; ruser := ruser r |}.

Definition set_user (r : mreq) (u : user) : mreq :=
  {| op := op r; full_path := full_path r; user_name := user_name r;
     flags := flags r; ruser := u |}.

(** The output fields a handler fills in. *)
Inductive reply :=
| RNone
| RNid (nid : Z)
| RChunks (num_cinfos : Z) (cinfos : list chunk_info)
| RAlloc (cid : Z) (oid : list Z)
| RStat (used_len : Z) (out : list stat_entry).

(** The result of a fetch: the node, or the negative error code. *)
Inductive fetched :=
| Got (node : mnode)
| Failed (ret : Z).

(** ** Key builders *)

Definition bytes_of_string (s : string) : bytes :=
  map (fun c => Z.of_nat (nat_of_ascii c)) (list_ascii_of_string s).

Definition strlen (s : string) : Z := Z.of_nat (String.length s).

Definition node_key (n : Z) : bytes := tag_n :: pack_to_be64 n.
Definition chunk_key (c : Z) : bytes := tag_h :: pack_to_be64 c.
Definition file_key (n off : Z) : bytes :=
  tag_f :: pack_to_be64 n ++ pack_to_be64 off.
Definition child_prefix (p : Z) : bytes := tag_c :: pack_to_be64 p.

Section WithPlatform.
Context {P : Platform}.

(** [snprintf(ckey + 9, RF_PCOMP_MAX, "%s", pcomp)] followed by a key
    length of [9 + strlen(pcomp)].  A name shorter than RF_PCOMP_MAX is
    copied in full, and the key is the prefix and the bytes of the name.
    A name of RF_PCOMP_MAX bytes or more is cut to RF_PCOMP_MAX - 1 bytes
    and a terminator, and for a longer one the key length reaches past the
    end of [ckey]: what the code reads there is not determined by the
    program and may differ from one call to the next; it reads as zero
    here.  Whatever relates the key one call builds to the key of another
    call is therefore stated for names shorter than RF_PCOMP_MAX
    ([name_fits] below). *)
Definition child_name_bytes (pcomp : string) : bytes :=
  let b := bytes_of_string pcomp in
  if strlen pcomp <? RF_PCOMP_MAX then b
  else firstn (Z.to_nat (RF_PCOMP_MAX - 1)) b
       ++ repeat 0 (length b - Z.to_nat (RF_PCOMP_MAX - 1)).

Definition child_key (p : Z) (pcomp : string) : bytes :=
  child_prefix p ++ child_name_bytes pcomp.

(** ** Id allocation *)

(** [__sync_fetch_and_add(&mstor->next_nid, 1)], then [abort()] past the
    ceiling. *)
Definition mstor_next_nid (m : mstor) : option (Z * mstor) :=
  let n := next_nid m in
  let m' := set_next_nid m ((n + 1) mod two64) in
  if n >? MSTOR_NID_MAX then None else Some (n, m').

Definition mstor_next_cid (m : mstor) : option (Z * mstor) :=
  let c := next_cid m in
  let m' := set_next_cid m ((c + 1) mod two64) in
  if c >? MSTOR_NID_MAX then None else Some (c, m').

(** ** Version record *)

Definition bytes_eqb (a b : bytes) : bool :=
  (length a =? length b)%nat && forallb (fun p => fst p =? snd p) (combine a b).

Definition mstor_parse_version (v : bytes) : Z :=
  if negb (length v =? MSTOR_VERSION_BODY_LEN)%nat then MSTOR_VERSION_INVAL
  else if negb (bytes_eqb (firstn MSTOR_VERSION_MAGIC_LEN v) MSTOR_VERSION_MAGIC)
  then MSTOR_VERSION_INVAL
  else unpack_from_be32 (skipn MSTOR_VERSION_MAGIC_LEN v).

(** A missing record reads as a NULL value of length 0. *)
Definition mstor_read_version (m : mstor) : Z :=
  match leveldb_get (ldb m) [tag_v] with
  | Some v => mstor_parse_version v
  | None => mstor_parse_version []
  end.

Definition mstor_write_version (m : mstor) (vers : Z) : Z * mstor :=
  (0, set_ldb m (leveldb_put (ldb m) [tag_v]
                   (MSTOR_VERSION_MAGIC ++ pack_to_be32 vers))).

(** ** Bootstrap and recovery *)

Definition mstor_leveldb_is_empty (m : mstor) : Z :=
  if leveldb_iter_valid (leveldb_iter_seek_to_first (ldb m)) then 0 else 1.

(** [t] is the value of [time(NULL)]. *)
Definition mstor_leveldb_create_new (m : mstor) (t : Z) : Z * mstor :=
  let '(ret, m1) := mstor_write_version m MSTOR_CUR_VERSION in
  if negb (ret =? 0) then (ret, m1)
  else
    let nkey := tag_n :: pack_to_be64 MSTOR_ROOT_NID in
    let nbody :=
      pack_to_be64 t ++ pack_to_be64 t ++ pack_to_be64 0
      ++ pack_to_be32 RF_SUPERUSER_UID ++ pack_to_be32 RF_SUPERUSER_GID
      ++ pack_to_be16 MSTOR_ROOT_NID_INIT_MODE in
    let m2 := set_ldb m1 (leveldb_put (ldb m1) nkey nbody) in
    (0, set_next_nid m2 (MSTOR_ROOT_NID + 1)).

(** Returns the error code, or the value stored in [*next_nid]. *)
Definition mstor_load_next_nid (d : db) : Z + Z :=
  let nkey := tag_n :: pack_to_be64 MSTOR_NID_MAX in
  let it := leveldb_iter_prev (leveldb_iter_seek d nkey) in
  if negb (leveldb_iter_valid it) then inl (- EINVAL)
  else
    let k := leveldb_iter_key it in
    if negb (length k =? MNODE_KEY_LEN)%nat || negb (hd 0 k =? tag_n)
    then inl (- EINVAL)
    else inr ((unpack_from_be64 (skipn 1 k) + 1) mod two64).

Definition mstor_load_next_cid (d : db) : Z + Z :=
  let hkey := tag_h :: pack_to_be64 MSTOR_CID_MAX in
  let it := leveldb_iter_prev (leveldb_iter_seek d hkey) in
  if negb (leveldb_iter_valid it) then inr 1
  else
    let k := leveldb_iter_key it in
    if negb (length k =? MCHUNK_KEY_LEN)%nat || negb (hd 0 k =? tag_h)
    then inr 1
    else inr ((unpack_from_be64 (skipn 1 k) + 1) mod two64).

Definition mstor_leveldb_load (m : mstor) : Z * mstor :=
  let vers := mstor_read_version m in
  if vers =? MSTOR_VERSION_INVAL then (- EINVAL, m)
  else if negb (vers =? MSTOR_CUR_VERSION) then (- EINVAL, m)
  else
    match mstor_load_next_nid (ldb m) with
    | inl ret => (ret, m)
    | inr nn =>
        let m1 := set_next_nid m nn in
        match mstor_load_next_cid (ldb m1) with
        | inl ret => (ret, m1)
        | inr nc => (0, set_next_cid m1 nc)
        end
    end.

(** ** Permission check *)

Definition mstor_mode_check (node : mnode) (req : mreq) (want : Z) : Z :=
  let mode := unpack_from_be16 (skipn off_mode_and_type (hdr node)) in
  if negb (Z.land want MNODE_IS_DIR =? 0) && (Z.land mode MNODE_IS_DIR =? 0)
  then - ENOTDIR
  else if (Z.land want MNODE_IS_DIR =? 0) && negb (Z.land mode MNODE_IS_DIR =? 0)
  then - EISDIR
  else if Z.land (flags req) MREQ_FLAG_CHECK_PERMS =? 0 then 0
  else
    let mode := (Z.land mode (Z.lnot MNODE_IS_DIR)) mod two16 in
    let want := Z.land want (Z.lnot MNODE_IS_DIR) in
    if negb (Z.land (Z.shiftl want 6) mode =? 0) then 0
    else
      let uid_ := unpack_from_be32 (skipn off_uid (hdr node)) in
      if (uid_ =? uid (ruser req)) && negb (Z.land want mode =? 0) then 0
      else
        let gid_ := unpack_from_be32 (skipn off_gid (hdr node)) in
        if user_in_gid (ruser req) gid_
           && negb (Z.land (Z.shiftl want 3) mode =? 0) then 0
        else - EPERM.

(** ** Store set-up *)

Definition get_valid_repl (conf_repl def_repl : Z) : Z :=
  if conf_repl =? JORM_INVAL_INT then def_repl
  else if conf_repl <? 1 then def_repl
  else if conf_repl >? RF_MAX_OID then RF_MAX_OID
  else conf_repl.

(** [disk] is the directory [conf->mstor_path] names: [None] when it does
    not exist, in which case [leveldb_open] creates an empty database only
    if [create_if_missing] was set.  Returns the error code or 0. *)
Definition mstor_leveldb_init (m : mstor) (conf : mstorc) (disk : option db)
  : Z * mstor :=
  match (match disk with
         | Some d => Some d
         | None => if negb (mstor_create conf =? 0) then Some [] else None
         end) with
  | None => (- EIO, m)
  | Some d =>
      let m1 := set_ldb m d in
      let mst :=
        if c_min_sequester_time conf =? JORM_INVAL_INT
        then MSTOR_DEFAULT_SEQUESTER_TIME
        else c_min_sequester_time conf in
      (0, {| ldb := ldb m1; next_nid := next_nid m1;
             min_sequester_time := mst;
             min_repl := get_valid_repl (min_repl m1) MSTOR_DEFAULT_MIN_REPL;
             man_repl := get_valid_repl (man_repl m1) MSTOR_DEFAULT_MAN_REPL;
             next_cid := next_cid m1; udir := udir m1 |})
  end.

(** Returns the store, or the positive error code of the [ERR_PTR]. *)
Definition mstor_init (conf : mstorc) (u : udata) (disk : option db) (t : Z)
  : mstor + Z :=
  let m := mstor_calloc u in
  let '(ret, m) := mstor_leveldb_init m conf disk in
  if negb (ret =? 0) then inr (Z.abs ret)
  else
    let e := mstor_leveldb_is_empty m in
    if e <? 0 then inr (Z.abs e)
    else if e =? 1 then
      let '(ret, m) := mstor_leveldb_create_new m t in
      if negb (ret =? 0) then inr (Z.abs ret) else inl m
    else
      let '(ret, m) := mstor_leveldb_load m in
      if negb (ret =? 0) then inr (Z.abs ret) else inl m.

(** ** Node access *)

Definition mstor_fetch_node (m : mstor) (n : Z) : fetched :=
  match leveldb_get (ldb m) (node_key n) with
  | None => Failed (- ENOENT)
  | Some v =>
      if negb (length v =? sizeof_mnode_payload)%nat then Failed (- EIO)
      else Got {| nid := n; val := Some v |}
  end.

Definition mstor_fetch_child (m : mstor) (req : mreq) (pcomp : string)
  (pnode : mnode) : fetched :=
  let ret := mstor_mode_check pnode req (Z.lor MSTOR_PERM_EXEC MNODE_IS_DIR) in
  if negb (ret =? 0) then Failed ret
  else
    match leveldb_get (ldb m) (child_key (nid pnode) pcomp) with
    | None => Failed (- ENOENT)
    | Some v =>
        if negb (length v =? 8)%nat then Failed (- EIO)
        else mstor_fetch_node m (unpack_from_be64 v)
    end.

(** On failure the caller's [cnode] is left as it was: zeroed. *)
Definition mstor_make_node (m : mstor) (mode_and_type mtime atime uid_ gid_ : Z)
  (pcomp : string) (pnode : mnode) : option (Z * mstor * mnode) :=
  match mstor_next_nid m with
  | None => None
  | Some (cnid, m1) =>
      if cnid =? MSTOR_NID_MAX then Some (- EOVERFLOW, m1, mnode_zero)
      else
        let ckey := child_key (nid pnode) pcomp in
        let nkey := node_key cnid in
        let body := repeat 0 sizeof_mnode_payload in
        let body := store_at off_mode_and_type
                      (pack_to_be16 (mode_and_type mod two16)) body in
        let body := store_at off_mtime (pack_to_be64 mtime) body in
        let body := store_at off_atime (pack_to_be64 atime) body in
        let body := store_at off_uid (pack_to_be32 uid_) body in
        let body := store_at off_gid (pack_to_be32 gid_) body in
        let bat := [BPut ckey (skipn 1 nkey); BPut nkey body] in
        Some (0, set_ldb m1 (leveldb_write (ldb m1) bat),
              {| nid := cnid; val := Some body |})
  end.

(** ** Operation handlers *)

Definition mstor_do_creat (m : mstor) (req : mreq) (mode ctime : Z)
  (pcomp : string) (pnode : mnode) : option (Z * mstor * mnode * reply) :=
  let ret := mstor_mode_check pnode req (Z.lor MSTOR_PERM_WRITE MNODE_IS_DIR) in
  if negb (ret =? 0) then Some (ret, m, mnode_zero, RNone)
  else
    match mstor_make_node m mode ctime ctime (uid (ruser req)) (gid (ruser req))
            pcomp pnode with
    | None => None
    | Some (ret, m1, cnode) =>
        Some (ret, m1, cnode, if ret =? 0 then RNid (nid cnode) else RNone)
    end.

Definition mstor_do_open (m : mstor) (req : mreq) (atime : Z) (node : mnode)
  : Z * mstor * reply :=
  let ret := mstor_mode_check node req MSTOR_PERM_READ in
  if negb (ret =? 0) then (ret, m, RNone)
  else
    let v := store_at off_atime (pack_to_be64 atime) (hdr node) in
    (0, set_ldb m (leveldb_put (ldb m) (node_key (nid node)) v),
     RNid (nid node)).

(** The [while (1)] loop of [mstor_chunkfind_impl].  [base] and [v] belong to
    the record under the iterator, [rest] are the records after it, [cinfos]
    the entries filled in so far ([num_cinfos] is their number). *)
Fixpoint chunkfind_loop (pfx : bytes) (max_cinfos end_ : Z)
  (rest : list entry) (base : Z) (v : bytes) (cinfos : list chunk_info)
  : Z * list chunk_info :=
  let num_cinfos := Z.of_nat (length cinfos) in
  if num_cinfos + 1 >=? max_cinfos then (num_cinfos, cinfos)
  else if negb (length v =? 8)%nat then (- EIO, cinfos)
  else
    let cinfos := cinfos ++ [{| ci_cid := unpack_from_be64 v; ci_start := base |}] in
    let num_cinfos := Z.of_nat (length cinfos) in
    match rest with
    | [] => (num_cinfos, cinfos)
    | (k, v') :: rest' =>
        if negb (length k =? MFILE_KEY_LEN)%nat
           || negb (bytes_eqb (firstn 9 k) pfx)
        then (num_cinfos, cinfos)
        else
          let base' := unpack_from_be64 (skipn 9 k) in
          if base' >? end_ then (num_cinfos, cinfos)
          else chunkfind_loop pfx max_cinfos end_ rest' base' v' cinfos
    end.

(** Returns the return value and the contents of the [cinfos] array. *)
Definition mstor_chunkfind_impl (m : mstor) (n : Z) (max_cinfos : Z)
  (start end_ : Z) : Z * list chunk_info :=
  let fkey := tag_f :: pack_to_be64 n ++ pack_to_be64 ((start + 1) mod two64) in
  let it := leveldb_iter_prev (leveldb_iter_seek (ldb m) fkey) in
  if negb (leveldb_iter_valid it) then (0, [])
  else
    let k := leveldb_iter_key it in
    if negb (length k =? MFILE_KEY_LEN)%nat
       || negb (bytes_eqb (firstn 9 k) (firstn 9 fkey))
    then (0, [])
    else
      let base := unpack_from_be64 (skipn 9 k) in
      let v := leveldb_iter_value it in
      chunkfind_loop (firstn 9 fkey) max_cinfos end_ (tl (it_after it))
        base v [].

Definition mstor_do_chunkfind (m : mstor) (req : mreq)
  (start end_ max_cinfos : Z) (cnode : mnode) : Z * mstor * reply :=
  let ret := mstor_mode_check cnode req MSTOR_PERM_READ in
  if negb (ret =? 0) then (ret, m, RNone)
  else
    let '(ret, cinfos) :=
      mstor_chunkfind_impl m (nid cnode) max_cinfos start end_ in
    if ret <? 0 then (ret, m, RNone)
    else (0, m, RChunks ret cinfos).

(** Returns the oids written and their number. *)
Definition mstor_assign_oid : list Z * Z := ([123; 456], 2).

Definition mstor_do_chunkalloc (m : mstor) (req : mreq) (n off : Z)
  : option (Z * mstor * reply) :=
  match mstor_fetch_node m n with
  | Failed ret => Some (ret, m, RNone)
  | Got node =>
      let ret := mstor_mode_check node req MSTOR_PERM_WRITE in
      if negb (ret =? 0) then Some (ret, m, RNone)
      else
        let '(ret, _) := mstor_chunkfind_impl m n 1 off off in
        if ret <? 0 then Some (ret, m, RNone)
        else if negb (ret =? 0) then Some (- EINVAL, m, RNone)
        else
          let fkey := tag_f :: pack_to_be64 n ++ pack_to_be64 off in
          match mstor_next_cid m with
          | None => None
          | Some (cid, m1) =>
              let '(oids, num_oid) := mstor_assign_oid in
              if num_oid <? 0 then Some (num_oid, m1, RNone)
              else
                let hkey := tag_h :: pack_to_be64 cid in
                let bat :=
                  [BPut fkey (host_bytes host_order 8 cid);
                   BPut hkey
                     (concat (map (host_bytes host_order 4)
                                (firstn (Z.to_nat num_oid) oids)))] in
                Some (ret, set_ldb m1 (leveldb_write (ldb m1) bat),
                      RAlloc cid oids)
          end
  end.

Definition mstor_do_mkdir (m : mstor) (req : mreq) (mode ctime : Z)
  (pcomp : string) (pnode : mnode) : option (Z * mstor * mnode) :=
  let ret := mstor_mode_check pnode req (Z.lor MSTOR_PERM_WRITE MNODE_IS_DIR) in
  if negb (ret =? 0) then Some (ret, m, mnode_zero)
  else
    mstor_make_node m (Z.lor mode MNODE_IS_DIR) ctime ctime
      (uid (ruser req)) (gid (ruser req)) pcomp pnode.

(** Modelled from the spec: [pack_str] of the missing util/packed.h; the
    NUL-terminated string is appended at [*off] when the buffer can hold
    it, and packing fails with NameTooLong when it cannot. *)
Definition pack_str (off len : Z) (s : string) : Z * Z :=
  if len - off <? strlen s + 1 then (- ENAMETOOLONG, off)
  else (0, off + strlen s + 1).

(** Returns the return value, [*off] and the records in [out]. *)
Definition add_stat_to_list (m : mstor) (off out_len : Z) (pcomp : string)
  (node : mnode) (out : list stat_entry) : Z * Z * list stat_entry :=
  let o := off in
  if (out_len - o) mod two32 <? sizeof_mmm_stat_hdr
  then (- ENAMETOOLONG, off, out)
  else
    let o := (o + sizeof_mmm_stat_hdr) mod two32 in
    let '(ret, o) := pack_str o out_len pcomp in
    if negb (ret =? 0) then (ret, off, out)
    else
      let stat_len := (o - off) mod two32 in
      if stat_len >? 0xffff then (- ENAMETOOLONG, off, out)
      else
        (0, o,
         out ++ [{| st_stat_len := stat_len mod two16;
                    st_mode_and_type := payload_mode_and_type (hdr node);
                    st_block_sz := 0;
                    st_mtime := payload_mtime (hdr node);
                    st_atime := payload_atime (hdr node);
                    st_length := payload_length (hdr node);
                    st_man_repl := man_repl m mod 256;
                    st_uid := payload_uid (hdr node);
                    st_gid := payload_gid (hdr node);
                    st_name := pcomp |}]).

(** The C string a buffer holds: its bytes up to the first NUL. *)
Fixpoint cstring_of_bytes (b : bytes) : string :=
  match b with
  | [] => EmptyString
  | x :: b' =>
      if x =? 0 then EmptyString
      else String (ascii_of_nat (Z.to_nat x)) (cstring_of_bytes b')
  end.

(** The loop of [mstor_do_listdir] over the records from the iterator on. *)
Fixpoint listdir_loop (m : mstor) (out_len : Z) (dnode : mnode)
  (rest : list entry) (off : Z) (out : list stat_entry)
  : Z * Z * list stat_entry :=
  match rest with
  | [] => (0, off, out)
  | (k, v) :: rest' =>
      if (length k <? 1)%nat then (- EIO, 0, out)
      else if negb (hd 0 k =? tag_c) then (0, off, out)
      else if (length k <=? MCHILD_KEY_LEN_PREFIX)%nat then (- EIO, 0, out)
      else if negb (unpack_from_be64 (skipn 1 k) =? nid dnode)
      then (0, off, out)
      else if negb (length v =? 8)%nat then (- EIO, 0, out)
      else
        let n := unpack_from_be64 v in
        if Z.of_nat (length k - MCHILD_KEY_LEN_PREFIX) >=? RF_PCOMP_MAX
        then (- ENAMETOOLONG, 0, out)
        else
          let pcomp := cstring_of_bytes (skipn MCHILD_KEY_LEN_PREFIX k) in
          match mstor_fetch_node m n with
          | Failed ret =>
              if ret =? - ENOENT
              then listdir_loop m out_len dnode rest' off out
              else (ret, 0, out)
          | Got node =>
              let '(ret, off', out') :=
                add_stat_to_list m off out_len pcomp node out in
              if negb (ret =? 0) then (ret, 0, out')
              else listdir_loop m out_len dnode rest' off' out'
          end
  end.

Definition mstor_do_listdir (m : mstor) (req : mreq) (out_len : Z)
  (dnode : mnode) : Z * mstor * reply :=
  let ret := mstor_mode_check dnode req (Z.lor MSTOR_PERM_READ MNODE_IS_DIR) in
  if negb (ret =? 0) then (ret, m, RStat 0 [])
  else
    let it := leveldb_iter_seek (ldb m) (child_prefix (nid dnode)) in
    let '(ret, used_len, out) :=
      listdir_loop m out_len dnode (it_after it) 0 [] in
    (ret, m, RStat used_len out).

Definition mstor_do_stat (m : mstor) (req : mreq) (out_len : Z)
  (pcomp : string) (pnode cnode : mnode) : Z * mstor * reply :=
  let ret :=
    match val pnode with
    | Some _ =>
        mstor_mode_check pnode req (Z.lor MSTOR_PERM_READ MNODE_IS_DIR)
    | None => 0
    end in
  if negb (ret =? 0) then (ret, m, RNone)
  else
    let '(ret, _, out) := add_stat_to_list m 0 out_len pcomp cnode [] in
    (ret, m, RStat 0 out).

Definition mstor_do_chmod (m : mstor) (req : mreq) (mode : Z) (node : mnode)
  : Z * mstor * reply :=
  let mode_and_type := mode mod two16 in
  let old_mode_and_type := unpack_from_be16 (skipn off_mode_and_type (hdr node)) in
  let mode_and_type :=
    if negb (Z.land old_mode_and_type MNODE_IS_DIR =? 0)
    then (Z.lor mode_and_type MNODE_IS_DIR) mod two16
    else (Z.land mode_and_type (Z.lnot MNODE_IS_DIR)) mod two16 in
  let v := store_at off_mode_and_type (pack_to_be16 mode_and_type) (hdr node) in
  (0, set_ldb m (leveldb_put (ldb m) (node_key (nid node)) v), RNone).

Definition mstor_do_chown (m : mstor) (req : mreq)
  (new_user new_group : option string) (node : mnode) : Z * mstor * reply :=
  let new_node := hdr node in
  let lu :=
    match new_user with
    | Some name =>
        match udata_lookup_user (udir m) name with
        | inl u => inl (Some u)
        | inr e => inr e
        end
    | None => inl None
    end in
  match lu with
  | inr e => (e, m, RNone)
  | inl nu =>
      let new_node :=
        match nu with
        | Some u => store_at off_uid (pack_to_be32 (uid u)) new_node
        | None => new_node
        end in
      let lg :=
        match new_group with
        | Some name =>
            match udata_lookup_group (udir m) name with
            | inl g => inl (Some g)
            | inr e => inr e
            end
        | None => inl None
        end in
      match lg with
      | inr e => (e, m, RNone)
      | inl ng =>
          let new_node :=
            match ng with
            | Some g => store_at off_gid (pack_to_be32 (g_gid g)) new_node
            | None => new_node
            end in
          let denied :=
            if negb (Z.land (flags req) MREQ_FLAG_CHECK_PERMS =? 0) then
              match nu, ng with
              | Some _, _ => true
              | None, Some g =>
                  let uid_ := unpack_from_be32 (skipn off_uid (hdr node)) in
                  negb (user_in_gid (ruser req) (g_gid g))
                  || negb (uid_ =? uid (ruser req))
              | None, None => false
              end
            else false in
          if denied then (- EPERM, m, RNone)
          else
            (0, set_ldb m (leveldb_put (ldb m) (node_key (nid node)) new_node),
             RNone)
      end
  end.

Definition mstor_do_utimes (m : mstor) (req : mreq) (atime mtime : Z)
  (node : mnode) : Z * mstor * reply :=
  let v := hdr node in
  let v := if negb (atime =? RF_INVAL_TIME)
           then store_at off_atime (pack_to_be64 atime) v else v in
  let v := if negb (mtime =? RF_INVAL_TIME)
           then store_at off_mtime (pack_to_be64 mtime) v else v in
  (0, set_ldb m (leveldb_put (ldb m) (node_key (nid node)) v), RNone).

(** Adds the two deletions to the batch. *)
Definition leveldb_delete_node (pcomp : string) (pnode cnode : mnode)
  (bat : writebatch) : writebatch :=
  bat ++ [BDelete (child_key (nid pnode) pcomp);
          BDelete (node_key (nid cnode))].

(** The loop of [mstor_do_rmdir] over the records from the iterator on;
    returns the return value and the batch. *)
Fixpoint rmdir_loop (m : mstor) (req : mreq) (rmr : bool) (cnode : mnode)
  (rest : list entry) (bat : writebatch) : Z * writebatch :=
  match rest with
  | [] => (0, bat)
  | (k, v) :: rest' =>
      if (length k <? 1)%nat then (- EIO, bat)
      else if negb (hd 0 k =? tag_c) then (0, bat)
      else if (length k <=? MCHILD_KEY_LEN_PREFIX)%nat then (- EIO, bat)
      else if negb (unpack_from_be64 (skipn 1 k) =? nid cnode) then (0, bat)
      else if negb (length v =? 8)%nat then (- EIO, bat)
      else
        let n := unpack_from_be64 v in
        if Z.of_nat (length k - MCHILD_KEY_LEN_PREFIX) >=? RF_PCOMP_MAX
        then (- EIO, bat)
        else if negb rmr then (- ENOTEMPTY, bat)
        else
          let pcomp2 := cstring_of_bytes (skipn MCHILD_KEY_LEN_PREFIX k) in
          match mstor_fetch_node m n with
          | Failed ret => (ret, bat)
          | Got node =>
              let ret := mstor_mode_check node req MSTOR_PERM_WRITE in
              if negb (ret =? 0) then (ret, bat)
              else
                rmdir_loop m req rmr cnode rest'
                  (leveldb_delete_node pcomp2 cnode node bat)
          end
  end.

Definition mstor_do_rmdir (m : mstor) (req : mreq) (rmr : bool)
  (pcomp : string) (pnode cnode : mnode) : Z * mstor * reply :=
  match val pnode with
  | None => (- EPERM, m, RNone)
  | Some _ =>
      let ret :=
        mstor_mode_check pnode req (Z.lor MSTOR_PERM_WRITE MNODE_IS_DIR) in
      if negb (ret =? 0) then (ret, m, RNone)
      else
        let it := leveldb_iter_seek (ldb m) (child_prefix (nid cnode)) in
        let '(ret, bat) := rmdir_loop m req rmr cnode (it_after it) [] in
        if negb (ret =? 0) then (ret, m, RNone)
        else
          let bat := leveldb_delete_node pcomp pnode cnode bat in
          (ret, set_ldb m (leveldb_write (ldb m) bat), RNone)
  end.

(** ** Path walker *)

(** The buffer after every ['/'] has been overwritten by a terminator: the
    adjacent zero-terminated slices, the first of which starts the buffer. *)
Fixpoint split_slash (s : string) : list string :=
  match s with
  | EmptyString => [EmptyString]
  | String c s' =>
      let r := split_slash s' in
      if Ascii.eqb c "/"%char then EmptyString :: r
      else
        match r with
        | h :: t => String c h :: t
        | [] => [String c EmptyString]
        end
  end.

(** Where the [for] loop of [mstor_do_path_operation] leaves: with the
    value it returned from inside the loop, or past the loop with the
    current parent, node and component. *)
Inductive walked :=
| Returned (ret : Z) (m : mstor) (r : reply)
| Reached (m : mstor) (req : mreq) (pnode cnode : mnode) (pcomp : string).

(** The [for] loop over the components still to visit; [cpc < npc - 1]
    holds exactly when a component follows the current one. *)
Fixpoint walk (m : mstor) (req : mreq) (pnode cnode : mnode) (pcomp : string)
  (comps : list string) : option walked :=
  match comps with
  | [] => Some (Reached m req pnode cnode pcomp)
  | pcomp :: rest =>
      let pnode := cnode in
      match mstor_fetch_child m req pcomp pnode with
      | Got cnode => walk m req pnode cnode pcomp rest
      | Failed ret =>
          if ret =? - ENOENT then
            match op req with
            | MSTOR_OP_CREAT mode ctime =>
                match rest with
                | _ :: _ => Some (Returned ret m RNone)
                | [] =>
                    match mstor_do_creat m req mode ctime pcomp pnode with
                    | None => None
                    | Some (ret, m1, _, r) => Some (Returned ret m1 r)
                    end
                end
            | MSTOR_OP_MKDIRS mode ctime =>
                match mstor_do_mkdir m req mode ctime pcomp pnode with
                | None => None
                | Some (ret, m1, cnode) =>
                    if negb (ret =? 0) then Some (Returned ret m1 RNone)
                    else
                      walk m1
                        (set_flags req
                           (Z.land (flags req) (Z.lnot MREQ_FLAG_CHECK_PERMS)))
                        pnode cnode pcomp rest
                end
            | _ => Some (Returned ret m RNone)
            end
          else Some (Returned ret m RNone)
      end
  end.

(** The components the loop visits: the slices after the first, [npc] of
    them, where [npc] is the number of slashes, or 0 for the root. *)
Definition path_components (path : string) : string * list string :=
  let segs := split_slash path in
  let npc := (length segs - 1)%nat in
  let npc :=
    match segs with
    | EmptyString :: EmptyString :: _ => O
    | _ => npc
    end in
  (hd EmptyString segs, firstn npc (tl segs)).

Definition mstor_do_path_operation (m : mstor) (req : mreq)
  : option (Z * mstor * reply) :=
  let req := set_flags req MREQ_FLAG_CHECK_PERMS in
  let req :=
    if uid (ruser req) =? RF_SUPERUSER_UID
    then set_flags req (Z.land (flags req) (Z.lnot MREQ_FLAG_CHECK_PERMS))
    else req in
  if strlen (full_path req) >=? RF_PATH_MAX then Some (- ENAMETOOLONG, m, RNone)
  else
    let '(ret, path) := canonicalize_path (full_path req) in
    if negb (ret =? 0) then Some (ret, m, RNone)
    else
      let '(pcomp, comps) := path_components path in
      match mstor_fetch_node m MSTOR_ROOT_NID with
      | Failed _ => Some (- ENOSYS, m, RNone)
      | Got cnode =>
          match walk m req mnode_zero cnode pcomp comps with
          | None => None
          | Some (Returned ret m1 r) => Some (ret, m1, r)
          | Some (Reached m1 req pnode cnode pcomp) =>
              match op req with
              | MSTOR_OP_CREAT _ _ => Some (- EEXIST, m1, RNone)
              | MSTOR_OP_OPEN atime => Some (mstor_do_open m1 req atime cnode)
              | MSTOR_OP_CHUNKFIND start end_ max_cinfos =>
                  Some (mstor_do_chunkfind m1 req start end_ max_cinfos cnode)
              | MSTOR_OP_MKDIRS _ _ => Some (0, m1, RNone)
              | MSTOR_OP_LISTDIR out_len =>
                  Some (mstor_do_listdir m1 req out_len cnode)
              | MSTOR_OP_STAT out_len =>
                  Some (mstor_do_stat m1 req out_len pcomp pnode cnode)
              | MSTOR_OP_CHMOD mode => Some (mstor_do_chmod m1 req mode cnode)
              | MSTOR_OP_CHOWN new_user new_group =>
                  Some (mstor_do_chown m1 req new_user new_group cnode)
              | MSTOR_OP_UTIMES atime mtime =>
                  Some (mstor_do_utimes m1 req atime mtime cnode)
              | MSTOR_OP_RMDIR rmr =>
                  Some (mstor_do_rmdir m1 req rmr pcomp cnode pnode)
              | MSTOR_OP_SEQUESTER_TREE => Some (- ENOTSUP, m1, RNone)
              | MSTOR_OP_FIND_SEQUESTERED => Some (- ENOTSUP, m1, RNone)
              | MSTOR_OP_DESTROY_SEQUESTERED => Some (- ENOTSUP, m1, RNone)
              | MSTOR_OP_RENAME => Some (- ENOTSUP, m1, RNone)
              | MSTOR_OP_CHUNKALLOC _ _ => None
              end
          end
      end.

Definition mstor_do_operation (m : mstor) (req : mreq)
  : option (Z * mstor * reply) :=
  match udata_lookup_user (udir m) (user_name req) with
  | inr _ => Some (- EUSERS, m, RNone)
  | inl u =>
      let req := set_user req u in
      match op req with
      | MSTOR_OP_CHUNKALLOC n off => mstor_do_chunkalloc m req n off
      | _ => mstor_do_path_operation m req
      end
  end.

(** ** Dumper *)

(** One line of [mstor_dump], before it is formatted. *)
Inductive dump_line :=
| CHILD (pnid : Z) (pcomp : string) (cnid : Z)
| FILE (n off cid : Z)
| CHUNK (cid : Z) (oids : list Z)
| NODE (n : Z) (is_dir : bool) (mode mtime atime uid_ gid_ : Z)
| MSTOR_VERSION (vers : Z).

Definition mstor_dump_child (k v : bytes) : Z + dump_line :=
  if (length k <=? 9)%nat || (Z.of_nat (length k) >=? 9 + RF_PATH_MAX)
  then inl (- EINVAL)
  else if negb (length v =? 8)%nat then inl (- EINVAL)
  else inr (CHILD (unpack_from_be64 (skipn 1 k))
              (cstring_of_bytes (skipn 9 k)) (unpack_from_be64 v)).

Definition mstor_dump_file_entry (k v : bytes) : Z + dump_line :=
  if negb (length k =? MFILE_KEY_LEN)%nat then inl (- EINVAL)
  else if negb (length v =? 8)%nat then inl (- EINVAL)
  else inr (FILE (unpack_from_be64 (skipn 1 k)) (unpack_from_be64 (skipn 9 k))
              (unpack_from_be64 v)).

Fixpoint unpack_oids (n : nat) (v : bytes) : list Z :=
  match n with
  | O => []
  | S n' => unpack_from_be32 v :: unpack_oids n' (skipn 4 v)
  end.

Definition mstor_dump_chunk_entry (k v : bytes) : Z + dump_line :=
  if negb (length k =? MCHUNK_KEY_LEN)%nat then inl (- EINVAL)
  else if negb (Nat.modulo (length v) 4 =? 0)%nat then inl (- EINVAL)
  else inr (CHUNK (unpack_from_be64 (skipn 1 k))
              (unpack_oids (Nat.div (length v) 4) v)).

Definition mstor_dump_node (k v : bytes) : Z + dump_line :=
  if negb (length k =? MNODE_KEY_LEN)%nat then inl (- EINVAL)
  else if (length v <? sizeof_mnode_payload)%nat then inl (- EINVAL)
  else if negb (length v =? sizeof_mnode_payload)%nat then inl (- EINVAL)
  else
    let mode := payload_mode_and_type v in
    inr (NODE (unpack_from_be64 (skipn 1 k))
           (negb (Z.land mode MNODE_IS_DIR =? 0))
           ((Z.land mode (Z.lnot MNODE_IS_DIR)) mod two16)
           (payload_mtime v) (payload_atime v) (payload_uid v) (payload_gid v)).

Fixpoint dump_loop (rest : list entry) (out : list dump_line)
  : Z * list dump_line :=
  match rest with
  | [] => (0, out)
  | (k, v) :: rest' =>
      if (length k <? 1)%nat then (- EIO, out)
      else
        let line :=
          if hd 0 k =? tag_c then mstor_dump_child k v
          else if hd 0 k =? tag_f then mstor_dump_file_entry k v
          else if hd 0 k =? tag_h then mstor_dump_chunk_entry k v
          else if hd 0 k =? tag_n then mstor_dump_node k v
          else if hd 0 k =? tag_v then
            if negb (length k =? 1)%nat then inl (- EIO)
            else
              let vers := mstor_parse_version v in
              if vers =? MSTOR_VERSION_INVAL then inl (- EINVAL)
              else inr (MSTOR_VERSION vers)
          else inl (- EIO) in
        match line with
        | inl ret => (ret, out)
        | inr l => dump_loop rest' (out ++ [l])
        end
  end.

Definition mstor_dump (m : mstor) : Z * list dump_line :=
  dump_loop (it_after (leveldb_iter_seek_to_first (ldb m))) [].

End WithPlatform.

(** ** A concrete platform and directory for running the code *)

(** Modelled from the spec: [canonicalize_path] of the missing util/path.h
    on the paths the examples use; it collapses repeated slashes, resolves
    [.] and [..] and drops a trailing slash. *)
Definition canon_step (acc : list string) (seg : string) : list string :=
  if String.eqb seg "" then acc
  else if String.eqb seg "." then acc
  else if String.eqb seg ".." then removelast acc
  else acc ++ [seg].

Fixpoint join_slash (l : list string) : string :=
  match l with
  | [] => EmptyString
  | h :: t => String "/"%char (h ++ join_slash t)
  end.

Definition simple_canonicalize (p : string) : Z * string :=
  match fold_left canon_step (split_slash p) [] with
  | [] => (0, "/"%string)
  | l => (0, join_slash l)
  end.

(** An example platform: a little-endian 64-bit host, with example values
    for the limits and sentinels. *)
Definition linux_x86_64 : Platform := {|
  RF_PATH_MAX := 4096;
  RF_PCOMP_MAX := 256;
  RF_MAX_OID := 0x7fffffff;
  RF_SUPERUSER_UID := 0;
  RF_SUPERUSER_GID := 0;
  RF_INVAL_TIME := 0xffffffffffffffff;
  JORM_INVAL_INT := -2147483648;
  sizeof_mmm_stat_hdr := 41;
  host_order := LittleEndian;
  canonicalize_path := simple_canonicalize
|}.

Definition superuser : user := {| uid := 0; gid := 0; segid := [] |}.
Definition alice : user := {| uid := 1000; gid := 1000; segid := [] |}.

Definition test_udata : udata := {|
  udata_lookup_user := fun name =>
    if String.eqb name "root" then inl superuser
    else if String.eqb name "alice" then inl alice
    else inr (- ENOENT);
  udata_lookup_group := fun name =>
    if String.eqb name "root" then inl {| g_gid := 0 |}
    else if String.eqb name "alice" then inl {| g_gid := 1000 |}
    else inr (- ENOENT)
|}.

Definition test_conf : mstorc := {|
  mstor_path := "/tmp/mstor";
  mstor_create := 1;
  mstor_cache_size := 1024;
  c_min_sequester_time := 300;
  c_min_repl := 2;
  c_man_repl := 5
|}.

Definition mk_req (o : mreq_op) (path name : string) : mreq :=
  {| op := o; full_path := path; user_name := name; flags := 0;
     ruser := {| uid := 0; gid := 0; segid := [] |} |}.

(** ** Notions the theorems are stated with *)

Definition check_perms (req : mreq) : bool :=
  negb (Z.land (flags req) MREQ_FLAG_CHECK_PERMS =? 0).

Definition node_is_dir (pl : bytes) : bool :=
  negb (Z.land (payload_mode_and_type pl) MNODE_IS_DIR =? 0).

(** The test [(want << shift) & mode] of [mstor_mode_check]: some wanted
    bit is set in [mode] after the shift. *)
Definition perm_at (shift p mode : Z) : bool :=
  negb (Z.land (Z.shiftl p shift) mode =? 0).

(** What [mstor_mode_check] grants once the type check has passed and
    [CHECK_PERMS] is set, read off its three tests in their order:
    [(want << 6) & mode] for every caller, [want & mode] for the caller
    whose uid is the node's, [(want << 3) & mode] for a member of the
    node's group. *)
Definition granted (pl : bytes) (u : user) (p : Z) : bool :=
  let mode := payload_mode_and_type pl in
  perm_at 6 p mode
  || (payload_uid pl =? uid u) && perm_at 0 p mode
  || user_in_gid u (payload_gid pl) && perm_at 3 p mode.

(** *** The permission check as the specification describes it *)

(** The positions of the three classes in a mode such as 0755 or 0644, as
    POSIX has them: the owner's bits are the high three, the group's the
    middle three, the bits of every other caller the low three. *)
Definition POSIX_OWNER_SHIFT : Z := 6.
Definition POSIX_GROUP_SHIFT : Z := 3.
Definition POSIX_OTHER_SHIFT : Z := 0.

(** The wanted bits are present in [mode] at the position: every one of
    them. *)
Definition bits_present (shift p mode : Z) : bool :=
  Z.land (Z.shiftl p shift) mode =? Z.shiftl p shift.

(** The policy: the "other" position first, then the "owner" position
    when the caller's uid is the node's, then the "group" position when
    the caller is a member of the node's group; any match grants. *)
Definition posix_granted (pl : bytes) (u : user) (p : Z) : bool :=
  let mode := payload_mode_and_type pl in
  bits_present POSIX_OTHER_SHIFT p mode
  || (payload_uid pl =? uid u) && bits_present POSIX_OWNER_SHIFT p mode
  || user_in_gid u (payload_gid pl) && bits_present POSIX_GROUP_SHIFT p mode.

(** The check: the type test on [IS_DIR], success when [CHECK_PERMS] is
    cleared, the policy otherwise.  [p] is the wanted subset of READ,
    WRITE and EXEC, [isdir] tells whether a directory is asked for. *)
Definition spec_mode_check (node : mnode) (req : mreq) (p : Z)
  (isdir : bool) : Z :=
  if isdir && negb (node_is_dir (hdr node)) then - ENOTDIR
  else if negb isdir && node_is_dir (hdr node) then - EISDIR
  else if negb (check_perms req) then 0
  else if posix_granted (hdr node) (ruser req) p then 0
  else - EPERM.

(** The node a list of components names, by records alone: every component
    has a child record and a node record. *)
Fixpoint resolve {P : Platform} (d : db) (n : Z) (comps : list string)
  : option Z :=
  match comps with
  | [] => Some n
  | c :: rest =>
      match leveldb_get d (child_key n c) with
      | Some v =>
          match leveldb_get d (node_key (unpack_from_be64 v)) with
          | Some _ => resolve d (unpack_from_be64 v) rest
          | None => None
          end
      | None => None
      end
  end.

(** The caller can traverse to the node: every component exists, every
    ancestor is a directory, and the caller is the superuser or holds
    execute permission on every ancestor. *)
Fixpoint traverse {P : Platform} (d : db) (u : user) (n : Z)
  (comps : list string) : option Z :=
  match comps with
  | [] => Some n
  | c :: rest =>
      match leveldb_get d (node_key n) with
      | Some pl =>
          if (length pl =? sizeof_mnode_payload)%nat && node_is_dir pl
             && ((uid u =? RF_SUPERUSER_UID) || granted pl u MSTOR_PERM_EXEC)
          then
            match leveldb_get d (child_key n c) with
            | Some v =>
                if (length v =? 8)%nat then
                  match leveldb_get d (node_key (unpack_from_be64 v)) with
                  | Some pl' =>
                      if (length pl' =? sizeof_mnode_payload)%nat
                      then traverse d u (unpack_from_be64 v) rest
                      else None
                  | None => None
                  end
                else None
            | None => None
            end
          else None
      | None => None
      end
  end.

(** The caller can traverse from the root to the node the components
    name. *)
Definition reaches {P : Platform} (d : db) (u : user) (comps : list string)
  : option Z :=
  match leveldb_get d (node_key MSTOR_ROOT_NID) with
  | Some pl =>
      if (length pl =? sizeof_mnode_payload)%nat
      then traverse d u MSTOR_ROOT_NID comps
      else None
  | None => None
  end.

(** The request as [mstor_do_path_operation] flags it. *)
Definition flagged {P : Platform} (req : mreq) : mreq :=
  if uid (ruser req) =? RF_SUPERUSER_UID
  then set_flags (set_flags req MREQ_FLAG_CHECK_PERMS)
         (Z.land MREQ_FLAG_CHECK_PERMS (Z.lnot MREQ_FLAG_CHECK_PERMS))
  else set_flags req MREQ_FLAG_CHECK_PERMS.

(** The components of the request's path, when the path is short enough
    and canonicalizes. *)
Definition request_path {P : Platform} (req : mreq) : option (list string) :=
  if strlen (full_path req) >=? RF_PATH_MAX then None
  else
    let '(ret, path) := canonicalize_path (full_path req) in
    if ret =? 0 then Some (snd (path_components path)) else None.

(** The mode-and-type [chmod] leaves: the requested 16 bits with the
    directory flag of the old value. *)
Definition chmod_mode (mode old : Z) : Z :=
  Z.lor (Z.land (mode mod two16) (Z.lnot MNODE_IS_DIR) mod two16)
        (Z.land old MNODE_IS_DIR).

(** Bytes of a stored key or value: each in [0, 256). *)
Definition byte_ok (b : Z) : bool := (0 <=? b) && (b <? 256).

(** Every key and value of the store is a string of bytes. *)
Definition db_bytes (d : db) : bool :=
  forallb (fun e => forallb byte_ok (fst e) && forallb byte_ok (snd e)) d.

(** The ids of the records of a family, in key order. *)
Definition family_ids (tag : Z) (d : db) : list Z :=
  map (fun e => unpack_from_be64 (skipn 1 (fst e)))
      (filter (fun e => hd 0 (fst e) =? tag) d).

Definition node_ids : db -> list Z := family_ids tag_n.
Definition chunk_ids : db -> list Z := family_ids tag_h.

(** A key of the node or chunk family is the tag and eight bytes of an id
    below the allocation ceiling. *)
Definition id_key_ok (k : bytes) : bool :=
  if (hd 0 k =? tag_n) || (hd 0 k =? tag_h) then
    (length k =? 9)%nat && forallb byte_ok (skipn 1 k)
    && (unpack_from_be64 (skipn 1 k) <? MSTOR_NID_MAX)
  else true.

(** What recovery relies on: keys in order, the version record of this
    build, the root node, and well-formed node and chunk keys. *)
Definition store_ok (d : db) : bool :=
  db_sorted d
  && match leveldb_get d [tag_v] with
     | Some v => mstor_parse_version v =? MSTOR_CUR_VERSION
     | None => false
     end
  && match leveldb_get d (node_key MSTOR_ROOT_NID) with
     | Some _ => true
     | None => false
     end
  && forallb (fun e => id_key_ok (fst e)) d.

(** The seek key of a family: its tag and the ceiling. *)
Definition ceiling_key (t : Z) : bytes := t :: pack_to_be64 MSTOR_NID_MAX.

(** The ids the next [k] allocations return; [None] if one aborts. *)
Fixpoint alloc_nids {P : Platform} (k : nat) (m : mstor) : option (list Z) :=
  match k with
  | O => Some []
  | S k' =>
      match mstor_next_nid m with
      | None => None
      | Some (n, m') =>
          match alloc_nids k' m' with
          | None => None
          | Some l => Some (n :: l)
          end
      end
  end.

Fixpoint alloc_cids {P : Platform} (k : nat) (m : mstor) : option (list Z) :=
  match k with
  | O => Some []
  | S k' =>
      match mstor_next_cid m with
      | None => None
      | Some (c, m') =>
          match alloc_cids k' m' with
          | None => None
          | Some l => Some (c :: l)
          end
      end
  end.

(** The stored payload of node [n]; empty when there is none. *)
Definition node_payload (d : db) (n : Z) : bytes :=
  match leveldb_get d (node_key n) with
  | Some pl => pl
  | None => []
  end.

(** The child records of directory [p]. *)
Definition children (d : db) (p : Z) : list entry :=
  filter (fun e => bytes_eqb (firstn 9 (fst e)) (child_prefix p)
                   && (9 <? length (fst e))%nat) d.

(** Projections of an operation's outcome. *)
Definition run_ret (o : option (Z * mstor * reply)) : option Z :=
  match o with Some (r, _, _) => Some r | None => None end.

Definition run_db (o : option (Z * mstor * reply)) : option db :=
  match o with Some (_, m, _) => Some (ldb m) | None => None end.

Definition run_reply (o : option (Z * mstor * reply)) : option reply :=
  match o with Some (_, _, r) => Some r | None => None end.

(** ** Histories on the concrete platform *)

Section Histories.
#[local] Existing Instance linux_x86_64.

(** The store after a request; an aborted request leaves it as it was. *)
Definition after (m : mstor) (r : mreq) : mstor :=
  match mstor_do_operation m r with
  | Some (_, m', _) => m'
  | None => m
  end.

(** A store formatted at time 100. *)
Definition fresh_store : mstor :=
  match mstor_init test_conf test_udata None 100 with
  | inl m => m
  | inr _ => mstor_calloc test_udata
  end.

(** [mkdirs("/a", 0755)] by the superuser. *)
Definition store_a : mstor :=
  after fresh_store (mk_req (MSTOR_OP_MKDIRS 493 100) "/a" "root").

(** [mkdirs("/a/b", 0755)], then [creat("/a/b/f", 0644)], by the superuser. *)
Definition store_abf : mstor :=
  after (after fresh_store (mk_req (MSTOR_OP_MKDIRS 493 100) "/a/b" "root"))
        (mk_req (MSTOR_OP_CREAT 420 200) "/a/b/f" "root").

(** The file of [store_abf]. *)
Definition nid_f : Z := 3.

(** The same history closed and opened again: the counters are recovered. *)
Definition store_reopened : mstor :=
  match mstor_init test_conf test_udata (Some (ldb store_abf)) 300 with
  | inl m => m
  | inr _ => mstor_calloc test_udata
  end.

(** [chunkalloc(f, 0)] on the reopened store. *)
Definition store_chunk0 : mstor :=
  after store_reopened (mk_req (MSTOR_OP_CHUNKALLOC nid_f 0) "" "root").

(** [mkdirs("/p/q", 0)] by the superuser: two directories nobody but the
    superuser can enter. *)
Definition store_private : mstor :=
  after fresh_store (mk_req (MSTOR_OP_MKDIRS 0 100) "/p/q" "root").

(** The file node as [mstor_fetch_node] returns it. *)
Definition node_f : mnode :=
  match mstor_fetch_node store_chunk0 nid_f with
  | Got node => node
  | Failed _ => mnode_zero
  end.

(** A [chunkalloc(f, off)] request of the superuser, after the user
    look-up of [mstor_do_operation]. *)
Definition req_chunkalloc (off : Z) : mreq :=
  set_user (mk_req (MSTOR_OP_CHUNKALLOC nid_f off) "" "root") superuser.

(** The root node of a freshly formatted store. *)
Definition node_root : mnode :=
  match mstor_fetch_node fresh_store MSTOR_ROOT_NID with
  | Got node => node
  | Failed _ => mnode_zero
  end.

(** A path request of [alice], after [mstor_do_path_operation] has set the
    flags: permissions are checked. *)
Definition req_alice (o : mreq_op) (path : string) : mreq :=
  set_flags (set_user (mk_req o path "alice") alice) MREQ_FLAG_CHECK_PERMS.

(** [creat("/r", 0004)] by the superuser: a file that only the callers
    who are neither its owner nor in its group may read. *)
Definition store_r4 : mstor :=
  after fresh_store (mk_req (MSTOR_OP_CREAT 4 100) "/r" "root").

Definition node_r4 : mnode :=
  match mstor_fetch_node store_r4 1 with
  | Got node => node
  | Failed _ => mnode_zero
  end.

(** [creat("/q", 0400)] by [alice]: her own file, which its owner may
    read and nobody may write. *)
Definition store_q400 : mstor :=
  after fresh_store (mk_req (MSTOR_OP_CREAT 256 100) "/q" "alice").

Definition node_q400 : mnode :=
  match mstor_fetch_node store_q400 1 with
  | Got node => node
  | Failed _ => mnode_zero
  end.

End Histories.

(** ** Notions for set-up, creation, lookup and listing *)

(** The version a stored database carries, as [mstor_read_version] reads
    it. *)
Definition stored_version (d : db) : Z :=
  match leveldb_get d [tag_v] with
  | Some v => mstor_parse_version v
  | None => mstor_parse_version []
  end.

(** A name that the child-key buffer holds in full: [mstor_make_node],
    [mstor_fetch_child] and [leveldb_delete_node] then build the same
    key for it, the prefix followed by the bytes of the name. *)
Definition name_fits {P : Platform} (pcomp : string) : Prop :=
  strlen pcomp < RF_PCOMP_MAX.

(** The caller is the superuser or is granted the wanted bits on the
    node. *)
Definition allowed {P : Platform} (pl : bytes) (u : user) (p : Z) : bool :=
  (uid u =? RF_SUPERUSER_UID) || granted pl u p.

(** Every node key and child key of the store carries an id below the
    bound: what the store looks like to a counter that has not been
    reached. *)
Definition ids_below (d : db) (bound : Z) : bool :=
  forallb (fun e =>
             if (hd 0 (fst e) =? tag_n) || (hd 0 (fst e) =? tag_c)
             then unpack_from_be64 (skipn 1 (fst e)) <? bound
             else true) d.

(** The second database holds every record of the first. *)
Definition db_extends (d d' : db) : Prop :=
  forall k v, leveldb_get d k = Some v -> leveldb_get d' k = Some v.

(** The [switch] of [mstor_do_path_operation] behind its loop, as a
    function of where the loop left. *)
Definition dispatch {P : Platform} (w : option walked)
  : option (Z * mstor * reply) :=
  match w with
  | None => None
  | Some (Returned ret m1 r) => Some (ret, m1, r)
  | Some (Reached m1 req pnode cnode pcomp) =>
      match op req with
      | MSTOR_OP_CREAT _ _ => Some (- EEXIST, m1, RNone)
      | MSTOR_OP_OPEN atime => Some (mstor_do_open m1 req atime cnode)
      | MSTOR_OP_CHUNKFIND start end_ max_cinfos =>
          Some (mstor_do_chunkfind m1 req start end_ max_cinfos cnode)
      | MSTOR_OP_MKDIRS _ _ => Some (0, m1, RNone)
      | MSTOR_OP_LISTDIR out_len =>
          Some (mstor_do_listdir m1 req out_len cnode)
      | MSTOR_OP_STAT out_len =>
          Some (mstor_do_stat m1 req out_len pcomp pnode cnode)
      | MSTOR_OP_CHMOD mode => Some (mstor_do_chmod m1 req mode cnode)
      | MSTOR_OP_CHOWN new_user new_group =>
          Some (mstor_do_chown m1 req new_user new_group cnode)
      | MSTOR_OP_UTIMES atime mtime =>
          Some (mstor_do_utimes m1 req atime mtime cnode)
      | MSTOR_OP_RMDIR rmr =>
          Some (mstor_do_rmdir m1 req rmr pcomp cnode pnode)
      | MSTOR_OP_SEQUESTER_TREE => Some (- ENOTSUP, m1, RNone)
      | MSTOR_OP_FIND_SEQUESTERED => Some (- ENOTSUP, m1, RNone)
      | MSTOR_OP_DESTROY_SEQUESTERED => Some (- ENOTSUP, m1, RNone)
      | MSTOR_OP_RENAME => Some (- ENOTSUP, m1, RNone)
      | MSTOR_OP_CHUNKALLOC _ _ => None
      end
  end.

(** The user or group a [chown] names, when it names one: the lookups of
    [mstor_do_chown]. *)
Definition named_user (d : udata) (name : option string)
  : option user + Z :=
  match name with
  | Some s =>
      match udata_lookup_user d s with
      | inl u => inl (Some u)
      | inr e => inr e
      end
  | None => inl None
  end.

Definition named_group (d : udata) (name : option string)
  : option group + Z :=
  match name with
  | Some s =>
      match udata_lookup_group d s with
      | inl g => inl (Some g)
      | inr e => inr e
      end
  | None => inl None
  end.

(** What the code asks of a caller who changes the owner or the group of
    a node with payload [pl]. *)
Definition chown_permitted {P : Platform} (pl : bytes) (u : user)
  (nu : option user) (ng : option group) : bool :=
  (uid u =? RF_SUPERUSER_UID)
  || match nu, ng with
     | Some _, _ => false
     | None, Some g => user_in_gid u (g_gid g) && (payload_uid pl =? uid u)
     | None, None => true
     end.

(** The entry of a [chunkfind] reply that a file-chunk record yields. *)
Definition cinfo_of (e : entry) : chunk_info :=
  {| ci_cid := unpack_from_be64 (snd e);
     ci_start := unpack_from_be64 (skipn 9 (fst e)) |}.

(** The file-chunk records of file [n]: the keys ['f'], the id, and eight
    bytes of offset. *)
Definition file_record (n : Z) (e : entry) : bool :=
  (length (fst e) =? MFILE_KEY_LEN)%nat
  && bytes_eqb (firstn 9 (fst e)) (tag_f :: pack_to_be64 n).

(** Each number below the next. *)
Fixpoint increasing (l : list Z) : bool :=
  match l with
  | [] => true
  | x :: t =>
      match t with
      | [] => true
      | y :: _ => (x <? y) && increasing t
      end
  end.

(** The family a line of the dump speaks of. *)
Definition line_tag (l : dump_line) : Z :=
  match l with
  | CHILD _ _ _ => tag_c
  | FILE _ _ _ => tag_f
  | CHUNK _ _ => tag_h
  | NODE _ _ _ _ _ _ _ => tag_n
  | MSTOR_VERSION _ => tag_v
  end.

(** A stat record carries the name and the fields of the payload. *)
Definition stat_of (s : stat_entry) (name : string) (pl : bytes) : Prop :=
  st_name s = name
  /\ st_mode_and_type s = payload_mode_and_type pl
  /\ st_mtime s = payload_mtime pl
  /\ st_atime s = payload_atime pl
  /\ st_length s = payload_length pl
  /\ st_uid s = payload_uid pl
  /\ st_gid s = payload_gid pl.

(** ** More concrete histories *)

Section MoreHistories.
#[local] Existing Instance linux_x86_64.

(** [mstor_make_node] for a file ["x"] below the root of the fresh
    store. *)
Definition made_x : option (Z * mstor * mnode) :=
  mstor_make_node fresh_store 420 5 5 0 0 "x" node_root.

Definition store_x : mstor :=
  match made_x with
  | Some (_, m, _) => m
  | None => fresh_store
  end.

Definition node_x : mnode :=
  match made_x with
  | Some (_, _, node) => node
  | None => mnode_zero
  end.

(** A database another build has stamped. *)
Definition foreign_db : db := [([tag_v], [70; 105; 115; 104; 0; 0; 0; 2])].

(** The listing of the root of [store_abf]. *)
Definition listing_root : Z * mstor * reply :=
  mstor_do_listdir store_abf (req_alice (MSTOR_OP_LISTDIR 4096) "/") 4096
    node_root.

Definition listed_root : list stat_entry :=
  match listing_root with
  | (_, _, RStat _ out) => out
  | _ => []
  end.

(** The listing of [/a] in [store_abf], as the superuser asks for it. *)
Definition listing_a : option (Z * mstor * reply) :=
  mstor_do_operation store_abf (mk_req (MSTOR_OP_LISTDIR 4096) "/a" "root").

(** The reply to [stat("/a/b/f")] in [store_abf]. *)
Definition stat_f_reply : reply :=
  match mstor_do_operation store_abf
          (mk_req (MSTOR_OP_STAT 4096) "/a/b/f" "root") with
  | Some (_, _, rep) => rep
  | None => RNone
  end.

(** The fresh store with its node counter at the ceiling. *)
Definition full_store : mstor := set_next_nid fresh_store MSTOR_NID_MAX.

(** What [chunkfind] reports for the file of [store_chunk0]. *)
Definition chunks0 : list chunk_info :=
  snd (mstor_chunkfind_impl store_chunk0 nid_f 4 0 10).

(** The dump of [store_chunk0]. *)
Definition dumped : list dump_line := snd (mstor_dump store_chunk0).

End MoreHistories.

(** * Theorems *)

(** ** Replication levels *)

Section ReplFacts.
Context {P : Platform}.

Lemma get_valid_repl_zero (def : Z) : get_valid_repl 0 def = def.
Proof.
  unfold get_valid_repl.
  destruct (0 =? JORM_INVAL_INT); reflexivity.
Qed.

Lemma leveldb_init_repl (u : udata) (conf : mstorc) (disk : option db)
  (m : mstor) :
  mstor_leveldb_init (mstor_calloc u) conf disk = (0, m) ->
  min_repl m = MSTOR_DEFAULT_MIN_REPL /\ man_repl m = MSTOR_DEFAULT_MAN_REPL.
Proof.
  unfold mstor_leveldb_init.
  destruct disk as [d|]; [|destruct (negb (mstor_create conf =? 0))];
    intros H; inversion H; subst; clear H; cbn [min_repl man_repl set_ldb
      mstor_calloc]; rewrite !get_valid_repl_zero; auto.
Qed.

(** C7: whatever the configuration record holds, a store that opens has
    the default replication levels 2 and 3: [mstor_leveldb_init] validates
    the zeroed fields of the new store object, not the configured values. *)
Theorem init_ignores_configured_repl (conf : mstorc) (u : udata)
  (disk : option db) (t : Z) (m : mstor) :
  mstor_init conf u disk t = inl m ->
  min_repl m = 2 /\ man_repl m = 3.
Proof.
  unfold mstor_init.
  destruct (mstor_leveldb_init (mstor_calloc u) conf disk) as [ret m0] eqn:E.
  destruct (ret =? 0) eqn:Er; cbn [negb]; [|discriminate].
  apply Z.eqb_eq in Er; subst ret.
  apply leveldb_init_repl in E. destruct E as [E1 E2].
  destruct (mstor_leveldb_is_empty m0 <? 0); [discriminate|].
  destruct (mstor_leveldb_is_empty m0 =? 1).
  - unfold mstor_leveldb_create_new, mstor_write_version.
    cbn [negb Z.eqb]. intros H; inversion H; subst; clear H.
    cbn [min_repl man_repl set_ldb set_next_nid]. auto.
  - unfold mstor_leveldb_load.
    destruct (mstor_read_version m0 =? MSTOR_VERSION_INVAL);
      [cbn; discriminate|].
    destruct (negb (mstor_read_version m0 =? MSTOR_CUR_VERSION));
      [cbn; discriminate|].
    destruct (mstor_load_next_nid (ldb m0)) as [e|nn].
    + destruct (negb (e =? 0)); [discriminate|].
      intros H; inversion H; subst; auto.
    + cbn [set_next_nid ldb].
      destruct (mstor_load_next_cid (ldb m0)) as [e|nc].
      * destruct (negb (e =? 0)); [discriminate|].
        intros H; inversion H; subst; auto.
      * cbn [negb Z.eqb]. intros H; inversion H; subst; auto.
Qed.

End ReplFacts.

Section ReplExamples.
#[local] Existing Instance linux_x86_64.

Lemma init_ignores_configured_repl_witness :
  c_man_repl test_conf = 5 /\
  mstor_init test_conf test_udata None 100 = inl fresh_store /\
  min_repl fresh_store = 2 /\ man_repl fresh_store = 3.
Proof.
  split; [reflexivity|]. split; [reflexivity|].
  apply (init_ignores_configured_repl test_conf test_udata None 100).
  reflexivity.
Defined.

End ReplExamples.

(** ** The key order and the engine *)

Module LeveldbFacts.

Lemma key_compare_refl (k : bytes) : key_compare k k = Eq.
Proof.
  induction k as [|x k IH]; cbn; [reflexivity|].
  rewrite Z.compare_refl. exact IH.
Qed.

Lemma key_compare_eq (a b : bytes) : key_compare a b = Eq -> a = b.
Proof.
  revert b; induction a as [|x a IH]; intros [|y b]; cbn; try discriminate;
    [reflexivity|].
  destruct (x ?= y) eqn:E; try discriminate.
  apply Z.compare_eq in E. intros H. f_equal; auto.
Qed.

Lemma key_compare_antisym (a b : bytes) :
  key_compare b a = CompOpp (key_compare a b).
Proof.
  revert b; induction a as [|x a IH]; intros [|y b]; cbn; try reflexivity.
  rewrite (Z.compare_antisym x y).
  destruct (x ?= y); cbn; auto.
Qed.

Lemma key_compare_lt_trans (a b c : bytes) :
  key_compare a b = Lt -> key_compare b c = Lt -> key_compare a c = Lt.
Proof.
  revert b c; induction a as [|x a IH]; intros [|y b] [|z c]; cbn;
    try discriminate; try reflexivity.
  destruct (x ?= y) eqn:Exy; try discriminate;
    destruct (y ?= z) eqn:Eyz; try discriminate.
  - apply Z.compare_eq in Exy, Eyz. subst. rewrite Z.compare_refl. apply IH.
  - apply Z.compare_eq in Exy. subst. rewrite Eyz. reflexivity.
  - apply Z.compare_eq in Eyz. subst. rewrite Exy. reflexivity.
  - intros _ _. rewrite Z.compare_lt_iff in Exy, Eyz.
    assert (E : (x ?= z) = Lt) by (apply Z.compare_lt_iff; lia).
    rewrite E. reflexivity.
Qed.

Lemma key_compare_gt_lt (a b : bytes) :
  key_compare a b = Gt <-> key_compare b a = Lt.
Proof.
  rewrite (key_compare_antisym a b).
  destruct (key_compare a b); cbn; split; congruence.
Qed.

Lemma key_ltb_lt (a b : bytes) : key_ltb a b = true <-> key_compare a b = Lt.
Proof.
  unfold key_ltb. destruct (key_compare a b); split; congruence.
Qed.

Lemma key_ltb_irrefl (a : bytes) : key_ltb a a = false.
Proof. unfold key_ltb. rewrite key_compare_refl. reflexivity. Qed.

Lemma key_ltb_trans (a b c : bytes) :
  key_ltb a b = true -> key_ltb b c = true -> key_ltb a c = true.
Proof.
  rewrite !key_ltb_lt. apply key_compare_lt_trans.
Qed.

(** A key not below [b] and a key below it. *)
Lemma key_ltb_le_trans (a b c : bytes) :
  key_ltb a b = true -> key_ltb c b = false -> key_ltb a c = true.
Proof.
  rewrite !key_ltb_lt. intros Hab Hcb.
  unfold key_ltb in Hcb.
  destruct (key_compare c b) eqn:E; try discriminate.
  - apply key_compare_eq in E. subst. exact Hab.
  - apply key_compare_gt_lt in E. eapply key_compare_lt_trans; eauto.
Qed.

Lemma get_put_same (d : db) (k v : bytes) :
  leveldb_get (leveldb_put d k v) k = Some v.
Proof.
  induction d as [|[k0 v0] d IH]; cbn.
  - rewrite key_compare_refl. reflexivity.
  - destruct (key_compare k k0) eqn:E; cbn.
    + rewrite key_compare_refl. reflexivity.
    + rewrite key_compare_refl. reflexivity.
    + rewrite E. exact IH.
Qed.

Lemma get_put_other (d : db) (k k' v : bytes) :
  k <> k' -> leveldb_get (leveldb_put d k v) k' = leveldb_get d k'.
Proof.
  intros Hne. induction d as [|[k0 v0] d IH]; cbn.
  - destruct (key_compare k' k) eqn:E; auto.
    apply key_compare_eq in E. congruence.
  - destruct (key_compare k k0) eqn:E; cbn.
    + apply key_compare_eq in E. subst k0.
      destruct (key_compare k' k) eqn:E'; auto.
      apply key_compare_eq in E'. congruence.
    + destruct (key_compare k' k) eqn:E'.
      * apply key_compare_eq in E'. congruence.
      * rewrite (key_compare_lt_trans _ _ _ E' E). reflexivity.
      * reflexivity.
    + destruct (key_compare k' k0); auto.
Qed.

(** The records of a sorted store split by a key: those below it, nearest
    first, and those at or past it. *)
Lemma seek_from_spec (k : bytes) (after before : list entry) :
  exists lo,
    seek_from k before after
      = Iter (rev lo ++ before) (skipn (length lo) after)
    /\ after = lo ++ skipn (length lo) after
    /\ (forall e, In e lo -> key_ltb (fst e) k = true)
    /\ (match skipn (length lo) after with
        | [] => True
        | e :: _ => key_ltb (fst e) k = false
        end).
Proof.
  revert before; induction after as [|e rest IH]; intros before; cbn.
  - exists []. cbn. auto.
  - destruct (key_ltb (fst e) k) eqn:E.
    + destruct (IH (e :: before)) as (lo & H1 & H2 & H3 & H4).
      exists (e :: lo). cbn. rewrite H1. rewrite <- app_assoc. cbn.
      repeat split; auto.
      * f_equal. exact H2.
      * intros e' [-> | Hin]; auto.
    + exists []. cbn. rewrite E. auto.
Qed.

Lemma db_sorted_tail (e : entry) (d : db) :
  db_sorted (e :: d) = true -> db_sorted d = true.
Proof.
  cbn. destruct d; [reflexivity|].
  intros H. apply andb_true_iff in H. tauto.
Qed.

Lemma db_sorted_head_lt (e : entry) (d : db) :
  db_sorted (e :: d) = true ->
  forall e', In e' d -> key_ltb (fst e) (fst e') = true.
Proof.
  revert e; induction d as [|e0 d IH]; intros e Hs e' Hin; [destruct Hin|].
  cbn in Hs. apply andb_true_iff in Hs. destruct Hs as [H1 H2].
  destruct Hin as [-> | Hin]; [exact H1|].
  eapply key_ltb_trans; [exact H1|]. apply IH; auto.
Qed.

Lemma db_sorted_app (d1 d2 : db) :
  db_sorted (d1 ++ d2) = true ->
  db_sorted d1 = true /\ db_sorted d2 = true /\
  forall e1 e2, In e1 d1 -> In e2 d2 -> key_ltb (fst e1) (fst e2) = true.
Proof.
  induction d1 as [|e d1 IH]; intros Hs.
  - cbn in *. repeat split; auto; intros ? ? [].
  - change ((e :: d1) ++ d2) with (e :: (d1 ++ d2)) in Hs.
    pose proof (db_sorted_head_lt _ _ Hs) as Hlt.
    apply db_sorted_tail in Hs. destruct (IH Hs) as (S1 & S2 & S3).
    repeat split; auto.
    + cbn. destruct d1 as [|e' d1']; [reflexivity|].
      apply andb_true_iff. split; [|exact S1].
      apply Hlt. cbn. auto.
    + intros e1 e2 [-> | H1] H2.
      * apply Hlt. apply in_or_app. auto.
      * apply S3; auto.
Qed.

(** In a sorted store a lookup finds exactly the records that are there. *)
Lemma get_In (d : db) (k v : bytes) :
  db_sorted d = true -> In (k, v) d -> leveldb_get d k = Some v.
Proof.
  induction d as [|[k0 v0] d IH]; intros Hs Hin; [destruct Hin|].
  cbn. destruct Hin as [Heq|Hin].
  - inversion Heq; subst. rewrite key_compare_refl. reflexivity.
  - pose proof (db_sorted_head_lt _ _ Hs _ Hin) as Hlt. cbn in Hlt.
    apply key_ltb_lt in Hlt. apply key_compare_gt_lt in Hlt.
    rewrite Hlt. apply IH; auto. eapply db_sorted_tail; eauto.
Qed.

Lemma get_Some_In (d : db) (k v : bytes) :
  leveldb_get d k = Some v -> In (k, v) d.
Proof.
  induction d as [|[k0 v0] d IH]; cbn; [discriminate|].
  destruct (key_compare k k0) eqn:E; try discriminate.
  - apply key_compare_eq in E. subst. intros H; inversion H; auto.
  - auto.
Qed.

End LeveldbFacts.
Import LeveldbFacts.

(** ** Chunk lookup and allocation *)

Section ChunkFacts.
Context {P : Platform}.

(** With room for one entry the loop leaves before it stores anything. *)
Lemma chunkfind_loop_capacity_one (pfx : bytes) (end_ : Z) (rest : list entry)
  (base : Z) (v : bytes) :
  chunkfind_loop pfx 1 end_ rest base v [] = (0, []).
Proof. destruct rest; reflexivity. Qed.

Lemma chunkfind_impl_capacity_one (m : mstor) (n start end_ : Z) :
  mstor_chunkfind_impl m n 1 start end_ = (0, []).
Proof.
  unfold mstor_chunkfind_impl.
  repeat match goal with
         | |- context [if ?c then _ else _] => destruct c; try reflexivity
         end.
  apply chunkfind_loop_capacity_one.
Qed.

(** The loop never fills the last slot of the array. *)
Lemma chunkfind_loop_bound (pfx : bytes) (max_cinfos end_ : Z)
  (rest : list entry) :
  forall (base : Z) (v : bytes) (cinfos : list chunk_info),
    Z.of_nat (length cinfos) + 1 <= Z.max max_cinfos 1 ->
    fst (chunkfind_loop pfx max_cinfos end_ rest base v cinfos) + 1
      <= Z.max max_cinfos 1.
Proof.
  induction rest as [|[k v'] rest IH]; intros base v cinfos Hlen;
    cbn [chunkfind_loop];
    destruct (Z.of_nat (length cinfos) + 1 >=? max_cinfos) eqn:E;
    try (cbn [fst]; lia);
    (destruct (negb (length v =? 8)%nat); [cbn [fst]; unfold EIO; lia|]);
    rewrite Z.geb_leb in E; apply Z.leb_gt in E;
    assert (Hl : Z.of_nat (length (cinfos ++
               [{| ci_cid := unpack_from_be64 v; ci_start := base |}])) + 1
                 <= Z.max max_cinfos 1)
      by (rewrite length_app; cbn [length]; lia).
  - cbn [fst]. lia.
  - destruct (negb (length k =? MFILE_KEY_LEN)%nat
              || negb (bytes_eqb (firstn 9 k) pfx)); [cbn [fst]; lia|].
    destruct (unpack_from_be64 (skipn 9 k) >? end_); [cbn [fst]; lia|].
    apply IH. exact Hl.
Qed.

(** C5: the number of chunks [chunkfind] returns is at most
    [max_cinfos - 1]: the loop leaves when [num_cinfos + 1 >= max_cinfos],
    one entry short of the capacity of the caller's array. *)
Theorem chunkfind_leaves_one_slot_unused (m : mstor) (n max_cinfos start
  end_ : Z) :
  1 <= max_cinfos ->
  fst (mstor_chunkfind_impl m n max_cinfos start end_) <= max_cinfos - 1.
Proof.
  intros Hmax. unfold mstor_chunkfind_impl.
  destruct (negb (leveldb_iter_valid _)); [cbn; lia|].
  destruct (_ || _); [cbn; lia|].
  match goal with
  | |- fst (chunkfind_loop ?p ?mx ?e ?r ?b ?v []) <= _ =>
      pose proof (chunkfind_loop_bound p mx e r b v []) as H
  end.
  cbn [length] in H. lia.
Qed.

(** On a file the caller may write, the allocation goes through whatever
    file-chunk records the store holds: the probe with room for one entry
    reports nothing. *)
Lemma chunkalloc_goes_through (m : mstor) (req : mreq) (n off : Z)
  (node : mnode) :
  mstor_fetch_node m n = Got node ->
  mstor_mode_check node req MSTOR_PERM_WRITE = 0 ->
  next_cid m <= MSTOR_CID_MAX ->
  mstor_do_chunkalloc m req n off =
    Some (0,
          set_ldb (set_next_cid m ((next_cid m + 1) mod two64))
            (leveldb_write (ldb m)
               [BPut (file_key n off) (host_bytes host_order 8 (next_cid m));
                BPut (chunk_key (next_cid m))
                  (host_bytes host_order 4 123 ++ host_bytes host_order 4 456)]),
          RAlloc (next_cid m) [123; 456]).
Proof.
  intros Hf Hm Hc. unfold mstor_do_chunkalloc.
  rewrite Hf, Hm. cbn [negb Z.eqb].
  rewrite chunkfind_impl_capacity_one. cbn [Z.ltb Z.compare negb Z.eqb].
  unfold mstor_next_cid.
  replace (next_cid m >? MSTOR_NID_MAX) with false
    by (symmetry; unfold MSTOR_CID_MAX, MSTOR_NID_MAX in *;
        rewrite Z.gtb_ltb; apply Z.ltb_ge; lia).
  unfold mstor_assign_oid. cbn [Z.ltb Z.compare].
  change (Z.to_nat 2) with 2%nat. cbn [firstn map concat set_next_cid ldb].
  rewrite app_nil_r. reflexivity.
Qed.

(** C4: the test of [mstor_do_chunkalloc] for a chunk that already covers
    the offset never fires.  When the store already holds a file-chunk
    record for [(nid, off)], [chunkalloc(nid, off)] on a file the caller
    may write still returns 0, allocates a new chunk id, and its batched
    write replaces the value of that record and adds the replica record of
    the new chunk. *)
Theorem chunkalloc_never_rejects_existing_chunk (m : mstor) (req : mreq)
  (n off : Z) (node : mnode) (old : bytes) :
  mstor_fetch_node m n = Got node ->
  mstor_mode_check node req MSTOR_PERM_WRITE = 0 ->
  next_cid m <= MSTOR_CID_MAX ->
  leveldb_get (ldb m) (file_key n off) = Some old ->
  exists m',
    mstor_do_chunkalloc m req n off
      = Some (0, m', RAlloc (next_cid m) [123; 456])
    /\ leveldb_get (ldb m') (file_key n off)
       = Some (host_bytes host_order 8 (next_cid m))
    /\ leveldb_get (ldb m') (chunk_key (next_cid m))
       = Some (host_bytes host_order 4 123 ++ host_bytes host_order 4 456).
Proof.
  intros Hf Hm Hc _.
  rewrite (chunkalloc_goes_through m req n off node Hf Hm Hc).
  eexists. split; [reflexivity|].
  cbn [ldb set_ldb leveldb_write fold_left apply_op]. split.
  - rewrite get_put_other
      by (unfold chunk_key, file_key, tag_h, tag_f; congruence).
    apply get_put_same.
  - apply get_put_same.
Qed.

(** The value of the file-chunk record a successful [chunkalloc] leaves
    is the object representation of the chunk id on the host. *)
Lemma chunkalloc_stores_host_order (m : mstor) (req : mreq) (n off : Z)
  (node : mnode) :
  mstor_fetch_node m n = Got node ->
  mstor_mode_check node req MSTOR_PERM_WRITE = 0 ->
  next_cid m <= MSTOR_CID_MAX ->
  exists m',
    mstor_do_chunkalloc m req n off = Some (0, m', RAlloc (next_cid m) [123; 456])
    /\ leveldb_get (ldb m') (file_key n off)
       = Some (host_bytes host_order 8 (next_cid m)).
Proof.
  intros Hf Hm Hc.
  rewrite (chunkalloc_goes_through m req n off node Hf Hm Hc).
  eexists. split; [reflexivity|].
  cbn [ldb set_ldb leveldb_write fold_left apply_op].
  rewrite get_put_other by (unfold chunk_key, file_key, tag_h, tag_f; congruence).
  apply get_put_same.
Qed.

End ChunkFacts.

Section ChunkExamples.
#[local] Existing Instance linux_x86_64.

Lemma chunkfind_leaves_one_slot_unused_witness :
  1 <= 1 /\ fst (mstor_chunkfind_impl store_chunk0 nid_f 1 0 0) <= 1 - 1.
Proof.
  split; [lia|].
  apply (chunkfind_leaves_one_slot_unused store_chunk0 nid_f 1 0 0). lia.
Defined.

(** The file of [store_chunk0] has one chunk, at offset 0.  A caller whose
    array holds one entry is told there is none; a caller whose array holds
    two gets it. *)
Example chunkfind_capacity_equal_to_count :
  run_reply (mstor_do_operation store_chunk0
               (mk_req (MSTOR_OP_CHUNKFIND 0 0 1) "/a/b/f" "root"))
    = Some (RChunks 0 [])
  /\ option_map (fun r => match r with
                          | RChunks num _ => num
                          | _ => -1
                          end)
       (run_reply (mstor_do_operation store_chunk0
                     (mk_req (MSTOR_OP_CHUNKFIND 0 0 2) "/a/b/f" "root")))
     = Some 1.
Proof. split; vm_compute; reflexivity. Qed.

Lemma chunkalloc_never_rejects_existing_chunk_witness :
  leveldb_get (ldb store_chunk0) (file_key nid_f 0)
    = Some (host_bytes host_order 8 1)
  /\ exists m',
       mstor_do_chunkalloc store_chunk0 (req_chunkalloc 0) nid_f 0
         = Some (0, m', RAlloc 2 [123; 456])
       /\ leveldb_get (ldb m') (file_key nid_f 0)
          = Some (host_bytes host_order 8 2).
Proof.
  split; [vm_compute; reflexivity|].
  destruct (chunkalloc_never_rejects_existing_chunk store_chunk0
              (req_chunkalloc 0) nid_f 0 node_f (host_bytes host_order 8 1))
    as (m' & H1 & H2 & _).
  - vm_compute; reflexivity.
  - vm_compute; reflexivity.
  - vm_compute; discriminate.
  - vm_compute; reflexivity.
  - exists m'. split; [exact H1|exact H2].
Defined.

(** The scenario of the spec: after a successful [chunkalloc(f, 0)] a
    second [chunkalloc(f, 0)] also succeeds and replaces the file-chunk
    record of offset 0 by one for a new chunk. *)
Example second_chunkalloc_at_same_offset :
  run_ret (mstor_do_operation store_reopened
             (mk_req (MSTOR_OP_CHUNKALLOC nid_f 0) "" "root")) = Some 0
  /\ run_ret (mstor_do_operation store_chunk0
                (mk_req (MSTOR_OP_CHUNKALLOC nid_f 0) "" "root")) = Some 0
  /\ leveldb_get (ldb store_chunk0) (file_key nid_f 0)
     = Some (host_bytes host_order 8 1)
  /\ option_map (fun d => leveldb_get d (file_key nid_f 0))
       (run_db (mstor_do_operation store_chunk0
                  (mk_req (MSTOR_OP_CHUNKALLOC nid_f 0) "" "root")))
     = Some (Some (host_bytes host_order 8 2)).
Proof. repeat split; vm_compute; reflexivity. Qed.

(** C6: on a little-endian host the chunk id that [chunkalloc] returns is
    not the one [chunkfind] and the dumper report for the same record: the
    value of the file-chunk record is the object representation of [cid],
    and both readers decode it big-endian. *)
Theorem chunkalloc_cid_not_read_back :
  run_reply (mstor_do_operation store_reopened
               (mk_req (MSTOR_OP_CHUNKALLOC nid_f 0) "" "root"))
    = Some (RAlloc 1 [123; 456])
  /\ run_reply (mstor_do_operation store_chunk0
                  (mk_req (MSTOR_OP_CHUNKFIND 0 0 2) "/a/b/f" "root"))
     = Some (RChunks 1 [{| ci_cid := 72057594037927936; ci_start := 0 |}])
  /\ In (FILE nid_f 0 72057594037927936) (snd (mstor_dump store_chunk0))
  /\ 72057594037927936 <> 1.
Proof.
  split; [vm_compute; reflexivity|].
  split; [vm_compute; reflexivity|].
  split; [|discriminate].
  vm_compute. tauto.
Qed.

End ChunkExamples.

(** ** The permission check *)

Module ModeFacts.

Lemma small_cases (p : Z) :
  0 <= p < 8 ->
  p = 0 \/ p = 1 \/ p = 2 \/ p = 3 \/ p = 4 \/ p = 5 \/ p = 6 \/ p = 7.
Proof. lia. Qed.

(** The directory flag of [want] is the flag that was or-ed in. *)
Lemma want_is_dir (p : Z) (isdir : bool) :
  0 <= p < 8 ->
  (Z.land (Z.lor p (if isdir then MNODE_IS_DIR else 0)) MNODE_IS_DIR =? 0)
    = negb isdir.
Proof.
  intros H. apply small_cases in H.
  destruct isdir; repeat (destruct H as [-> | H]); subst; reflexivity.
Qed.

(** Clearing the flag leaves the permission bits. *)
Lemma want_perm_bits (p : Z) (isdir : bool) :
  0 <= p < 8 ->
  Z.land (Z.lor p (if isdir then MNODE_IS_DIR else 0)) (Z.lnot MNODE_IS_DIR)
    = p.
Proof.
  intros H. apply small_cases in H.
  destruct isdir; repeat (destruct H as [-> | H]); subst; reflexivity.
Qed.

Lemma shifted_small (p s : Z) :
  0 <= p < 8 -> s = 0 \/ s = 3 \/ s = 6 -> 0 <= Z.shiftl p s < 2 ^ 9.
Proof.
  intros H Hs. apply small_cases in H.
  destruct Hs as [-> | [-> | ->]]; repeat (destruct H as [-> | H]); subst;
    cbn; lia.
Qed.

(** Bits below the ninth do not see the directory flag or the cut to 16
    bits. *)
Lemma land_low_bits (q mode : Z) :
  0 <= q < 2 ^ 9 ->
  Z.land q ((Z.land mode (Z.lnot MNODE_IS_DIR)) mod two16) = Z.land q mode.
Proof.
  intros Hq. apply Z.bits_inj'. intros n Hn.
  rewrite !Z.land_spec.
  destruct (Z.lt_ge_cases n 9) as [Hlt|Hge].
  - unfold two16. rewrite Z.mod_pow2_bits_low by lia.
    rewrite Z.land_spec, Z.lnot_spec by lia.
    change MNODE_IS_DIR with (2 ^ 15).
    rewrite Z.pow2_bits_eqb by lia.
    replace (15 =? n) with false by (symmetry; apply Z.eqb_neq; lia).
    cbn [negb]. rewrite andb_true_r. reflexivity.
  - rewrite <- (Z.mod_small q (2 ^ 9)) by lia.
    rewrite Z.mod_pow2_bits_high by lia. reflexivity.
Qed.

Section WithPlatform.
Context {P : Platform}.

(** What [mstor_mode_check] computes, by cases. *)
Lemma mode_check_spec (node : mnode) (req : mreq) (p : Z) (isdir : bool) :
  0 <= p < 8 ->
  mstor_mode_check node req (Z.lor p (if isdir then MNODE_IS_DIR else 0)) =
    if isdir && negb (node_is_dir (hdr node)) then - ENOTDIR
    else if negb isdir && node_is_dir (hdr node) then - EISDIR
    else if negb (check_perms req) then 0
    else if granted (hdr node) (ruser req) p then 0
    else - EPERM.
Proof.
  intros Hp. unfold mstor_mode_check.
  rewrite (want_is_dir p isdir Hp), (want_perm_bits p isdir Hp).
  unfold node_is_dir, check_perms, granted, perm_at, payload_mode_and_type,
    payload_uid, payload_gid.
  set (mode := unpack_from_be16 (skipn off_mode_and_type (hdr node))).
  rewrite !negb_involutive.
  rewrite (land_low_bits (Z.shiftl p 6) mode) by (apply shifted_small; auto).
  rewrite (land_low_bits (Z.shiftl p 3) mode) by (apply shifted_small; auto).
  rewrite Z.shiftl_0_r.
  rewrite (land_low_bits p mode) by lia.
  destruct isdir; cbn [negb andb];
    destruct (Z.land mode MNODE_IS_DIR =? 0); cbn [negb andb];
    try reflexivity;
    destruct (Z.land (flags req) MREQ_FLAG_CHECK_PERMS =? 0); cbn [negb];
    try reflexivity;
    destruct (Z.land (Z.shiftl p 6) mode =? 0); cbn [negb orb];
    try reflexivity;
    destruct ((unpack_from_be32 (skipn off_uid (hdr node))
               =? uid (ruser req))
              && negb (Z.land p mode =? 0));
    cbn [orb]; try reflexivity;
    destruct (user_in_gid (ruser req)
                (unpack_from_be32 (skipn off_gid (hdr node)))
              && negb (Z.land (Z.shiftl p 3) mode =? 0));
    reflexivity.
Qed.

End WithPlatform.
End ModeFacts.
Import ModeFacts.

(** ** Packing *)

Module PackedFacts.

Lemma pack_to_be_length (n : nat) (x : Z) : length (pack_to_be n x) = n.
Proof. induction n as [|n IH]; cbn; [reflexivity|]. rewrite IH. reflexivity. Qed.

Lemma unpack_acc_pack (n : nat) (x acc : Z) (rest : bytes) :
  unpack_acc acc (pack_to_be n x ++ rest)
    = unpack_acc (acc * 256 ^ Z.of_nat n + x mod 256 ^ Z.of_nat n) rest.
Proof.
  revert acc; induction n as [|n IH]; intros acc.
  - cbn [pack_to_be app]. change (256 ^ Z.of_nat 0) with 1.
    rewrite Z.mod_1_r. f_equal. lia.
  - cbn [pack_to_be app unpack_acc]. rewrite IH. f_equal.
    rewrite Nat2Z.inj_succ, Z.pow_succ_r by lia.
    assert (Hpos : 0 < 256 ^ Z.of_nat n) by (apply Z.pow_pos_nonneg; lia).
    rewrite (Z.mul_comm 256 (256 ^ Z.of_nat n)).
    rewrite (Z.rem_mul_r x (256 ^ Z.of_nat n) 256) by lia.
    lia.
Qed.

(** Reading back what was packed gives the value cut to the width. *)
Lemma unpack_pack (n : nat) (x : Z) (rest : bytes) :
  unpack_from_be n (pack_to_be n x ++ rest) = x mod 256 ^ Z.of_nat n.
Proof.
  unfold unpack_from_be.
  rewrite firstn_app, pack_to_be_length, Nat.sub_diag, firstn_O, app_nil_r.
  rewrite firstn_all2 by (rewrite pack_to_be_length; lia).
  rewrite <- (app_nil_r (pack_to_be n x)), unpack_acc_pack. cbn. reflexivity.
Qed.

Lemma unpack_pack64 (x : Z) (rest : bytes) :
  0 <= x < two64 -> unpack_from_be64 (pack_to_be64 x ++ rest) = x.
Proof.
  intros H. unfold unpack_from_be64, pack_to_be64. rewrite unpack_pack.
  apply Z.mod_small. exact H.
Qed.

Lemma unpack_acc_shift (l : bytes) (acc : Z) :
  unpack_acc acc l = acc * 256 ^ Z.of_nat (length l) + unpack_acc 0 l.
Proof.
  revert acc; induction l as [|b l IH]; intros acc.
  - cbn. lia.
  - cbn [unpack_acc length]. rewrite (IH (acc * 256 + b)), (IH (0 * 256 + b)).
    rewrite Nat2Z.inj_succ, Z.pow_succ_r by lia. lia.
Qed.

Lemma unpack_acc_bound (l : bytes) :
  forallb byte_ok l = true -> 0 <= unpack_acc 0 l < 256 ^ Z.of_nat (length l).
Proof.
  induction l as [|b l IH]; intros H.
  - cbn. lia.
  - cbn [forallb] in H. apply andb_true_iff in H. destruct H as [Hb Hl].
    unfold byte_ok in Hb. apply andb_true_iff in Hb.
    destruct Hb as [Hb1 Hb2]. apply Z.leb_le in Hb1. apply Z.ltb_lt in Hb2.
    specialize (IH Hl). cbn [unpack_acc length].
    rewrite unpack_acc_shift. rewrite Nat2Z.inj_succ, Z.pow_succ_r by lia.
    nia.
Qed.

(** On byte strings of one length the key order is the numeric order of
    the big-endian values. *)
Lemma key_compare_unpack (a b : bytes) :
  length a = length b ->
  forallb byte_ok a = true -> forallb byte_ok b = true ->
  key_compare a b = (unpack_acc 0 a ?= unpack_acc 0 b).
Proof.
  revert b; induction a as [|x a IH]; intros [|y b] Hlen Ha Hb;
    try discriminate; [reflexivity|].
  cbn [forallb] in Ha, Hb.
  apply andb_true_iff in Ha, Hb. destruct Ha as [Hx Ha], Hb as [Hy Hb].
  injection Hlen as Hlen.
  pose proof (unpack_acc_bound a Ha) as Ba.
  pose proof (unpack_acc_bound b Hb) as Bb.
  cbn [key_compare unpack_acc].
  rewrite (unpack_acc_shift a), (unpack_acc_shift b), <- Hlen.
  rewrite <- Hlen in Bb.
  assert (Hpos : 0 < 256 ^ Z.of_nat (length a)) by (apply Z.pow_pos_nonneg; lia).
  destruct (x ?= y) eqn:E.
  - apply Z.compare_eq in E. subst y. rewrite (IH b Hlen Ha Hb).
    destruct (unpack_acc 0 a ?= unpack_acc 0 b) eqn:E2; symmetry.
    + apply Z.compare_eq in E2. apply Z.compare_eq_iff. lia.
    + rewrite Z.compare_lt_iff in *. lia.
    + rewrite Z.compare_gt_iff in *. lia.
  - symmetry. rewrite Z.compare_lt_iff in *. nia.
  - symmetry. rewrite Z.compare_gt_iff in *. nia.
Qed.

End PackedFacts.
Import PackedFacts.

(** ** The path walker *)

Section WalkFacts.
Context {P : Platform}.

Lemma fetch_node_get (m : mstor) (n : Z) (pl : bytes) :
  leveldb_get (ldb m) (node_key n) = Some pl ->
  length pl = sizeof_mnode_payload ->
  mstor_fetch_node m n = Got {| nid := n; val := Some pl |}.
Proof.
  intros Hg Hl. unfold mstor_fetch_node. rewrite Hg, Hl.
  rewrite Nat.eqb_refl. reflexivity.
Qed.

(** A directory the caller may enter passes the check of
    [mstor_fetch_child]. *)
Lemma mode_check_enter (n : Z) (pl : bytes) (req : mreq) :
  check_perms req = negb (uid (ruser req) =? RF_SUPERUSER_UID) ->
  node_is_dir pl = true ->
  (uid (ruser req) =? RF_SUPERUSER_UID)
    || granted pl (ruser req) MSTOR_PERM_EXEC = true ->
  mstor_mode_check {| nid := n; val := Some pl |} req
    (Z.lor MSTOR_PERM_EXEC MNODE_IS_DIR) = 0.
Proof.
  intros Hc Hd Hg.
  change (Z.lor MSTOR_PERM_EXEC MNODE_IS_DIR)
    with (Z.lor 1 (if true then MNODE_IS_DIR else 0)).
  rewrite mode_check_spec by lia. cbn [hdr val].
  rewrite Hd, Hc. cbn [negb andb]. rewrite negb_involutive.
  destruct (uid (ruser req) =? RF_SUPERUSER_UID); [reflexivity|].
  cbn [orb] in Hg. unfold MSTOR_PERM_EXEC in Hg. rewrite Hg. reflexivity.
Qed.

(** When the caller can traverse the components, the loop visits them all
    without a write and leaves with the node they name; past the first
    component, the parent it holds is a fetched node with an entry for the
    last component. *)
Lemma walk_traverse (comps : list string) :
  forall (m : mstor) (req : mreq) (pnode : mnode) (n : Z) (pl : bytes)
         (pcomp : string) (n' : Z),
    leveldb_get (ldb m) (node_key n) = Some pl ->
    length pl = sizeof_mnode_payload ->
    check_perms req = negb (uid (ruser req) =? RF_SUPERUSER_UID) ->
    traverse (ldb m) (ruser req) n comps = Some n' ->
    exists pnode' pl' pcomp',
      walk m req pnode {| nid := n; val := Some pl |} pcomp comps
        = Some (Reached m req pnode' {| nid := n'; val := Some pl' |} pcomp')
      /\ leveldb_get (ldb m) (node_key n') = Some pl'
      /\ length pl' = sizeof_mnode_payload
      /\ (comps = [] -> pnode' = pnode /\ pcomp' = pcomp)
      /\ (comps <> [] ->
          exists ppl v,
            val pnode' = Some ppl
            /\ leveldb_get (ldb m) (child_key (nid pnode') pcomp') = Some v
            /\ (0 <= n < two64 -> db_bytes (ldb m) = true ->
                0 <= nid pnode' < two64)).
Proof.
  induction comps as [|c rest IH]; intros m req pnode n pl pcomp n' Hg Hl Hc Ht.
  - cbn in Ht. inversion Ht; subst. exists pnode, pl, pcomp. cbn.
    repeat split; auto. congruence.
  - cbn [traverse] in Ht. rewrite Hg in Ht.
    destruct ((length pl =? sizeof_mnode_payload)%nat && node_is_dir pl
              && ((uid (ruser req) =? RF_SUPERUSER_UID)
                  || granted pl (ruser req) MSTOR_PERM_EXEC)) eqn:Econd;
      [|discriminate].
    apply andb_true_iff in Econd. destruct Econd as [Econd Hgr].
    apply andb_true_iff in Econd. destruct Econd as [_ Hdir].
    destruct (leveldb_get (ldb m) (child_key n c)) as [v|] eqn:Ev;
      [|discriminate].
    destruct (length v =? 8)%nat eqn:Elv; [|discriminate].
    destruct (leveldb_get (ldb m) (node_key (unpack_from_be64 v)))
      as [pl1|] eqn:Eg1; [|discriminate].
    destruct (length pl1 =? sizeof_mnode_payload)%nat eqn:El1; [|discriminate].
    apply Nat.eqb_eq in El1.
    cbn [walk]. unfold mstor_fetch_child.
    rewrite (mode_check_enter n pl req Hc Hdir Hgr). cbn [negb Z.eqb nid].
    rewrite Ev, Elv. cbn [negb].
    rewrite (fetch_node_get m _ pl1 Eg1 El1).
    destruct (IH m req {| nid := n; val := Some pl |} _ pl1 c n' Eg1 El1 Hc Ht)
      as (pnode' & pl' & pcomp' & Hw & Hg' & Hl' & Hnil & Hcons).
    exists pnode', pl', pcomp'. repeat split; auto; try discriminate.
    intros _. destruct rest as [|c' rest'].
    + destruct (Hnil eq_refl) as [-> ->]. exists pl, v. cbn [val nid]. auto.
    + destruct (Hcons ltac:(discriminate)) as (ppl & v' & Hv1 & Hv2 & Hrange).
      exists ppl, v'. split; [exact Hv1|]. split; [exact Hv2|].
      intros Hn Hb. apply Hrange; [|exact Hb].
      apply get_Some_In in Ev. unfold db_bytes in Hb.
      rewrite forallb_forall in Hb. specialize (Hb _ Ev). cbn in Hb.
      apply andb_true_iff in Hb. destruct Hb as [_ Hb].
      apply Nat.eqb_eq in Elv.
      pose proof (unpack_acc_bound v Hb) as Hbd. rewrite Elv in Hbd.
      unfold unpack_from_be64, unpack_from_be.
      rewrite firstn_all2 by lia. unfold two64. cbn in Hbd. lia.
Qed.

Lemma flagged_check_perms (req : mreq) :
  check_perms (flagged req) = negb (uid (ruser (flagged req)) =? RF_SUPERUSER_UID)
  /\ ruser (flagged req) = ruser req /\ op (flagged req) = op req.
Proof.
  unfold flagged.
  destruct (uid (ruser req) =? RF_SUPERUSER_UID) eqn:E; cbn; rewrite E; auto.
Qed.

(** The walk of a request whose path the caller can traverse. *)
Lemma path_walk_reaches (m : mstor) (req : mreq) (comps : list string) (n : Z) :
  request_path req = Some comps ->
  reaches (ldb m) (ruser req) comps = Some n ->
  exists pnode pl pcomp,
    leveldb_get (ldb m) (node_key n) = Some pl
    /\ length pl = sizeof_mnode_payload
    /\ (comps = [] -> pnode = mnode_zero)
    /\ (comps <> [] ->
        exists ppl v,
          val pnode = Some ppl
          /\ leveldb_get (ldb m) (child_key (nid pnode) pcomp) = Some v
          /\ (db_bytes (ldb m) = true -> 0 <= nid pnode < two64))
    /\ mstor_do_path_operation m req =
       match op req with
       | MSTOR_OP_CREAT _ _ => Some (- EEXIST, m, RNone)
       | MSTOR_OP_OPEN atime =>
           Some (mstor_do_open m (flagged req) atime
                   {| nid := n; val := Some pl |})
       | MSTOR_OP_CHUNKFIND start end_ max_cinfos =>
           Some (mstor_do_chunkfind m (flagged req) start end_ max_cinfos
                   {| nid := n; val := Some pl |})
       | MSTOR_OP_MKDIRS _ _ => Some (0, m, RNone)
       | MSTOR_OP_LISTDIR out_len =>
           Some (mstor_do_listdir m (flagged req) out_len
                   {| nid := n; val := Some pl |})
       | MSTOR_OP_STAT out_len =>
           Some (mstor_do_stat m (flagged req) out_len pcomp pnode
                   {| nid := n; val := Some pl |})
       | MSTOR_OP_CHMOD mode =>
           Some (mstor_do_chmod m (flagged req) mode
                   {| nid := n; val := Some pl |})
       | MSTOR_OP_CHOWN new_user new_group =>
           Some (mstor_do_chown m (flagged req) new_user new_group
                   {| nid := n; val := Some pl |})
       | MSTOR_OP_UTIMES atime mtime =>
           Some (mstor_do_utimes m (flagged req) atime mtime
                   {| nid := n; val := Some pl |})
       | MSTOR_OP_RMDIR rmr =>
           Some (mstor_do_rmdir m (flagged req) rmr pcomp
                   {| nid := n; val := Some pl |} pnode)
       | MSTOR_OP_CHUNKALLOC _ _ => None
       | _ => Some (- ENOTSUP, m, RNone)
       end.
Proof.
  unfold request_path, reaches, mstor_do_path_operation.
  intros Hp Hr.
  change (if uid (ruser (set_flags req MREQ_FLAG_CHECK_PERMS)) =? RF_SUPERUSER_UID
          then set_flags (set_flags req MREQ_FLAG_CHECK_PERMS)
                 (Z.land (flags (set_flags req MREQ_FLAG_CHECK_PERMS))
                    (Z.lnot MREQ_FLAG_CHECK_PERMS))
          else set_flags req MREQ_FLAG_CHECK_PERMS) with (flagged req).
  destruct (flagged_check_perms req) as (Hc & Hu & Ho).
  replace (full_path (flagged req)) with (full_path req)
    by (unfold flagged; destruct (uid (ruser req) =? RF_SUPERUSER_UID);
        reflexivity).
  destruct (strlen (full_path req) >=? RF_PATH_MAX); [discriminate|].
  destruct (canonicalize_path (full_path req)) as [ret path].
  destruct (ret =? 0) eqn:Eret; [|discriminate]. cbn [negb].
  destruct (path_components path) as [pc comps'] eqn:Epc.
  cbn [snd] in Hp. inversion Hp; subst comps'; clear Hp.
  destruct (leveldb_get (ldb m) (node_key MSTOR_ROOT_NID)) as [rpl|] eqn:Er;
    [|discriminate].
  destruct (length rpl =? sizeof_mnode_payload)%nat eqn:Erl; [|discriminate].
  apply Nat.eqb_eq in Erl.
  rewrite (fetch_node_get m _ rpl Er Erl).
  rewrite <- Hu in Hr.
  destruct (walk_traverse comps m (flagged req) mnode_zero MSTOR_ROOT_NID rpl
              pc n Er Erl Hc Hr)
    as (pnode & pl & pcomp & Hw & Hg & Hl & Hnil & Hcons).
  exists pnode, pl, pcomp. rewrite Hw, Ho.
  split; [exact Hg|]. split; [exact Hl|].
  split; [intros E; apply (Hnil E)|].
  split; [|reflexivity].
  intros Hne. destruct (Hcons Hne) as (ppl & v & H1 & H2 & H3).
  exists ppl, v. split; [exact H1|]. split; [exact H2|].
  intros Hb. apply H3; [|exact Hb]. unfold MSTOR_ROOT_NID, two64. lia.
Qed.

End WalkFacts.

(** ** Node payloads *)

Module PayloadFacts.

Ltac explode_payload pl H :=
  unfold sizeof_mnode_payload in H;
  do 34 (destruct pl as [|? pl]; [discriminate H|]);
  destruct pl; [clear H|discriminate H].

(** Writing the mode field changes that field alone. *)
Lemma payload_store_mode (pl : bytes) (x : Z) :
  length pl = sizeof_mnode_payload ->
  let pl' := store_at off_mode_and_type (pack_to_be16 x) pl in
  length pl' = sizeof_mnode_payload
  /\ payload_mode_and_type pl' = x mod two16
  /\ payload_uid pl' = payload_uid pl
  /\ payload_gid pl' = payload_gid pl
  /\ payload_mtime pl' = payload_mtime pl
  /\ payload_atime pl' = payload_atime pl
  /\ payload_length pl' = payload_length pl.
Proof.
  intros H pl'. subst pl'. explode_payload pl H.
  repeat split; try reflexivity.
  unfold payload_mode_and_type, unpack_from_be16, off_mode_and_type.
  match goal with
  | |- unpack_from_be 2 (skipn 32 ?l) = _ =>
      change (skipn 32 l) with (pack_to_be 2 x ++ [])
  end.
  apply unpack_pack.
Qed.

(** Writing the access time changes that field alone. *)
Lemma payload_store_atime (pl : bytes) (x : Z) :
  length pl = sizeof_mnode_payload ->
  let pl' := store_at off_atime (pack_to_be64 x) pl in
  length pl' = sizeof_mnode_payload
  /\ payload_atime pl' = x mod two64
  /\ payload_mtime pl' = payload_mtime pl
  /\ payload_mode_and_type pl' = payload_mode_and_type pl
  /\ payload_uid pl' = payload_uid pl
  /\ payload_gid pl' = payload_gid pl
  /\ payload_length pl' = payload_length pl.
Proof.
  intros H pl'. subst pl'. explode_payload pl H.
  repeat split; try reflexivity.
  unfold payload_atime, unpack_from_be64, off_atime.
  match goal with
  | |- unpack_from_be 8 (skipn 8 ?l) = _ =>
      match l with
      | store_at _ _ ?v =>
          change (skipn 8 l) with (pack_to_be 8 x ++ skipn 16 v)
      end
  end.
  apply unpack_pack.
Qed.

(** Writing the modification time changes that field alone. *)
Lemma payload_store_mtime (pl : bytes) (x : Z) :
  length pl = sizeof_mnode_payload ->
  let pl' := store_at off_mtime (pack_to_be64 x) pl in
  length pl' = sizeof_mnode_payload
  /\ payload_mtime pl' = x mod two64
  /\ payload_atime pl' = payload_atime pl
  /\ payload_mode_and_type pl' = payload_mode_and_type pl
  /\ payload_uid pl' = payload_uid pl
  /\ payload_gid pl' = payload_gid pl
  /\ payload_length pl' = payload_length pl.
Proof.
  intros H pl'. subst pl'. explode_payload pl H.
  repeat split; try reflexivity.
  unfold payload_mtime, unpack_from_be64, off_mtime.
  match goal with
  | |- unpack_from_be 8 (skipn 0 ?l) = _ =>
      match l with
      | store_at _ _ ?v =>
          change (skipn 0 l) with (pack_to_be 8 x ++ skipn 8 v)
      end
  end.
  apply unpack_pack.
Qed.

Lemma land_is_dir_cases (old : Z) :
  Z.land old MNODE_IS_DIR = (if Z.testbit old 15 then MNODE_IS_DIR else 0).
Proof.
  apply Z.bits_inj'. intros n Hn. rewrite Z.land_spec.
  change MNODE_IS_DIR with (2 ^ 15). rewrite Z.pow2_bits_eqb by lia.
  destruct (Z.eqb_spec 15 n) as [<-|Hne].
  - destruct (Z.testbit old 15); reflexivity.
  - rewrite andb_false_r.
    destruct (Z.testbit old 15);
      [rewrite Z.pow2_bits_eqb by lia;
       symmetry; apply Z.eqb_neq; exact Hne
      |rewrite Z.bits_0; reflexivity].
Qed.

(** The mode-and-type that [mstor_do_chmod] computes. *)
Lemma chmod_mode_code (mode old : Z) :
  (if negb (Z.land old MNODE_IS_DIR =? 0)
   then (Z.lor (mode mod two16) MNODE_IS_DIR) mod two16
   else (Z.land (mode mod two16) (Z.lnot MNODE_IS_DIR)) mod two16)
  = chmod_mode mode old.
Proof.
  unfold chmod_mode. rewrite (land_is_dir_cases old).
  destruct (Z.testbit old 15);
    [change (negb (MNODE_IS_DIR =? 0)) with true
    |change (negb (0 =? 0)) with false]; cbv iota.
  - apply Z.bits_inj'. intros n Hn. unfold two16.
    destruct (Z.lt_ge_cases n 16) as [Hlt|Hge].
    + rewrite Z.lor_spec.
      rewrite !(Z.mod_pow2_bits_low _ 16 n) by lia.
      rewrite Z.lor_spec, Z.land_spec, Z.lnot_spec by lia.
      rewrite (Z.mod_pow2_bits_low _ 16 n) by lia.
      destruct (Z.testbit mode n), (Z.testbit MNODE_IS_DIR n); reflexivity.
    + rewrite Z.lor_spec.
      rewrite !(Z.mod_pow2_bits_high _ 16 n) by lia.
      change MNODE_IS_DIR with (2 ^ 15). rewrite Z.pow2_bits_eqb by lia.
      symmetry. cbn [orb]. apply Z.eqb_neq. lia.
  - rewrite Z.lor_0_r. reflexivity.
Qed.

Lemma chmod_mode_range (mode old : Z) : 0 <= chmod_mode mode old < two16.
Proof.
  rewrite <- chmod_mode_code.
  destruct (negb (Z.land old MNODE_IS_DIR =? 0));
    apply Z.mod_pos_bound; reflexivity.
Qed.

End PayloadFacts.
Import PayloadFacts.

(** ** Handlers behind the walker *)

Section HandlerFacts.
Context {P : Platform}.

Lemma request_path_set_user (req : mreq) (u : user) :
  request_path (set_user req u) = request_path req.
Proof. reflexivity. Qed.

(** C9, as amended: when every component of the path exists and the caller
    can traverse it (the caller is the superuser or holds execute
    permission on every ancestor directory), [mkdirs] returns 0 and leaves
    the store as it was.  Nothing is asked of the terminal node: it may be
    a regular file, and neither [-EEXIST] nor [-ENOTDIR] is returned. *)
Theorem mkdirs_traversable_path_no_write (m : mstor) (req : mreq) (u : user)
  (comps : list string) (n mode ctime : Z) :
  udata_lookup_user (udir m) (user_name req) = inl u ->
  op req = MSTOR_OP_MKDIRS mode ctime ->
  request_path req = Some comps ->
  reaches (ldb m) u comps = Some n ->
  mstor_do_operation m req = Some (0, m, RNone).
Proof.
  intros Hu Hop Hp Hr. unfold mstor_do_operation. rewrite Hu.
  change (op (set_user req u)) with (op req). rewrite Hop.
  destruct (path_walk_reaches m (set_user req u) comps n Hp Hr)
    as (pnode & pl & pcomp & _ & _ & _ & _ & Hw).
  rewrite Hw. change (op (set_user req u)) with (op req). rewrite Hop.
  reflexivity.
Qed.

(** C10: [chmod] and [utimes] make no check on the node they change.  For
    every request whose caller can traverse to the node (execute
    permission on every ancestor directory, or the superuser), whatever
    the uid, gid and mode of the node, [chmod] returns 0 and rewrites the
    node with the requested mode and the old directory flag, and [utimes]
    returns 0 and rewrites the node with each time that is not the
    sentinel; the other fields are kept. *)
Theorem chmod_utimes_no_check_on_target (m : mstor) (req : mreq) (u : user)
  (comps : list string) (n : Z) (pl : bytes) :
  udata_lookup_user (udir m) (user_name req) = inl u ->
  request_path req = Some comps ->
  reaches (ldb m) u comps = Some n ->
  leveldb_get (ldb m) (node_key n) = Some pl ->
  (forall mode, op req = MSTOR_OP_CHMOD mode ->
     exists pl',
       mstor_do_operation m req
         = Some (0, set_ldb m (leveldb_put (ldb m) (node_key n) pl'), RNone)
       /\ payload_mode_and_type pl'
          = chmod_mode mode (payload_mode_and_type pl)
       /\ payload_uid pl' = payload_uid pl
       /\ payload_gid pl' = payload_gid pl
       /\ payload_mtime pl' = payload_mtime pl
       /\ payload_atime pl' = payload_atime pl)
  /\ (forall atime mtime, op req = MSTOR_OP_UTIMES atime mtime ->
        exists pl',
          mstor_do_operation m req
            = Some (0, set_ldb m (leveldb_put (ldb m) (node_key n) pl'), RNone)
          /\ payload_atime pl'
             = (if atime =? RF_INVAL_TIME then payload_atime pl
                else atime mod two64)
          /\ payload_mtime pl'
             = (if mtime =? RF_INVAL_TIME then payload_mtime pl
                else mtime mod two64)
          /\ payload_mode_and_type pl' = payload_mode_and_type pl
          /\ payload_uid pl' = payload_uid pl
          /\ payload_gid pl' = payload_gid pl).
Proof.
  intros Hu Hp Hr Hg.
  destruct (path_walk_reaches m (set_user req u) comps n Hp Hr)
    as (pnode & pl0 & pcomp & Hg0 & Hl & _ & _ & Hw).
  rewrite Hg in Hg0. inversion Hg0; subst pl0; clear Hg0.
  change (op (set_user req u)) with (op req) in Hw.
  split.
  - intros mode Hop. unfold mstor_do_operation. rewrite Hu.
    change (op (set_user req u)) with (op req). rewrite Hop.
    rewrite Hw, Hop. unfold mstor_do_chmod. cbn [hdr val nid].
    rewrite chmod_mode_code.
    fold (payload_mode_and_type pl).
    set (x := chmod_mode mode (payload_mode_and_type pl)).
    destruct (payload_store_mode pl x Hl) as (_ & Hm & Hui & Hgi & Hmt & Hat & _).
    eexists. split; [reflexivity|].
    rewrite Hm, Hui, Hgi, Hmt, Hat.
    rewrite (Z.mod_small x two16) by apply chmod_mode_range.
    auto.
  - intros atime mtime Hop. unfold mstor_do_operation. rewrite Hu.
    change (op (set_user req u)) with (op req). rewrite Hop.
    rewrite Hw, Hop. unfold mstor_do_utimes. cbn [hdr val nid].
    eexists. split; [reflexivity|].
    destruct (payload_store_atime pl atime Hl)
      as (Hl1 & Ha1 & Hm1 & Hmo1 & Hu1 & Hg1 & _).
    destruct (atime =? RF_INVAL_TIME); cbn [negb];
      destruct (mtime =? RF_INVAL_TIME); cbn [negb].
    + auto.
    + destruct (payload_store_mtime pl mtime Hl)
        as (_ & Hm2 & Ha2 & Hmo2 & Hu2 & Hg2 & _).
      rewrite Hm2, Ha2, Hmo2, Hu2, Hg2. auto.
    + rewrite Ha1, Hm1, Hmo1, Hu1, Hg1. auto.
    + destruct (payload_store_mtime _ mtime Hl1)
        as (_ & Hm2 & Ha2 & Hmo2 & Hu2 & Hg2 & _).
      rewrite Hm2, Ha2, Hmo2, Hu2, Hg2, Ha1, Hmo1, Hu1, Hg1. auto.
Qed.

End HandlerFacts.

Section HandlerExamples.
#[local] Existing Instance linux_x86_64.

(** C1: [mstor_mode_check] is not the check the specification describes.
    The code tests [want << 6] for every caller and [want] unshifted for
    the owner, so the owner's bits of a POSIX mode are applied to everyone
    and the bits of the others to the owner.  A file of mode 0004 owned by
    the superuser is readable by every caller, yet the code refuses
    [alice], and her [open] returns [-EPERM]; the root directory of mode
    0755 is writable by its owner alone, yet the code lets [alice] write,
    and her [creat] in it returns 0.  The code also grants when some
    wanted bit is set: [alice] is granted READ and WRITE together on her
    own file of mode 0400. *)
Theorem mode_check_differs_from_posix :
  (spec_mode_check node_r4 (req_alice (MSTOR_OP_OPEN 7) "/r")
     MSTOR_PERM_READ false = 0
   /\ mstor_mode_check node_r4 (req_alice (MSTOR_OP_OPEN 7) "/r")
        MSTOR_PERM_READ = - EPERM
   /\ run_ret (mstor_do_operation store_r4
                 (mk_req (MSTOR_OP_OPEN 7) "/r" "alice")) = Some (- EPERM))
  /\ (spec_mode_check node_root (req_alice (MSTOR_OP_CREAT 420 9) "/x")
        MSTOR_PERM_WRITE true = - EPERM
      /\ mstor_mode_check node_root (req_alice (MSTOR_OP_CREAT 420 9) "/x")
           (Z.lor MSTOR_PERM_WRITE MNODE_IS_DIR) = 0
      /\ run_ret (mstor_do_operation fresh_store
                    (mk_req (MSTOR_OP_CREAT 420 9) "/x" "alice")) = Some 0)
  /\ (payload_uid (hdr node_q400) = uid alice
      /\ spec_mode_check node_q400 (req_alice (MSTOR_OP_OPEN 7) "/q")
           (Z.lor MSTOR_PERM_READ MSTOR_PERM_WRITE) false = - EPERM
      /\ mstor_mode_check node_q400 (req_alice (MSTOR_OP_OPEN 7) "/q")
           (Z.lor MSTOR_PERM_READ MSTOR_PERM_WRITE) = 0).
Proof. repeat split; vm_compute; reflexivity. Qed.

(** C9, as stated, fails: every component of [/p/q] exists, yet [mkdirs]
    by [alice], who may not enter [/p], returns [-EPERM]. *)
Lemma mkdirs_existing_path_refused :
  resolve (ldb store_private) MSTOR_ROOT_NID ["p"%string; "q"%string] = Some 2
  /\ run_ret (mstor_do_operation store_private
                (mk_req (MSTOR_OP_MKDIRS 493 300) "/p/q" "alice"))
     = Some (- EPERM)
  /\ - EPERM <> 0.
Proof.
  split; [vm_compute; reflexivity|].
  split; [vm_compute; reflexivity|]. discriminate.
Defined.

Lemma mkdirs_traversable_path_no_write_witness :
  node_is_dir (node_payload (ldb store_abf) nid_f) = false
  /\ mstor_do_operation store_abf
       (mk_req (MSTOR_OP_MKDIRS 493 300) "/a/b/f" "alice")
     = Some (0, store_abf, RNone).
Proof.
  split; [vm_compute; reflexivity|].
  apply (mkdirs_traversable_path_no_write store_abf
           (mk_req (MSTOR_OP_MKDIRS 493 300) "/a/b/f" "alice") alice
           ["a"%string; "b"%string; "f"%string] nid_f 493 300);
    vm_compute; reflexivity.
Defined.

(** [/p] of [store_private] belongs to the superuser and has mode 0:
    [alice] is granted nothing on it, and changes its mode and its times. *)
Lemma chmod_utimes_no_check_on_target_witness :
  granted (node_payload (ldb store_private) 1) alice 7 = false
  /\ (exists pl',
        mstor_do_operation store_private
          (mk_req (MSTOR_OP_CHMOD 511) "/p" "alice")
        = Some (0, set_ldb store_private
                     (leveldb_put (ldb store_private) (node_key 1) pl'),
                RNone)
        /\ payload_mode_and_type pl' = Z.lor 511 MNODE_IS_DIR)
  /\ (exists pl',
        mstor_do_operation store_private
          (mk_req (MSTOR_OP_UTIMES 7 RF_INVAL_TIME) "/p" "alice")
        = Some (0, set_ldb store_private
                     (leveldb_put (ldb store_private) (node_key 1) pl'),
                RNone)
        /\ payload_atime pl' = 7 /\ payload_mtime pl' = 100).
Proof.
  split; [vm_compute; reflexivity|].
  split.
  - destruct (chmod_utimes_no_check_on_target store_private
                (mk_req (MSTOR_OP_CHMOD 511) "/p" "alice") alice
                ["p"%string] 1 (node_payload (ldb store_private) 1))
      as [H _]; try (vm_compute; reflexivity).
    destruct (H 511 eq_refl) as (pl' & H1 & H2 & _).
    exists pl'. split; [exact H1|]. rewrite H2. vm_compute. reflexivity.
  - destruct (chmod_utimes_no_check_on_target store_private
                (mk_req (MSTOR_OP_UTIMES 7 RF_INVAL_TIME) "/p" "alice") alice
                ["p"%string] 1 (node_payload (ldb store_private) 1))
      as [_ H]; try (vm_compute; reflexivity).
    destruct (H 7 RF_INVAL_TIME eq_refl) as (pl' & H1 & H2 & H3 & _).
    exists pl'. split; [exact H1|]. rewrite H2, H3.
    split; vm_compute; reflexivity.
Defined.

End HandlerExamples.

(** ** Recovery of the id counters *)

Module RecoveryFacts.

(** Every record from the position of a seek on is at or past the key. *)
Lemma sorted_suffix_not_below (K : bytes) (hi : list entry) :
  db_sorted hi = true ->
  match hi with [] => True | e :: _ => key_ltb (fst e) K = false end ->
  forall e, In e hi -> key_ltb (fst e) K = false.
Proof.
  destruct hi as [|e0 hi]; intros Hs H0 e Hin; [destruct Hin|].
  destruct Hin as [<- | Hin]; [exact H0|].
  pose proof (db_sorted_head_lt _ _ Hs _ Hin) as Hlt.
  destruct (key_ltb (fst e) K) eqn:E; [|reflexivity].
  rewrite (key_ltb_trans _ _ _ Hlt E) in H0. discriminate.
Qed.

(** Seek to [K] and step back: the iterator is on the last record below
    [K], or invalid when no record is below [K], provided some record is
    at or past [K]. *)
Lemma seek_prev_shape (d : db) (K : bytes) :
  db_sorted d = true ->
  (exists e, In e d /\ key_ltb (fst e) K = false) ->
  let it := leveldb_iter_prev (leveldb_iter_seek d K) in
  (leveldb_iter_valid it = false
   /\ forall e, In e d -> key_ltb (fst e) K = false)
  \/ (exists e0,
        leveldb_iter_valid it = true
        /\ leveldb_iter_key it = fst e0
        /\ In e0 d
        /\ key_ltb (fst e0) K = true
        /\ forall e, In e d -> key_ltb (fst e) K = true ->
                     e = e0 \/ key_ltb (fst e) (fst e0) = true).
Proof.
  intros Hs (e1 & Hin1 & Hge1) it. subst it. unfold leveldb_iter_seek.
  destruct (seek_from_spec K d []) as (lo & Hseek & Hd & Hlo & Hhi).
  rewrite Hseek, app_nil_r. clear Hseek.
  set (hi := skipn (length lo) d) in *.
  rewrite Hd in Hs. destruct (db_sorted_app _ _ Hs) as (Slo & Shi & Scross).
  pose proof (sorted_suffix_not_below K hi Shi Hhi) as Hhi_all.
  assert (Hhi_ne : hi <> []).
  { rewrite Hd in Hin1. apply in_app_or in Hin1. destruct Hin1 as [Hin1|Hin1].
    - rewrite (Hlo _ Hin1) in Hge1. discriminate.
    - intros E. rewrite E in Hin1. destruct Hin1. }
  destruct hi as [|h hi'] eqn:Ehi; [congruence|].
  unfold leveldb_iter_prev. cbn [it_after it_before].
  destruct (rev lo) as [|e0 b] eqn:Erev.
  - left. cbn. split; [reflexivity|].
    assert (lo = []).
    { rewrite <- (rev_involutive lo), Erev. reflexivity. }
    subst lo. cbn in Hd. rewrite Hd. exact Hhi_all.
  - right. exists e0.
    assert (Elo : lo = rev b ++ [e0]).
    { rewrite <- (rev_involutive lo), Erev. reflexivity. }
    assert (Hin0 : In e0 lo).
    { rewrite Elo. apply in_or_app. right. cbn. auto. }
    cbn. repeat split.
    + rewrite Hd. apply in_or_app. auto.
    + apply Hlo. exact Hin0.
    + intros e Hin Hlt. rewrite Hd in Hin. apply in_app_or in Hin.
      destruct Hin as [Hin|Hin].
      * rewrite Elo in Hin, Slo. apply in_app_or in Hin.
        destruct Hin as [Hin|[<- | []]]; [|auto].
        right. destruct (db_sorted_app _ _ Slo) as (_ & _ & Hc).
        apply Hc; cbn; auto.
      * rewrite (Hhi_all _ Hin) in Hlt. discriminate.
Qed.

(** A key between two keys of one family is of that family. *)
Lemma key_between_same_tag (t : Z) (l1 lK k0 : bytes) :
  k0 = t :: l1 \/ key_ltb (t :: l1) k0 = true ->
  key_ltb k0 (t :: lK) = true ->
  exists l0, k0 = t :: l0.
Proof.
  intros H1 H2. destruct k0 as [|y l0].
  - destruct H1 as [H1|H1]; discriminate.
  - destruct H1 as [H1|H1]; [inversion H1; eauto|].
    unfold key_ltb in H1, H2. cbn in H1, H2.
    destruct (t ?= y) eqn:E1; try discriminate;
      destruct (y ?= t) eqn:E2; try discriminate;
      try (apply Z.compare_eq in E1; subst; eauto);
      try (apply Z.compare_eq in E2; subst; eauto).
    rewrite Z.compare_lt_iff in E1, E2. lia.
Qed.

(** What a well-formed key of the family [t] looks like. *)
Lemma id_key_shape (t : Z) (k : bytes) :
  t = tag_n \/ t = tag_h ->
  id_key_ok k = true -> hd 0 k = t ->
  exists l, k = t :: l /\ length l = 8%nat /\ forallb byte_ok l = true
            /\ unpack_from_be64 (skipn 1 k) = unpack_acc 0 l
            /\ 0 <= unpack_acc 0 l < MSTOR_NID_MAX.
Proof.
  intros Ht Hok Hhd. unfold id_key_ok in Hok.
  replace ((hd 0 k =? tag_n) || (hd 0 k =? tag_h)) with true in Hok
    by (rewrite Hhd; destruct Ht; subst; reflexivity).
  apply andb_true_iff in Hok. destruct Hok as [Hok Hmax].
  apply andb_true_iff in Hok. destruct Hok as [Hlen Hbytes].
  apply Nat.eqb_eq in Hlen. apply Z.ltb_lt in Hmax.
  destruct k as [|y l]; [discriminate|]. cbn in Hhd. subst y.
  cbn [skipn] in *. cbn [length] in Hlen. injection Hlen as Hlen.
  exists l. repeat split; auto.
  - unfold unpack_from_be64, unpack_from_be.
    rewrite firstn_all2 by lia. reflexivity.
  - pose proof (unpack_acc_bound l Hbytes). lia.
  - unfold unpack_from_be64, unpack_from_be in Hmax.
    rewrite firstn_all2 in Hmax by lia. exact Hmax.
Qed.

(** Keys of one family compare as their ids do. *)
Lemma id_key_ltb (t : Z) (l1 l2 : bytes) :
  length l1 = 8%nat -> length l2 = 8%nat ->
  forallb byte_ok l1 = true -> forallb byte_ok l2 = true ->
  key_ltb (t :: l1) (t :: l2) = (unpack_acc 0 l1 <? unpack_acc 0 l2).
Proof.
  intros H1 H2 B1 B2. unfold key_ltb. cbn [key_compare].
  rewrite Z.compare_refl.
  rewrite (key_compare_unpack l1 l2) by congruence.
  unfold Z.ltb. reflexivity.
Qed.

Lemma family_ids_In (t : Z) (d : db) (x : Z) :
  In x (family_ids t d) <->
  exists e, In e d /\ hd 0 (fst e) = t /\ x = unpack_from_be64 (skipn 1 (fst e)).
Proof.
  unfold family_ids. rewrite in_map_iff. split.
  - intros (e & Hx & Hin). apply filter_In in Hin. destruct Hin as [Hin Ht].
    apply Z.eqb_eq in Ht. eauto.
  - intros (e & Hin & Ht & Hx). exists e. split; [auto|].
    apply filter_In. split; [auto|]. apply Z.eqb_eq. auto.
Qed.

(** The heart of recovery: after the seek to the ceiling of family [t] and
    one step back, the iterator is on the record of the largest id of the
    family, if the family has a record. *)
Lemma load_last_id (t : Z) (d : db) :
  t = tag_n \/ t = tag_h ->
  db_sorted d = true ->
  forallb (fun e => id_key_ok (fst e)) d = true ->
  (exists v, In ([tag_v], v) d) ->
  let it := leveldb_iter_prev (leveldb_iter_seek d (ceiling_key t)) in
  (family_ids t d = []
   /\ (leveldb_iter_valid it = false \/ hd 0 (leveldb_iter_key it) <> t))
  \/ (exists mx,
        In mx (family_ids t d)
        /\ (forall x, In x (family_ids t d) -> x <= mx)
        /\ 0 <= mx < MSTOR_NID_MAX
        /\ leveldb_iter_valid it = true
        /\ length (leveldb_iter_key it) = 9%nat
        /\ hd 0 (leveldb_iter_key it) = t
        /\ unpack_from_be64 (skipn 1 (leveldb_iter_key it)) = mx).
Proof.
  intros Ht Hs Hok (vv & Hv). cbv zeta.
  assert (Hceil_ok : length (pack_to_be64 MSTOR_NID_MAX) = 8%nat
                     /\ forallb byte_ok (pack_to_be64 MSTOR_NID_MAX) = true
                     /\ unpack_acc 0 (pack_to_be64 MSTOR_NID_MAX) = MSTOR_NID_MAX)
    by (repeat split; reflexivity).
  destruct Hceil_ok as (Hcl & Hcb & Hcv).
  assert (Hbelow : forall e, In e d -> hd 0 (fst e) = t ->
                             key_ltb (fst e) (ceiling_key t) = true).
  { intros e Hin Hhd. rewrite forallb_forall in Hok.
    destruct (id_key_shape t (fst e) Ht (Hok e Hin) Hhd)
      as (l & Hk & Hl & Hb & _ & Hr).
    rewrite Hk. unfold ceiling_key. rewrite id_key_ltb by auto.
    rewrite Hcv. apply Z.ltb_lt. lia. }
  assert (Hpast : exists e, In e d /\ key_ltb (fst e) (ceiling_key t) = false).
  { exists ([tag_v], vv). split; [exact Hv|].
    destruct Ht; subst t; reflexivity. }
  pose proof (seek_prev_shape d (ceiling_key t) Hs Hpast) as Hshape.
  cbv zeta in Hshape.
  destruct Hshape as [[Hinv Hall]|(e0 & Hval & Hkey & Hin0 & Hlt0 & Hmax)].
  - left. split; [|left; exact Hinv].
    destruct (family_ids t d) as [|x l] eqn:E; [reflexivity|].
    assert (Hx : In x (family_ids t d)) by (rewrite E; cbn; auto).
    apply family_ids_In in Hx. destruct Hx as (e & Hin & Hhd & _).
    specialize (Hall e Hin). rewrite (Hbelow e Hin Hhd) in Hall. discriminate.
  - destruct (Z.eq_dec (hd 0 (fst e0)) t) as [Hhd0|Hhd0].
    + right. rewrite forallb_forall in Hok.
      destruct (id_key_shape t (fst e0) Ht (Hok e0 Hin0) Hhd0)
        as (l0 & Hk0 & Hl0 & Hb0 & Hu0 & Hr0).
      exists (unpack_acc 0 l0). rewrite Hkey.
      repeat split; auto; try lia.
      * apply family_ids_In. exists e0. rewrite Hu0. auto.
      * intros x Hx. apply family_ids_In in Hx.
        destruct Hx as (e & Hin & Hhd & ->).
        destruct (id_key_shape t (fst e) Ht (Hok e Hin) Hhd)
          as (l & Hk & Hl & Hb & Hu & Hr).
        rewrite Hu.
        destruct (Hmax e Hin (Hbelow e Hin Hhd)) as [-> | Hlt].
        -- rewrite Hk0 in Hk. inversion Hk; subst. lia.
        -- rewrite Hk, Hk0, id_key_ltb in Hlt by auto.
           apply Z.ltb_lt in Hlt. lia.
      * rewrite Hk0. cbn. lia.
    + left. split; [|right; rewrite Hkey; exact Hhd0].
      destruct (family_ids t d) as [|x l] eqn:E; [reflexivity|].
      assert (Hx : In x (family_ids t d)) by (rewrite E; cbn; auto).
      apply family_ids_In in Hx. destruct Hx as (e & Hin & Hhd & _).
      rewrite forallb_forall in Hok.
      destruct (id_key_shape t (fst e) Ht (Hok e Hin) Hhd)
        as (l1 & Hk & _).
      assert (Hsand : fst e0 = t :: l1 \/ key_ltb (t :: l1) (fst e0) = true).
      { destruct (Hmax e Hin (Hbelow e Hin Hhd)) as [-> | Hlt].
        - left. exact Hk.
        - right. rewrite <- Hk. exact Hlt. }
      destruct (key_between_same_tag t l1 _ (fst e0) Hsand Hlt0) as (l0 & Hk0).
      rewrite Hk0 in Hhd0. cbn in Hhd0. congruence.
Qed.

End RecoveryFacts.
Import RecoveryFacts.

Section RecoveryTheorems.
Context {P : Platform}.

Lemma store_ok_parts (d : db) :
  store_ok d = true ->
  db_sorted d = true
  /\ (exists v, leveldb_get d [tag_v] = Some v
                /\ mstor_parse_version v = MSTOR_CUR_VERSION)
  /\ (exists pl, leveldb_get d (node_key MSTOR_ROOT_NID) = Some pl)
  /\ forallb (fun e => id_key_ok (fst e)) d = true.
Proof.
  unfold store_ok. intros H.
  apply andb_true_iff in H. destruct H as [H H4].
  apply andb_true_iff in H. destruct H as [H H3].
  apply andb_true_iff in H. destruct H as [H1 H2].
  repeat split; auto.
  - destruct (leveldb_get d [tag_v]) as [v|]; [|discriminate].
    exists v. split; [reflexivity|]. apply Z.eqb_eq. exact H2.
  - destruct (leveldb_get d (node_key MSTOR_ROOT_NID)) as [pl|];
      [eauto|discriminate].
Qed.

Lemma load_next_nid_spec (d : db) :
  store_ok d = true ->
  exists mx,
    In mx (node_ids d)
    /\ (forall x, In x (node_ids d) -> x <= mx)
    /\ 0 <= mx < MSTOR_NID_MAX
    /\ mstor_load_next_nid d = inr (mx + 1).
Proof.
  intros Hok. destruct (store_ok_parts d Hok) as (Hs & (v & Hv & _) & (pl & Hr) & Hk).
  assert (Hvin : exists v, In ([tag_v], v) d)
    by (exists v; apply get_Some_In; exact Hv).
  pose proof (load_last_id tag_n d (or_introl eq_refl) Hs Hk Hvin) as H.
  cbv zeta in H.
  destruct H as [[Hnil _]|(mx & Hin & Hmax & Hr0 & Hval & Hlen & Hhd & Hid)].
  - exfalso. apply get_Some_In in Hr.
    assert (Hx : In (unpack_from_be64 (skipn 1 (node_key MSTOR_ROOT_NID)))
                   (family_ids tag_n d)).
    { apply family_ids_In. exists (node_key MSTOR_ROOT_NID, pl). auto. }
    rewrite Hnil in Hx. destruct Hx.
  - exists mx. repeat split; auto; try lia.
    unfold mstor_load_next_nid.
    change (tag_n :: pack_to_be64 MSTOR_NID_MAX) with (ceiling_key tag_n).
    rewrite Hval, Hlen, Hhd, Hid. cbn [negb orb].
    change (9 =? MNODE_KEY_LEN)%nat with true. rewrite Z.eqb_refl.
    cbn [negb orb]. f_equal. apply Z.mod_small.
    unfold two64, MSTOR_NID_MAX in *. lia.
Qed.

Lemma load_next_cid_spec (d : db) :
  store_ok d = true ->
  (chunk_ids d = [] /\ mstor_load_next_cid d = inr 1)
  \/ (exists mx,
        In mx (chunk_ids d)
        /\ (forall x, In x (chunk_ids d) -> x <= mx)
        /\ 0 <= mx < MSTOR_CID_MAX
        /\ mstor_load_next_cid d = inr (mx + 1)).
Proof.
  intros Hok. destruct (store_ok_parts d Hok) as (Hs & (v & Hv & _) & _ & Hk).
  assert (Hvin : exists v, In ([tag_v], v) d)
    by (exists v; apply get_Some_In; exact Hv).
  pose proof (load_last_id tag_h d (or_intror eq_refl) Hs Hk Hvin) as H.
  cbv zeta in H. unfold mstor_load_next_cid.
  change (tag_h :: pack_to_be64 MSTOR_CID_MAX) with (ceiling_key tag_h).
  destruct H as [[Hnil Hno]|(mx & Hin & Hmax & Hr0 & Hval & Hlen & Hhd & Hid)].
  - left. split; [exact Hnil|].
    destruct Hno as [Hinv|Hhd].
    + rewrite Hinv. reflexivity.
    + destruct (negb (leveldb_iter_valid _)); [reflexivity|].
      apply Z.eqb_neq in Hhd. rewrite Hhd. cbn [negb].
      rewrite orb_true_r. reflexivity.
  - right. exists mx. repeat split; auto; try (unfold MSTOR_CID_MAX, MSTOR_NID_MAX in *; lia).
    rewrite Hval, Hlen, Hhd, Hid. cbn [negb orb].
    change (9 =? MCHUNK_KEY_LEN)%nat with true. rewrite Z.eqb_refl.
    cbn [negb orb]. f_equal. apply Z.mod_small.
    unfold two64, MSTOR_NID_MAX in *. lia.
Qed.

(** Ids are handed out in increasing order from the counter. *)
Lemma alloc_nids_from_counter (k : nat) :
  forall (m : mstor) (ids : list Z),
    0 <= next_nid m -> alloc_nids k m = Some ids ->
    forall i, In i ids -> next_nid m <= i.
Proof.
  induction k as [|k IH]; intros m ids H0 Ha i Hi; cbn in Ha.
  - inversion Ha; subst. destruct Hi.
  - unfold mstor_next_nid in Ha.
    destruct (next_nid m >? MSTOR_NID_MAX) eqn:E; [discriminate|].
    rewrite Z.gtb_ltb in E. apply Z.ltb_ge in E.
    destruct (alloc_nids k (set_next_nid m ((next_nid m + 1) mod two64)))
      as [l|] eqn:El; [|discriminate].
    inversion Ha; subst. destruct Hi as [<- | Hi]; [lia|].
    assert (Hn : next_nid (set_next_nid m ((next_nid m + 1) mod two64))
                 = next_nid m + 1).
    { cbn. apply Z.mod_small. unfold two64, MSTOR_NID_MAX in *. lia. }
    specialize (IH _ _ ltac:(rewrite Hn; lia) El i Hi). lia.
Qed.

Lemma alloc_cids_from_counter (k : nat) :
  forall (m : mstor) (ids : list Z),
    0 <= next_cid m -> alloc_cids k m = Some ids ->
    forall c, In c ids -> next_cid m <= c.
Proof.
  induction k as [|k IH]; intros m ids H0 Ha c Hc; cbn in Ha.
  - inversion Ha; subst. destruct Hc.
  - unfold mstor_next_cid in Ha.
    destruct (next_cid m >? MSTOR_NID_MAX) eqn:E; [discriminate|].
    rewrite Z.gtb_ltb in E. apply Z.ltb_ge in E.
    destruct (alloc_cids k (set_next_cid m ((next_cid m + 1) mod two64)))
      as [l|] eqn:El; [|discriminate].
    inversion Ha; subst. destruct Hc as [<- | Hc]; [lia|].
    assert (Hn : next_cid (set_next_cid m ((next_cid m + 1) mod two64))
                 = next_cid m + 1).
    { cbn. apply Z.mod_small. unfold two64, MSTOR_NID_MAX in *. lia. }
    specialize (IH _ _ ltac:(rewrite Hn; lia) El c Hc). lia.
Qed.

(** C8: opening a store that is not empty (keys in order, version record
    of this build, root node, node and chunk ids below the ceiling)
    succeeds and sets [next_nid] to one plus the largest node id of the
    ['n'] records and [next_cid] to one plus the largest chunk id of the
    ['h'] records, or to 1 when there is no ['h'] record.  The next
    allocation of either kind returns, and every id allocated afterwards
    is greater than every id of the records that were there. *)
Theorem reopen_recovers_counters (conf : mstorc) (u : udata) (d : db) (t : Z) :
  store_ok d = true ->
  exists m,
    mstor_init conf u (Some d) t = inl m
    /\ ldb m = d
    /\ (exists mx, In mx (node_ids d)
                   /\ (forall x, In x (node_ids d) -> x <= mx)
                   /\ next_nid m = mx + 1)
    /\ ((chunk_ids d = [] /\ next_cid m = 1)
        \/ (exists mx, In mx (chunk_ids d)
                       /\ (forall x, In x (chunk_ids d) -> x <= mx)
                       /\ next_cid m = mx + 1))
    /\ (exists i m', mstor_next_nid m = Some (i, m'))
    /\ (exists c m', mstor_next_cid m = Some (c, m'))
    /\ (forall k ids i x, alloc_nids k m = Some ids -> In i ids ->
                          In x (node_ids d) -> x < i)
    /\ (forall k ids c x, alloc_cids k m = Some ids -> In c ids ->
                          In x (chunk_ids d) -> x < c).
Proof.
  intros Hok.
  destruct (store_ok_parts d Hok) as (Hs & (v & Hv & Hvers) & (pl & Hr) & Hk).
  destruct (load_next_nid_spec d Hok) as (mxn & Hnin & Hnmax & Hnr & Hnl).
  assert (Hc : exists nc,
             mstor_load_next_cid d = inr nc /\ 1 <= nc <= MSTOR_CID_MAX
             /\ (forall x, In x (chunk_ids d) -> x < nc)
             /\ ((chunk_ids d = [] /\ nc = 1)
                 \/ (exists mx, In mx (chunk_ids d)
                                /\ (forall x, In x (chunk_ids d) -> x <= mx)
                                /\ nc = mx + 1))).
  { destruct (load_next_cid_spec d Hok)
      as [[Hnil Hl]|(mx & Hin & Hmax & Hr0 & Hl)].
    - exists 1. repeat split; auto; try (unfold MSTOR_CID_MAX; lia).
      intros x Hx. rewrite Hnil in Hx. destruct Hx.
    - exists (mx + 1). repeat split; auto; try lia.
      + intros x Hx. specialize (Hmax x Hx). lia.
      + right. exists mx. auto. }
  destruct Hc as (nc & Hcl & Hcr & Hcall & Hccase).
  assert (Hne : d <> []) by (intros E; rewrite E in Hr; discriminate).
  unfold mstor_init, mstor_leveldb_init. cbn [set_ldb mstor_calloc ldb
    next_nid next_cid min_repl man_repl udir negb Z.eqb].
  unfold mstor_leveldb_is_empty, leveldb_iter_seek_to_first,
    leveldb_iter_valid. cbn [it_after ldb].
  destruct d as [|e d']; [congruence|]. cbn [Z.ltb Z.eqb Z.compare].
  unfold mstor_leveldb_load, mstor_read_version. cbn [ldb].
  rewrite Hv, Hvers. cbn [Z.eqb negb MSTOR_CUR_VERSION MSTOR_VERSION_INVAL
    Pos.eqb].
  rewrite Hnl. cbn [set_next_nid ldb]. rewrite Hcl. cbn [negb Z.eqb].
  eexists. split; [reflexivity|].
  cbn [ldb next_nid next_cid set_next_cid set_next_nid].
  split; [reflexivity|].
  split; [exists mxn; auto|].
  split.
  { destruct Hccase as [[Hnil ->]|(mx & Hin & Hmax & ->)]; [left|right]; eauto. }
  split.
  { unfold mstor_next_nid. cbn [next_nid set_next_cid set_next_nid].
    replace (mxn + 1 >? MSTOR_NID_MAX) with false
      by (symmetry; rewrite Z.gtb_ltb; apply Z.ltb_ge; lia).
    eauto. }
  split.
  { unfold mstor_next_cid. cbn [next_cid set_next_cid set_next_nid].
    replace (nc >? MSTOR_NID_MAX) with false
      by (symmetry; rewrite Z.gtb_ltb; apply Z.ltb_ge;
          unfold MSTOR_CID_MAX, MSTOR_NID_MAX in *; lia).
    eauto. }
  split.
  - intros k ids i x Ha Hi Hx.
    pose proof (fun H0 => alloc_nids_from_counter k _ ids H0 Ha i Hi) as Hb.
    cbn [next_nid set_next_cid set_next_nid] in Hb.
    specialize (Hnmax x Hx). lia.
  - intros k ids c x Ha Hi Hx.
    pose proof (fun H0 => alloc_cids_from_counter k _ ids H0 Ha c Hi) as Hb.
    cbn [next_cid set_next_cid set_next_nid] in Hb.
    specialize (Hcall x Hx). lia.
Qed.

End RecoveryTheorems.

Section RecoveryExamples.
#[local] Existing Instance linux_x86_64.

(** The store with directories [/a], [/a/b], the file [/a/b/f] and one
    chunk: the node ids are 0 to 3 and the chunk id is 1. *)
Lemma reopen_recovers_counters_witness :
  store_ok (ldb store_chunk0) = true
  /\ node_ids (ldb store_chunk0) = [0; 1; 2; 3]
  /\ chunk_ids (ldb store_chunk0) = [1]
  /\ exists m,
       mstor_init test_conf test_udata (Some (ldb store_chunk0)) 400 = inl m
       /\ next_nid m = 4 /\ next_cid m = 2.
Proof.
  split; [vm_compute; reflexivity|].
  split; [vm_compute; reflexivity|].
  split; [vm_compute; reflexivity|].
  destruct (reopen_recovers_counters test_conf test_udata (ldb store_chunk0) 400)
    as (m & Hi & _); [vm_compute; reflexivity|].
  exists m. split; [exact Hi|].
  replace m with
    (match mstor_init test_conf test_udata (Some (ldb store_chunk0)) 400 with
     | inl m' => m'
     | inr _ => mstor_calloc test_udata
     end) by (rewrite Hi; reflexivity).
  split; vm_compute; reflexivity.
Defined.

(** With [man_repl = 5] configured, [stat] reports the default 3. *)
Example stat_reports_default_man_repl :
  c_man_repl test_conf = 5
  /\ option_map (fun r => match r with
                          | RStat _ out => map st_man_repl out
                          | _ => []
                          end)
       (run_reply (mstor_do_operation store_abf
                     (mk_req (MSTOR_OP_STAT 1000) "/a/b/f" "alice")))
     = Some [3].
Proof. split; vm_compute; reflexivity. Qed.

End RecoveryExamples.

(** ** [rmdir] behind the dispatcher *)

Section RmdirFacts.
Context {P : Platform}.

Lemma key_prefix_not_below (pfx s : bytes) : key_ltb (pfx ++ s) pfx = false.
Proof.
  unfold key_ltb. induction pfx as [|x pfx IH]; cbn.
  - destruct s; reflexivity.
  - rewrite Z.compare_refl. exact IH.
Qed.

(** A key at or past a prefix and at or below an extension of the prefix
    extends the prefix. *)
Lemma key_prefix_sandwich (pfx : bytes) :
  forall (k s : bytes),
    key_ltb k pfx = false ->
    k = pfx ++ s \/ key_ltb k (pfx ++ s) = true ->
    exists s', k = pfx ++ s'.
Proof.
  induction pfx as [|x pfx IH]; intros k s Hge Hle.
  - exists k. reflexivity.
  - destruct k as [|y k]; [discriminate|].
    destruct Hle as [Hle|Hle];
      [inversion Hle; subst; exists s; reflexivity|].
    unfold key_ltb in Hge, Hle. cbn in Hge, Hle.
    destruct (y ?= x) eqn:E; cbn in Hge, Hle; try discriminate.
    apply Z.compare_eq in E. subst y.
    destruct (IH k s) as (s' & ->).
    + exact Hge.
    + right. exact Hle.
    + exists s'. reflexivity.
Qed.

(** A seek to the prefix of a directory that has an entry lands on an
    entry of that directory. *)
Lemma seek_prefix_child (d : db) (pfx s v : bytes) :
  db_sorted d = true ->
  leveldb_get d (pfx ++ s) = Some v ->
  exists s' v' rest,
    it_after (leveldb_iter_seek d pfx) = (pfx ++ s', v') :: rest.
Proof.
  intros Hs Hg. apply get_Some_In in Hg. unfold leveldb_iter_seek.
  destruct (seek_from_spec pfx d []) as (lo & Hseek & Hd & Hlo & Hhi).
  rewrite Hseek. cbn [it_after]. clear Hseek.
  set (hi := skipn (length lo) d) in *.
  rewrite Hd in Hs, Hg. destruct (db_sorted_app _ _ Hs) as (_ & Shi & _).
  apply in_app_or in Hg. destruct Hg as [Hg|Hg].
  { apply Hlo in Hg. cbn in Hg. rewrite key_prefix_not_below in Hg.
    discriminate. }
  destruct hi as [|[k0 v0] hi']; [destruct Hg|].
  cbn in Hhi.
  destruct (key_prefix_sandwich pfx k0 s Hhi) as (s' & ->).
  - destruct Hg as [Hg|Hg]; [inversion Hg; auto|].
    right. apply (db_sorted_head_lt _ _ Shi _ Hg).
  - eauto.
Qed.

(** Without [rmr] the loop leaves at the first record, with an empty
    batch. *)
Lemma rmdir_loop_nonrecursive (m : mstor) (req : mreq) (cnode : mnode)
  (rest : list entry) :
  exists r,
    rmdir_loop m req false cnode rest [] = (r, [])
    /\ (r = 0 \/ r = - EIO \/ r = - ENOTEMPTY).
Proof.
  destruct rest as [|[k v] rest]; cbn [rmdir_loop negb]; [eauto|].
  repeat match goal with
         | |- context [if ?c then _ else _] => destruct c; eauto
         end.
Qed.

(** On an entry of the directory the loop scans, it does not return 0
    without [rmr]. *)
Lemma rmdir_loop_entry (m : mstor) (req : mreq) (cnode : mnode)
  (s v : bytes) (rest : list entry) :
  0 <= nid cnode < two64 ->
  exists r,
    rmdir_loop m req false cnode
      ((child_prefix (nid cnode) ++ s, v) :: rest) [] = (r, [])
    /\ r <> 0.
Proof.
  intros Hn. cbn [rmdir_loop negb].
  assert (Hlen : length (child_prefix (nid cnode) ++ s) = (9 + length s)%nat).
  { rewrite length_app. unfold child_prefix. cbn [length].
    unfold pack_to_be64. rewrite pack_to_be_length. reflexivity. }
  rewrite Hlen.
  replace (9 + length s <? 1)%nat with false
    by (symmetry; apply Nat.ltb_ge; lia).
  change (hd 0 (child_prefix (nid cnode) ++ s)) with tag_c.
  rewrite Z.eqb_refl. cbn [negb].
  destruct (9 + length s <=? MCHILD_KEY_LEN_PREFIX)%nat;
    [exists (- EIO); split; [reflexivity|discriminate]|].
  change (skipn 1 (child_prefix (nid cnode) ++ s))
    with (pack_to_be64 (nid cnode) ++ s).
  rewrite unpack_pack64 by exact Hn. rewrite Z.eqb_refl. cbn [negb].
  destruct (negb (length v =? 8)%nat);
    [exists (- EIO); split; [reflexivity|discriminate]|].
  destruct (_ >=? RF_PCOMP_MAX);
    [exists (- EIO); split; [reflexivity|discriminate]|].
  exists (- ENOTEMPTY). split; [reflexivity|discriminate].
Qed.

(** The root as [mstor_leveldb_create_new] writes it passes the write
    check for every caller. *)
Lemma root_mode_check_write (n : Z) (pl : bytes) (req : mreq) :
  payload_mode_and_type pl = MSTOR_ROOT_NID_INIT_MODE ->
  mstor_mode_check {| nid := n; val := Some pl |} req
    (Z.lor MSTOR_PERM_WRITE MNODE_IS_DIR) = 0.
Proof.
  intros Hm.
  change (Z.lor MSTOR_PERM_WRITE MNODE_IS_DIR)
    with (Z.lor 2 (if true then MNODE_IS_DIR else 0)).
  rewrite mode_check_spec by lia. cbn [hdr val].
  unfold node_is_dir, granted, perm_at. rewrite Hm.
  destruct (check_perms req); reflexivity.
Qed.

(** Non-recursive [rmdir] of the root is never refused with [-EPERM] while
    the root has the mode it was created with: the dispatcher passes the
    root where [mstor_do_rmdir] expects the parent, so the guard for the
    root is not taken, and the mode 0755 lets every caller write. *)
Lemma rmdir_root_never_eperm (m : mstor) (req : mreq) (u : user)
  (rpl : bytes) :
  udata_lookup_user (udir m) (user_name req) = inl u ->
  op req = MSTOR_OP_RMDIR false ->
  request_path req = Some [] ->
  leveldb_get (ldb m) (node_key MSTOR_ROOT_NID) = Some rpl ->
  length rpl = sizeof_mnode_payload ->
  payload_mode_and_type rpl = MSTOR_ROOT_NID_INIT_MODE ->
  exists r m',
    mstor_do_operation m req = Some (r, m', RNone)
    /\ (r = 0 \/ r = - EIO \/ r = - ENOTEMPTY).
Proof.
  intros Hu Hop Hp Hg Hl Hm. unfold mstor_do_operation. rewrite Hu.
  change (op (set_user req u)) with (op req). rewrite Hop.
  assert (Hr : reaches (ldb m) (ruser (set_user req u)) [] = Some MSTOR_ROOT_NID).
  { unfold reaches. rewrite Hg, Hl. reflexivity. }
  destruct (path_walk_reaches m (set_user req u) [] _ Hp Hr)
    as (pnode & pl & pcomp & Hg' & _ & Hnil & _ & Hw).
  rewrite Hg in Hg'. inversion Hg'; subst pl; clear Hg'.
  rewrite (Hnil eq_refl) in Hw. rewrite Hw.
  change (op (set_user req u)) with (op req). rewrite Hop.
  unfold mstor_do_rmdir. cbn [val].
  rewrite (root_mode_check_write _ rpl _ Hm). cbn [negb Z.eqb].
  destruct (rmdir_loop_nonrecursive m (flagged (set_user req u)) mnode_zero
              (it_after (leveldb_iter_seek (ldb m)
                           (child_prefix (nid mnode_zero)))))
    as (r & Hloop & Hr3).
  rewrite Hloop.
  destruct (negb (r =? 0)) eqn:E; [eauto|].
  apply negb_false_iff, Z.eqb_eq in E. subst r. eauto.
Qed.

(** Non-recursive [rmdir] of a directory other than the root never
    removes it: in a store of sorted byte strings, for every path the
    caller can traverse, the return value is not 0 and nothing is
    written.  The loop scans the entries of the parent, which has at
    least the entry the walker came through. *)
Lemma rmdir_nonrecursive_never_removes (m : mstor) (req : mreq) (u : user)
  (comps : list string) (n : Z) :
  udata_lookup_user (udir m) (user_name req) = inl u ->
  op req = MSTOR_OP_RMDIR false ->
  request_path req = Some comps ->
  comps <> [] ->
  reaches (ldb m) u comps = Some n ->
  db_sorted (ldb m) = true ->
  db_bytes (ldb m) = true ->
  exists r, mstor_do_operation m req = Some (r, m, RNone) /\ r <> 0.
Proof.
  intros Hu Hop Hp Hne Hr Hs Hb. unfold mstor_do_operation. rewrite Hu.
  change (op (set_user req u)) with (op req). rewrite Hop.
  destruct (path_walk_reaches m (set_user req u) comps n Hp Hr)
    as (pnode & pl & pcomp & _ & _ & _ & Hcons & Hw).
  destruct (Hcons Hne) as (ppl & v & Hv1 & Hv2 & Hrange).
  rewrite Hw. change (op (set_user req u)) with (op req). rewrite Hop.
  unfold mstor_do_rmdir. cbn [val].
  destruct (negb (mstor_mode_check _ _ _ =? 0)) eqn:Emode.
  { eexists. split; [reflexivity|].
    apply negb_true_iff, Z.eqb_neq in Emode. exact Emode. }
  unfold child_key in Hv2.
  destruct (seek_prefix_child (ldb m) (child_prefix (nid pnode)) _ v Hs Hv2)
    as (s' & v' & rest & Hseek).
  rewrite Hseek.
  destruct (rmdir_loop_entry m (flagged (set_user req u)) pnode s' v' rest
              (Hrange Hb)) as (r & Hloop & Hr0).
  rewrite Hloop.
  replace (negb (r =? 0)) with true
    by (symmetry; apply negb_true_iff, Z.eqb_neq; exact Hr0).
  eauto.
Qed.

End RmdirFacts.

Section RmdirExamples.
#[local] Existing Instance linux_x86_64.

(** C2: [rmdir("/")] by a user who is not the superuser does not fail with
    [-EPERM].  On a freshly formatted store it returns 0 and its batch
    deletes the node record of the root; when the root has an entry it
    returns [-ENOTEMPTY].  The dispatcher hands the root to
    [mstor_do_rmdir] as [pnode] and the zeroed parent as [cnode], so the
    test [pnode->val == NULL] that guards the root is not met. *)
Theorem rmdir_root_by_user_not_refused :
  uid alice <> RF_SUPERUSER_UID
  /\ leveldb_get (ldb fresh_store) (node_key MSTOR_ROOT_NID) <> None
  /\ run_ret (mstor_do_operation fresh_store
                (mk_req (MSTOR_OP_RMDIR false) "/" "alice")) = Some 0
  /\ option_map (fun d => leveldb_get d (node_key MSTOR_ROOT_NID))
       (run_db (mstor_do_operation fresh_store
                  (mk_req (MSTOR_OP_RMDIR false) "/" "alice")))
     = Some None
  /\ run_ret (mstor_do_operation store_a
                (mk_req (MSTOR_OP_RMDIR false) "/" "alice"))
     = Some (- ENOTEMPTY).
Proof.
  split; [vm_compute; discriminate|].
  split; [vm_compute; discriminate|].
  repeat split; vm_compute; reflexivity.
Qed.

(** C3: non-recursive [rmdir] of the empty directory [/a], whose parent is
    the root, returns [-ENOTEMPTY] and writes nothing, for the superuser
    and for [alice] alike: with parent and child exchanged, the loop that
    looks for entries scans the entries of the parent, where it meets the
    entry of [/a] itself. *)
Theorem rmdir_empty_directory_not_removed :
  resolve (ldb store_a) MSTOR_ROOT_NID ["a"%string] = Some 1
  /\ children (ldb store_a) 1 = []
  /\ run_ret (mstor_do_operation store_a
                (mk_req (MSTOR_OP_RMDIR false) "/a" "root"))
     = Some (- ENOTEMPTY)
  /\ run_db (mstor_do_operation store_a
               (mk_req (MSTOR_OP_RMDIR false) "/a" "root"))
     = Some (ldb store_a)
  /\ run_ret (mstor_do_operation store_a
                (mk_req (MSTOR_OP_RMDIR false) "/a" "alice"))
     = Some (- ENOTEMPTY).
Proof. repeat split; vm_compute; reflexivity. Qed.

End RmdirExamples.

(** ** Version stamp and bootstrap *)

Section BootstrapFacts.
Context {P : Platform}.

Lemma bytes_eqb_eq (a b : bytes) : bytes_eqb a b = true -> a = b.
Proof.
  unfold bytes_eqb. revert b.
  induction a as [|x a IH]; intros [|y b] H; try discriminate; [reflexivity|].
  cbn in H. apply andb_true_iff in H. destruct H as [Hl H].
  apply andb_true_iff in H. destruct H as [Hxy H].
  apply Z.eqb_eq in Hxy. subst y. f_equal. apply IH.
  apply andb_true_iff. split; assumption.
Qed.

(** X1: the version stamp round-trips: after [mstor_write_version] has
    written a 32-bit version, [mstor_read_version] returns it; and a
    stored value is read as a version only when it is eight bytes that
    begin with the magic "Fish". *)
Theorem version_write_read (m : mstor) (vers : Z) :
  0 <= vers < two32 ->
  mstor_read_version (snd (mstor_write_version m vers)) = vers
  /\ forall v, mstor_parse_version v <> MSTOR_VERSION_INVAL ->
               length v = 8%nat /\ firstn 4 v = MSTOR_VERSION_MAGIC.
Proof.
  intros Hv. split.
  - unfold mstor_write_version, mstor_read_version. cbn [snd ldb set_ldb].
    rewrite get_put_same. unfold mstor_parse_version.
    change (length (MSTOR_VERSION_MAGIC ++ pack_to_be32 vers)) with 8%nat.
    change (firstn MSTOR_VERSION_MAGIC_LEN (MSTOR_VERSION_MAGIC ++ pack_to_be32 vers))
      with MSTOR_VERSION_MAGIC.
    change (skipn MSTOR_VERSION_MAGIC_LEN (MSTOR_VERSION_MAGIC ++ pack_to_be32 vers))
      with (pack_to_be 4 vers ++ []).
    cbn [Nat.eqb MSTOR_VERSION_BODY_LEN negb].
    change (bytes_eqb MSTOR_VERSION_MAGIC MSTOR_VERSION_MAGIC) with true.
    cbn [negb]. unfold unpack_from_be32. rewrite unpack_pack.
    apply Z.mod_small. exact Hv.
  - intros v Hp. unfold mstor_parse_version in Hp.
    destruct (length v =? MSTOR_VERSION_BODY_LEN)%nat eqn:El;
      cbn [negb] in Hp; [|congruence].
    destruct (bytes_eqb (firstn MSTOR_VERSION_MAGIC_LEN v) MSTOR_VERSION_MAGIC)
      eqn:Em; cbn [negb] in Hp; [|congruence].
    apply Nat.eqb_eq in El. apply bytes_eqb_eq in Em. auto.
Qed.

(** The payload [mstor_leveldb_create_new] gives the root. *)
Lemma root_payload_fields (t : Z) :
  let pl := pack_to_be64 t ++ pack_to_be64 t ++ pack_to_be64 0
            ++ pack_to_be32 RF_SUPERUSER_UID ++ pack_to_be32 RF_SUPERUSER_GID
            ++ pack_to_be16 MSTOR_ROOT_NID_INIT_MODE in
  length pl = sizeof_mnode_payload
  /\ payload_mtime pl = t mod two64
  /\ payload_atime pl = t mod two64
  /\ payload_length pl = 0
  /\ payload_uid pl = RF_SUPERUSER_UID mod two32
  /\ payload_gid pl = RF_SUPERUSER_GID mod two32
  /\ payload_mode_and_type pl = MSTOR_ROOT_NID_INIT_MODE.
Proof.
  intros pl. subst pl. split; [reflexivity|].
  unfold payload_mtime, payload_atime, payload_length, payload_uid,
    payload_gid, payload_mode_and_type, unpack_from_be64, unpack_from_be32,
    unpack_from_be16, pack_to_be64, pack_to_be32, pack_to_be16.
  repeat split.
  - apply unpack_pack.
  - lazymatch goal with
    | |- unpack_from_be 8 (skipn off_atime (_ ++ ?r)) = _ =>
        change (unpack_from_be 8 r = t mod two64)
    end. apply unpack_pack.
  - lazymatch goal with
    | |- unpack_from_be 4 (skipn off_uid (_ ++ _ ++ _ ++ ?r)) = _ =>
        change (unpack_from_be 4 r = RF_SUPERUSER_UID mod two32)
    end. apply unpack_pack.
  - lazymatch goal with
    | |- unpack_from_be 4 (skipn off_gid (_ ++ _ ++ _ ++ _ ++ ?r)) = _ =>
        change (unpack_from_be 4 r = RF_SUPERUSER_GID mod two32)
    end. apply unpack_pack.
Qed.

(** X2: opening a missing directory with [mstor_create] set, or an empty
    database, formats it: the store holds two records, the version record
    of this build and the root node 0, a directory of mode 0755 owned by
    the superuser with both times at the wall clock and length 0; the next
    node id is 1. *)
Theorem init_formats_empty_store (conf : mstorc) (u : udata)
  (disk : option db) (t : Z) :
  match disk with
  | None => mstor_create conf <> 0
  | Some d => d = []
  end ->
  exists m pl,
    mstor_init conf u disk t = inl m
    /\ length (ldb m) = 2%nat
    /\ next_nid m = 1
    /\ mstor_read_version m = MSTOR_CUR_VERSION
    /\ mstor_fetch_node m MSTOR_ROOT_NID
       = Got {| nid := MSTOR_ROOT_NID; val := Some pl |}
    /\ node_is_dir pl = true
    /\ payload_mode_and_type pl = MSTOR_ROOT_NID_INIT_MODE
    /\ payload_uid pl = RF_SUPERUSER_UID mod two32
    /\ payload_gid pl = RF_SUPERUSER_GID mod two32
    /\ payload_mtime pl = t mod two64
    /\ payload_atime pl = t mod two64
    /\ payload_length pl = 0.
Proof.
  intros Hd.
  assert (Hopen : mstor_leveldb_init (mstor_calloc u) conf disk
                  = mstor_leveldb_init (mstor_calloc u) conf (Some [])).
  { unfold mstor_leveldb_init. destruct disk as [d|]; [subst d; reflexivity|].
    apply Z.eqb_neq in Hd. rewrite Hd. reflexivity. }
  unfold mstor_init. rewrite Hopen. clear Hopen Hd.
  destruct (root_payload_fields t)
    as (Hl & Hmt & Hat & Hle & Hui & Hgi & Hmo).
  cbv zeta in Hl, Hmt, Hat, Hle, Hui, Hgi, Hmo.
  eexists. eexists. split; [reflexivity|].
  split; [reflexivity|]. split; [reflexivity|]. split; [reflexivity|].
  split; [reflexivity|].
  split; [unfold node_is_dir; rewrite Hmo; reflexivity|].
  auto 10.
Qed.

(** X3: [mstor_init] refuses what it cannot use: a missing directory
    without [mstor_create] gives [EIO], and a database that is not empty
    and whose version record is absent, malformed or of another version
    gives [EINVAL]. *)
Theorem init_refuses_missing_or_foreign_store (conf : mstorc) (u : udata)
  (disk : option db) (t : Z) :
  match disk with
  | None => mstor_create conf = 0
  | Some d => d <> [] /\ stored_version d <> MSTOR_CUR_VERSION
  end ->
  mstor_init conf u disk t
    = inr (match disk with None => EIO | Some _ => EINVAL end).
Proof.
  destruct disk as [d|].
  - intros [Hne Hv]. unfold mstor_init, mstor_leveldb_init.
    cbn [negb Z.eqb set_ldb ldb mstor_calloc].
    unfold mstor_leveldb_is_empty, leveldb_iter_seek_to_first,
      leveldb_iter_valid. cbn [it_after ldb].
    destruct d as [|e d']; [congruence|]. cbn [Z.ltb Z.eqb Z.compare].
    unfold mstor_leveldb_load, mstor_read_version. cbn [ldb].
    fold (stored_version (e :: d')).
    destruct (stored_version (e :: d') =? MSTOR_VERSION_INVAL);
      [reflexivity|].
    apply Z.eqb_neq in Hv. rewrite Hv. reflexivity.
  - intros Hc. unfold mstor_init, mstor_leveldb_init. rewrite Hc. reflexivity.
Qed.

End BootstrapFacts.

(** ** Id allocation and node creation *)

Section NodeFacts.
Context {P : Platform}.

Lemma consecutive_shift (n : Z) (k : nat) :
  map (fun i => n + Z.of_nat i) (seq 0 (S k))
    = n :: map (fun i => (n + 1) + Z.of_nat i) (seq 0 k).
Proof.
  cbn [seq map]. rewrite Z.add_0_r. f_equal.
  rewrite <- seq_shift, map_map. apply map_ext. intros i. lia.
Qed.

(** X4: the allocators hand out consecutive ids.  From a counter at [n],
    [k] calls of [mstor_next_nid] (or of [mstor_next_cid]) return
    [n, n + 1, ..., n + k - 1] when the last of them is at most the
    ceiling 0xFFFFFFFFFFFF0000, and the process aborts otherwise. *)
Theorem allocators_hand_out_consecutive_ids (k : nat) :
  forall m : mstor,
    0 <= next_nid m -> 0 <= next_cid m ->
    alloc_nids k m
      = (if (k =? 0)%nat || (next_nid m + Z.of_nat k <=? MSTOR_NID_MAX + 1)
         then Some (map (fun i => next_nid m + Z.of_nat i) (seq 0 k))
         else None)
    /\ alloc_cids k m
       = (if (k =? 0)%nat || (next_cid m + Z.of_nat k <=? MSTOR_CID_MAX + 1)
          then Some (map (fun i => next_cid m + Z.of_nat i) (seq 0 k))
          else None).
Proof.
  induction k as [|k IH]; intros m Hn Hc; [split; reflexivity|].
  cbn [alloc_nids alloc_cids Nat.eqb orb].
  unfold mstor_next_nid, mstor_next_cid. split.
  - destruct (next_nid m >? MSTOR_NID_MAX) eqn:E.
    + rewrite Z.gtb_ltb in E. apply Z.ltb_lt in E.
      replace (next_nid m + Z.of_nat (S k) <=? MSTOR_NID_MAX + 1) with false
        by (symmetry; apply Z.leb_gt; lia).
      reflexivity.
    + rewrite Z.gtb_ltb in E. apply Z.ltb_ge in E.
      assert (Hn' : (next_nid m + 1) mod two64 = next_nid m + 1)
        by (apply Z.mod_small; unfold two64, MSTOR_NID_MAX in *; lia).
      destruct (IH (set_next_nid m ((next_nid m + 1) mod two64))) as [IHn _];
        [cbn [next_nid set_next_nid]; rewrite Hn'; lia
        |cbn [next_cid set_next_nid]; lia|].
      rewrite IHn. cbn [next_nid set_next_nid]. rewrite Hn'.
      rewrite consecutive_shift.
      destruct k as [|k'].
      * cbn [Nat.eqb orb seq map].
        replace (next_nid m + Z.of_nat 1 <=? MSTOR_NID_MAX + 1) with true
          by (symmetry; apply Z.leb_le; lia).
        reflexivity.
      * cbn [Nat.eqb orb].
        replace (next_nid m + 1 + Z.of_nat (S k') <=? MSTOR_NID_MAX + 1)
          with (next_nid m + Z.of_nat (S (S k')) <=? MSTOR_NID_MAX + 1)
          by (f_equal; lia).
        destruct (next_nid m + Z.of_nat (S (S k')) <=? MSTOR_NID_MAX + 1);
          reflexivity.
  - destruct (next_cid m >? MSTOR_NID_MAX) eqn:E.
    + rewrite Z.gtb_ltb in E. apply Z.ltb_lt in E.
      replace (next_cid m + Z.of_nat (S k) <=? MSTOR_CID_MAX + 1) with false
        by (symmetry; apply Z.leb_gt; unfold MSTOR_CID_MAX, MSTOR_NID_MAX in *;
            lia).
      reflexivity.
    + rewrite Z.gtb_ltb in E. apply Z.ltb_ge in E.
      assert (Hc' : (next_cid m + 1) mod two64 = next_cid m + 1)
        by (apply Z.mod_small; unfold two64, MSTOR_NID_MAX in *; lia).
      destruct (IH (set_next_cid m ((next_cid m + 1) mod two64))) as [_ IHc];
        [cbn [next_nid set_next_cid]; lia
        |cbn [next_cid set_next_cid]; rewrite Hc'; lia|].
      rewrite IHc. cbn [next_cid set_next_cid]. rewrite Hc'.
      rewrite consecutive_shift.
      destruct k as [|k'].
      * cbn [Nat.eqb orb seq map].
        replace (next_cid m + Z.of_nat 1 <=? MSTOR_CID_MAX + 1) with true
          by (symmetry; apply Z.leb_le;
              unfold MSTOR_CID_MAX, MSTOR_NID_MAX in *; lia).
        reflexivity.
      * cbn [Nat.eqb orb].
        replace (next_cid m + 1 + Z.of_nat (S k') <=? MSTOR_CID_MAX + 1)
          with (next_cid m + Z.of_nat (S (S k')) <=? MSTOR_CID_MAX + 1)
          by (f_equal; lia).
        destruct (next_cid m + Z.of_nat (S (S k')) <=? MSTOR_CID_MAX + 1);
          reflexivity.
Qed.

(** The payload [mstor_make_node] builds. *)
Lemma new_payload_fields (mode mtime atime uid_ gid_ : Z) :
  let body :=
    store_at off_gid (pack_to_be32 gid_)
      (store_at off_uid (pack_to_be32 uid_)
         (store_at off_atime (pack_to_be64 atime)
            (store_at off_mtime (pack_to_be64 mtime)
               (store_at off_mode_and_type (pack_to_be16 (mode mod two16))
                  (repeat 0 sizeof_mnode_payload))))) in
  length body = sizeof_mnode_payload
  /\ payload_mode_and_type body = mode mod two16
  /\ payload_mtime body = mtime mod two64
  /\ payload_atime body = atime mod two64
  /\ payload_uid body = uid_ mod two32
  /\ payload_gid body = gid_ mod two32
  /\ payload_length body = 0.
Proof.
  intros body.
  split; [reflexivity|].
  split.
  { unfold payload_mode_and_type, unpack_from_be16.
    change (skipn off_mode_and_type body)
      with (pack_to_be 2 (mode mod two16) ++ []).
    rewrite unpack_pack. apply Z.mod_mod. discriminate. }
  split.
  { unfold payload_mtime, unpack_from_be64.
    change (skipn off_mtime body)
      with (pack_to_be 8 mtime ++ skipn 8 body).
    apply unpack_pack. }
  split.
  { unfold payload_atime, unpack_from_be64.
    change (skipn off_atime body)
      with (pack_to_be 8 atime ++ skipn 16 body).
    apply unpack_pack. }
  split.
  { unfold payload_uid, unpack_from_be32.
    change (skipn off_uid body)
      with (pack_to_be 4 uid_ ++ skipn 28 body).
    apply unpack_pack. }
  split.
  { unfold payload_gid, unpack_from_be32.
    change (skipn off_gid body)
      with (pack_to_be 4 gid_ ++ skipn 32 body).
    apply unpack_pack. }
  reflexivity.
Qed.

(** What a call of [mstor_make_node] that returns did. *)
Lemma make_node_cases (m m' : mstor) (mode mtime atime uid_ gid_ r : Z)
  (pcomp : string) (pnode cnode : mnode) :
  mstor_make_node m mode mtime atime uid_ gid_ pcomp pnode
    = Some (r, m', cnode) ->
  next_nid m <= MSTOR_NID_MAX
  /\ next_nid m' = (next_nid m + 1) mod two64
  /\ ((r = - EOVERFLOW /\ next_nid m = MSTOR_NID_MAX /\ ldb m' = ldb m
       /\ cnode = mnode_zero)
      \/ (r = 0 /\ next_nid m <> MSTOR_NID_MAX /\ nid cnode = next_nid m
          /\ exists body,
               val cnode = Some body
               /\ length body = sizeof_mnode_payload
               /\ payload_mode_and_type body = mode mod two16
               /\ payload_mtime body = mtime mod two64
               /\ payload_atime body = atime mod two64
               /\ payload_uid body = uid_ mod two32
               /\ payload_gid body = gid_ mod two32
               /\ payload_length body = 0
               /\ ldb m'
                  = leveldb_put
                      (leveldb_put (ldb m) (child_key (nid pnode) pcomp)
                         (pack_to_be64 (next_nid m)))
                      (node_key (next_nid m)) body)).
Proof.
  unfold mstor_make_node, mstor_next_nid.
  destruct (next_nid m >? MSTOR_NID_MAX) eqn:E; [discriminate|].
  rewrite Z.gtb_ltb in E. apply Z.ltb_ge in E.
  destruct (next_nid m =? MSTOR_NID_MAX) eqn:E2; intros H; inversion H;
    subst; clear H; (split; [exact E|]); (split; [reflexivity|]).
  - left. apply Z.eqb_eq in E2. auto.
  - right. apply Z.eqb_neq in E2.
    destruct (new_payload_fields mode mtime atime uid_ gid_)
      as (H1 & H2 & H3 & H4 & H5 & H6 & H7).
    cbv zeta in H1, H2, H3, H4, H5, H6, H7.
    repeat split; auto. eexists. split; [reflexivity|].
    repeat split; auto.
Qed.

(** The key of a name that fits the buffer. *)
Lemma child_key_fits (p : Z) (pcomp : string) :
  name_fits pcomp ->
  child_key p pcomp = child_prefix p ++ bytes_of_string pcomp.
Proof.
  unfold name_fits, child_key, child_name_bytes. intros H.
  apply Z.ltb_lt in H. rewrite H. reflexivity.
Qed.

(** X5: a node that [mstor_make_node] has created is found again.  For
    a name that fits the key buffer, after
    a call that returned 0, the parent has a child record for the name
    that holds the new id, [mstor_fetch_node] on that id returns the node
    the call returned, [mstor_fetch_child] from the parent finds it when
    the caller may enter the parent, and the payload decodes to the mode,
    times and owner that were passed, with length 0. *)
Theorem make_node_then_fetch (m m' : mstor) (req : mreq)
  (mode mtime atime uid_ gid_ : Z) (pcomp : string) (pnode cnode : mnode) :
  name_fits pcomp ->
  0 <= next_nid m ->
  mstor_make_node m mode mtime atime uid_ gid_ pcomp pnode
    = Some (0, m', cnode) ->
  child_key (nid pnode) pcomp
  = child_prefix (nid pnode) ++ bytes_of_string pcomp
  /\ nid cnode = next_nid m
  /\ next_nid m' = next_nid m + 1
  /\ leveldb_get (ldb m') (child_key (nid pnode) pcomp)
     = Some (pack_to_be64 (nid cnode))
  /\ mstor_fetch_node m' (nid cnode) = Got cnode
  /\ (mstor_mode_check pnode req (Z.lor MSTOR_PERM_EXEC MNODE_IS_DIR) = 0 ->
      mstor_fetch_child m' req pcomp pnode = Got cnode)
  /\ payload_mode_and_type (hdr cnode) = mode mod two16
  /\ payload_mtime (hdr cnode) = mtime mod two64
  /\ payload_atime (hdr cnode) = atime mod two64
  /\ payload_uid (hdr cnode) = uid_ mod two32
  /\ payload_gid (hdr cnode) = gid_ mod two32
  /\ payload_length (hdr cnode) = 0.
Proof.
  intros Hfit H0 Hm.
  split; [apply child_key_fits; exact Hfit|].
  destruct (make_node_cases _ _ _ _ _ _ _ _ _ _ _ Hm)
    as (Hle & Hnext & [(Hr & _)|(_ & Hne & Hnid & body & Hval & Hl & Hf)]);
    [discriminate Hr|].
  destruct Hf as (F1 & F2 & F3 & F4 & F5 & F6 & Hdb).
  assert (Hc : cnode = {| nid := next_nid m; val := Some body |})
    by (destruct cnode; cbn in *; congruence).
  assert (Hget_c : leveldb_get (ldb m') (child_key (nid pnode) pcomp)
                   = Some (pack_to_be64 (next_nid m))).
  { rewrite Hdb, get_put_other, get_put_same; [reflexivity|].
    unfold node_key, child_key, child_prefix, tag_n, tag_c. cbn. congruence. }
  assert (Hget_n : mstor_fetch_node m' (next_nid m) = Got cnode).
  { unfold mstor_fetch_node. rewrite Hdb, get_put_same, Hl, Nat.eqb_refl.
    rewrite Hc. reflexivity. }
  rewrite Hnid. unfold hdr. rewrite Hval.
  split; [reflexivity|].
  split; [rewrite Hnext; apply Z.mod_small;
          unfold two64, MSTOR_NID_MAX in *; lia|].
  split; [exact Hget_c|]. split; [exact Hget_n|].
  split; [|auto 10].
  intros Hmode. unfold mstor_fetch_child. rewrite Hmode, Hget_c.
  cbn [negb Z.eqb].
  change (length (pack_to_be64 (next_nid m)) =? 8)%nat with true.
  cbn [negb].
  rewrite <- (app_nil_r (pack_to_be64 (next_nid m))), unpack_pack64
    by (unfold two64, MSTOR_NID_MAX in *; lia).
  exact Hget_n.
Qed.

(** X6: [mstor_make_node] writes two records and no other: after a call
    that returned 0, every key but the child key of the new name and the
    node key of the new id reads as before. *)
Theorem make_node_writes_two_records (m m' : mstor)
  (mode mtime atime uid_ gid_ : Z) (pcomp : string) (pnode cnode : mnode)
  (k : bytes) :
  mstor_make_node m mode mtime atime uid_ gid_ pcomp pnode
    = Some (0, m', cnode) ->
  k <> child_key (nid pnode) pcomp ->
  k <> node_key (nid cnode) ->
  leveldb_get (ldb m') k = leveldb_get (ldb m) k.
Proof.
  intros Hm Hk1 Hk2.
  destruct (make_node_cases _ _ _ _ _ _ _ _ _ _ _ Hm)
    as (_ & _ & [(Hr & _)|(_ & _ & Hnid & body & _ & _ & Hf)]);
    [discriminate Hr|].
  destruct Hf as (_ & _ & _ & _ & _ & _ & Hdb).
  rewrite Hnid in Hk2. rewrite Hdb.
  rewrite !get_put_other by congruence. reflexivity.
Qed.

(** X7: the node id ceiling.  [mstor_make_node] aborts when the counter is
    past 0xFFFFFFFFFFFF0000; at the ceiling it returns [-EOVERFLOW] and
    leaves the database as it was; below it the call returns 0 with a node
    whose id is the counter.  So no node is created with an id at or past
    the ceiling. *)
Theorem make_node_respects_ceiling (m : mstor)
  (mode mtime atime uid_ gid_ : Z) (pcomp : string) (pnode : mnode) :
  0 <= next_nid m ->
  match mstor_make_node m mode mtime atime uid_ gid_ pcomp pnode with
  | None => MSTOR_NID_MAX < next_nid m
  | Some (r, m', cnode) =>
      (r = - EOVERFLOW /\ next_nid m = MSTOR_NID_MAX /\ ldb m' = ldb m)
      \/ (r = 0 /\ nid cnode = next_nid m /\ nid cnode < MSTOR_NID_MAX
          /\ next_nid m' = next_nid m + 1)
  end.
Proof.
  intros H0.
  destruct (mstor_make_node m mode mtime atime uid_ gid_ pcomp pnode)
    as [[[r m'] cnode]|] eqn:E.
  - destruct (make_node_cases _ _ _ _ _ _ _ _ _ _ _ E)
      as (Hle & Hnext & [(Hr & Hmax & Hdb & _)|(Hr & Hne & Hnid & _)]).
    + left. auto.
    + right. repeat split; auto; try lia.
      rewrite Hnext. apply Z.mod_small. unfold two64, MSTOR_NID_MAX in *. lia.
  - unfold mstor_make_node, mstor_next_nid in E.
    destruct (next_nid m >? MSTOR_NID_MAX) eqn:E1.
    + rewrite Z.gtb_ltb in E1. apply Z.ltb_lt in E1. exact E1.
    + destruct (next_nid m =? MSTOR_NID_MAX); discriminate.
Qed.

End NodeFacts.

(** ** The walker on missing components *)

Section WalkMoreFacts.
Context {P : Platform}.

(** A fetch that fails returns an error code. *)
Lemma fetch_node_failed (m : mstor) (n ret : Z) :
  mstor_fetch_node m n = Failed ret -> ret = - ENOENT \/ ret = - EIO.
Proof.
  unfold mstor_fetch_node.
  destruct (leveldb_get (ldb m) (node_key n)) as [v|];
    [destruct (negb (length v =? sizeof_mnode_payload)%nat)|];
    intros H; inversion H; auto.
Qed.

Lemma fetch_child_failed (m : mstor) (req : mreq) (pcomp : string)
  (pnode : mnode) (ret : Z) :
  mstor_fetch_child m req pcomp pnode = Failed ret -> ret <> 0.
Proof.
  unfold mstor_fetch_child.
  destruct (negb (mstor_mode_check pnode req
                    (Z.lor MSTOR_PERM_EXEC MNODE_IS_DIR) =? 0)) eqn:E.
  - intros H; inversion H; subst.
    apply negb_true_iff, Z.eqb_neq in E. exact E.
  - destruct (leveldb_get (ldb m) (child_key (nid pnode) pcomp)) as [v|].
    + destruct (negb (length v =? 8)%nat).
      * intros H; inversion H. discriminate.
      * intros H. apply fetch_node_failed in H. destruct H; subst; discriminate.
    + intros H; inversion H. discriminate.
Qed.

(** The walk over a traversable prefix is the walk over what follows it,
    started at the node the prefix names. *)
Lemma walk_prefix (pre : list string) :
  forall (m : mstor) (req : mreq) (pnode : mnode) (n : Z) (pl : bytes)
         (pcomp : string) (n' : Z) (more : list string),
    leveldb_get (ldb m) (node_key n) = Some pl ->
    length pl = sizeof_mnode_payload ->
    check_perms req = negb (uid (ruser req) =? RF_SUPERUSER_UID) ->
    traverse (ldb m) (ruser req) n pre = Some n' ->
    exists pnode' pl' pcomp',
      walk m req pnode {| nid := n; val := Some pl |} pcomp (pre ++ more)
        = walk m req pnode' {| nid := n'; val := Some pl' |} pcomp' more
      /\ leveldb_get (ldb m) (node_key n') = Some pl'
      /\ length pl' = sizeof_mnode_payload.
Proof.
  induction pre as [|c rest IH];
    intros m req pnode n pl pcomp n' more Hg Hl Hc Ht.
  - cbn in Ht. inversion Ht; subst. exists pnode, pl, pcomp. cbn. auto.
  - cbn [traverse] in Ht. rewrite Hg in Ht.
    destruct ((length pl =? sizeof_mnode_payload)%nat && node_is_dir pl
              && ((uid (ruser req) =? RF_SUPERUSER_UID)
                  || granted pl (ruser req) MSTOR_PERM_EXEC)) eqn:Econd;
      [|discriminate].
    apply andb_true_iff in Econd. destruct Econd as [Econd Hgr].
    apply andb_true_iff in Econd. destruct Econd as [_ Hdir].
    destruct (leveldb_get (ldb m) (child_key n c)) as [v|] eqn:Ev;
      [|discriminate].
    destruct (length v =? 8)%nat eqn:Elv; [|discriminate].
    destruct (leveldb_get (ldb m) (node_key (unpack_from_be64 v)))
      as [pl1|] eqn:Eg1; [|discriminate].
    destruct (length pl1 =? sizeof_mnode_payload)%nat eqn:El1; [|discriminate].
    apply Nat.eqb_eq in El1.
    cbn [walk app]. unfold mstor_fetch_child.
    rewrite (mode_check_enter n pl req Hc Hdir Hgr). cbn [negb Z.eqb nid].
    rewrite Ev, Elv. cbn [negb].
    rewrite (fetch_node_get m _ pl1 Eg1 El1).
    apply (IH m req {| nid := n; val := Some pl |} _ pl1 c n' more
             Eg1 El1 Hc Ht).
Qed.

(** A request whose path leads through a traversable prefix: the walk of
    [mstor_do_path_operation] continues after the prefix. *)
Lemma path_walk_prefix (m : mstor) (req : mreq) (pre more : list string)
  (p : Z) :
  request_path req = Some (pre ++ more) ->
  reaches (ldb m) (ruser req) pre = Some p ->
  exists pnode pl pcomp,
    leveldb_get (ldb m) (node_key p) = Some pl
    /\ length pl = sizeof_mnode_payload
    /\ mstor_do_path_operation m req =
       match walk m (flagged req) pnode {| nid := p; val := Some pl |}
               pcomp more with
       | None => None
       | Some (Returned ret m1 r) => Some (ret, m1, r)
       | Some (Reached m1 req1 pnode1 cnode1 pcomp1) =>
           match op req1 with
           | MSTOR_OP_CREAT _ _ => Some (- EEXIST, m1, RNone)
           | MSTOR_OP_OPEN atime => Some (mstor_do_open m1 req1 atime cnode1)
           | MSTOR_OP_CHUNKFIND start end_ max_cinfos =>
               Some (mstor_do_chunkfind m1 req1 start end_ max_cinfos cnode1)
           | MSTOR_OP_MKDIRS _ _ => Some (0, m1, RNone)
           | MSTOR_OP_LISTDIR out_len =>
               Some (mstor_do_listdir m1 req1 out_len cnode1)
           | MSTOR_OP_STAT out_len =>
               Some (mstor_do_stat m1 req1 out_len pcomp1 pnode1 cnode1)
           | MSTOR_OP_CHMOD mode => Some (mstor_do_chmod m1 req1 mode cnode1)
           | MSTOR_OP_CHOWN new_user new_group =>
               Some (mstor_do_chown m1 req1 new_user new_group cnode1)
           | MSTOR_OP_UTIMES atime mtime =>
               Some (mstor_do_utimes m1 req1 atime mtime cnode1)
           | MSTOR_OP_RMDIR rmr =>
               Some (mstor_do_rmdir m1 req1 rmr pcomp1 cnode1 pnode1)
           | MSTOR_OP_CHUNKALLOC _ _ => None
           | _ => Some (- ENOTSUP, m1, RNone)
           end
       end.
Proof.
  unfold request_path, reaches, mstor_do_path_operation.
  intros Hp Hr.
  change (if uid (ruser (set_flags req MREQ_FLAG_CHECK_PERMS)) =? RF_SUPERUSER_UID
          then set_flags (set_flags req MREQ_FLAG_CHECK_PERMS)
                 (Z.land (flags (set_flags req MREQ_FLAG_CHECK_PERMS))
                    (Z.lnot MREQ_FLAG_CHECK_PERMS))
          else set_flags req MREQ_FLAG_CHECK_PERMS) with (flagged req).
  destruct (flagged_check_perms req) as (Hc & Hu & Ho).
  replace (full_path (flagged req)) with (full_path req)
    by (unfold flagged; destruct (uid (ruser req) =? RF_SUPERUSER_UID);
        reflexivity).
  destruct (strlen (full_path req) >=? RF_PATH_MAX); [discriminate|].
  destruct (canonicalize_path (full_path req)) as [ret path].
  destruct (ret =? 0) eqn:Eret; [|discriminate]. cbn [negb].
  destruct (path_components path) as [pc comps'] eqn:Epc.
  cbn [snd] in Hp. inversion Hp; subst comps'; clear Hp.
  destruct (leveldb_get (ldb m) (node_key MSTOR_ROOT_NID)) as [rpl|] eqn:Er;
    [|discriminate].
  destruct (length rpl =? sizeof_mnode_payload)%nat eqn:Erl; [|discriminate].
  apply Nat.eqb_eq in Erl.
  rewrite (fetch_node_get m _ rpl Er Erl).
  rewrite <- Hu in Hr.
  destruct (walk_prefix pre m (flagged req) mnode_zero MSTOR_ROOT_NID rpl
              pc p more Er Erl Hc Hr) as (pnode & pl & pcomp & Hw & Hg & Hl).
  exists pnode, pl, pcomp. rewrite Hw.
  split; [exact Hg|]. split; [exact Hl|].
  destruct (walk m (flagged req) pnode {| nid := p; val := Some pl |} pcomp more)
    as [[ret' m1 r|m1 req1 pnode1 cnode1 pcomp1]|]; reflexivity.
Qed.

Lemma fetch_child_missing (m : mstor) (req : mreq) (c : string) (n : Z)
  (pl : bytes) :
  check_perms req = negb (uid (ruser req) =? RF_SUPERUSER_UID) ->
  node_is_dir pl = true ->
  allowed pl (ruser req) MSTOR_PERM_EXEC = true ->
  leveldb_get (ldb m) (child_key n c) = None ->
  mstor_fetch_child m req c {| nid := n; val := Some pl |} = Failed (- ENOENT).
Proof.
  intros Hc Hd Ha Hg. unfold mstor_fetch_child.
  rewrite (mode_check_enter n pl req Hc Hd Ha). cbn [negb Z.eqb nid].
  rewrite Hg. reflexivity.
Qed.

(** X8: a missing component is [-ENOENT].  When the path leads through
    existing directories the caller may enter to a directory that has no
    entry for the next component, every operation but [mkdirs] (and but
    [creat] on the last component) returns [-ENOENT] and leaves the store
    as it was; [creat] does so whenever components follow the missing
    one. *)
Theorem missing_component_is_enoent (m : mstor) (req : mreq) (u : user)
  (pre : list string) (c : string) (rest : list string) (p : Z)
  (ppl : bytes) :
  udata_lookup_user (udir m) (user_name req) = inl u ->
  request_path req = Some (pre ++ c :: rest) ->
  reaches (ldb m) u pre = Some p ->
  leveldb_get (ldb m) (node_key p) = Some ppl ->
  node_is_dir ppl = true ->
  allowed ppl u MSTOR_PERM_EXEC = true ->
  leveldb_get (ldb m) (child_key p c) = None ->
  match op req with
  | MSTOR_OP_MKDIRS _ _ => False
  | MSTOR_OP_CHUNKALLOC _ _ => False
  | MSTOR_OP_CREAT _ _ => rest <> []
  | _ => True
  end ->
  mstor_do_operation m req = Some (- ENOENT, m, RNone).
Proof.
  intros Hu Hp Hr Hg Hd Ha Hc Hop. unfold mstor_do_operation. rewrite Hu.
  destruct (path_walk_prefix m (set_user req u) pre (c :: rest) p Hp Hr)
    as (pnode & pl & pcomp & Hg' & _ & Hw).
  rewrite Hg in Hg'. inversion Hg'; subst pl; clear Hg'.
  destruct (flagged_check_perms (set_user req u)) as (Hcp & Hru & Ho).
  change (op (set_user req u)) with (op req) in *.
  assert (Hwalk : walk m (flagged (set_user req u)) pnode
                    {| nid := p; val := Some ppl |} pcomp (c :: rest)
                  = Some (Returned (- ENOENT) m RNone)).
  { cbn [walk].
    rewrite (fetch_child_missing m _ c p ppl Hcp Hd); [|rewrite Hru; exact Ha
                                                      |exact Hc].
    rewrite Z.eqb_refl, Ho.
    destruct (op req); try reflexivity; try contradiction.
    destruct rest; [congruence|reflexivity]. }
  rewrite Hwalk in Hw.
  destruct (op req); try contradiction; exact Hw.
Qed.

(** X9: [creat] never replaces what exists.  On a path the caller can
    traverse to an existing node, a file or a directory, it returns
    [-EEXIST] and leaves the store as it was. *)
Theorem creat_existing_is_eexist (m : mstor) (req : mreq) (u : user)
  (comps : list string) (n mode ctime : Z) :
  udata_lookup_user (udir m) (user_name req) = inl u ->
  op req = MSTOR_OP_CREAT mode ctime ->
  request_path req = Some comps ->
  reaches (ldb m) u comps = Some n ->
  mstor_do_operation m req = Some (- EEXIST, m, RNone).
Proof.
  intros Hu Hop Hp Hr. unfold mstor_do_operation. rewrite Hu.
  change (op (set_user req u)) with (op req). rewrite Hop.
  destruct (path_walk_reaches m (set_user req u) comps n Hp Hr)
    as (pnode & pl & pcomp & _ & _ & _ & _ & Hw).
  rewrite Hw. change (op (set_user req u)) with (op req). rewrite Hop.
  reflexivity.
Qed.

End WalkMoreFacts.

(** ** Creating nodes through the walker *)

Section CreateFacts.
Context {P : Platform}.

Lemma forallb_put (f : entry -> bool) (d : db) (k v : bytes) :
  forallb f d = true -> f (k, v) = true ->
  forallb f (leveldb_put d k v) = true.
Proof.
  intros Hd Hk. induction d as [|[k0 v0] d IH]; cbn.
  - rewrite Hk. reflexivity.
  - cbn in Hd. apply andb_true_iff in Hd. destruct Hd as [H0 Hd].
    destruct (key_compare k k0); cbn; rewrite ?Hk, ?H0, ?Hd, ?IH; auto.
Qed.

Lemma ids_below_mono (d : db) (b b' : Z) :
  ids_below d b = true -> b <= b' -> ids_below d b' = true.
Proof.
  unfold ids_below. rewrite !forallb_forall. intros H Hb e Hin.
  specialize (H e Hin).
  destruct ((hd 0 (fst e) =? tag_n) || (hd 0 (fst e) =? tag_c));
    [|reflexivity].
  apply Z.ltb_lt in H. apply Z.ltb_lt. lia.
Qed.

(** The id of a stored node key or child key, cut to 64 bits, is below the
    bound. *)
Lemma ids_below_stored (d : db) (b id : Z) (rest v : bytes) (t : Z) :
  ids_below d b = true ->
  t = tag_n \/ t = tag_c ->
  leveldb_get d (t :: pack_to_be64 id ++ rest) = Some v ->
  id mod two64 < b.
Proof.
  intros H Ht Hg. apply get_Some_In in Hg. unfold ids_below in H.
  rewrite forallb_forall in H. specialize (H _ Hg). cbn [fst hd] in H.
  replace ((t =? tag_n) || (t =? tag_c)) with true in H
    by (destruct Ht; subst; reflexivity).
  cbn [skipn] in H. unfold unpack_from_be64, pack_to_be64 in H.
  rewrite unpack_pack in H. apply Z.ltb_lt in H. exact H.
Qed.

Lemma ids_below_unused (d : db) (b id : Z) :
  ids_below d b = true -> 0 <= id -> b <= id < two64 ->
  leveldb_get d (node_key id) = None
  /\ forall name, leveldb_get d (child_key id name) = None.
Proof.
  intros H H0 Hid. split; [|intros name].
  - destruct (leveldb_get d (node_key id)) as [v|] eqn:E; [|reflexivity].
    unfold node_key in E. rewrite <- (app_nil_r (pack_to_be64 id)) in E.
    apply (ids_below_stored d b id [] v tag_n H (or_introl eq_refl)) in E.
    rewrite Z.mod_small in E by lia. lia.
  - destruct (leveldb_get d (child_key id name)) as [v|] eqn:E; [|reflexivity].
    unfold child_key, child_prefix in E. cbn [app] in E.
    apply (ids_below_stored d b id _ v tag_c H (or_intror eq_refl)) in E.
    rewrite Z.mod_small in E by lia. lia.
Qed.

Lemma db_extends_refl (d : db) : db_extends d d.
Proof. intros k v H. exact H. Qed.

Lemma db_extends_trans (d1 d2 d3 : db) :
  db_extends d1 d2 -> db_extends d2 d3 -> db_extends d1 d3.
Proof. intros H1 H2 k v H. apply H2, H1, H. Qed.

Lemma db_extends_put (d : db) (k v : bytes) :
  leveldb_get d k = None -> db_extends d (leveldb_put d k v).
Proof.
  intros Hn k' v' Hg. rewrite get_put_other; [exact Hg|].
  intros ->. congruence.
Qed.

Lemma resolve_extends (d d' : db) (comps : list string) :
  db_extends d d' ->
  forall n x, resolve d n comps = Some x -> resolve d' n comps = Some x.
Proof.
  intros He. induction comps as [|c rest IH]; intros n x H; [exact H|].
  cbn [resolve] in *.
  destruct (leveldb_get d (child_key n c)) as [v|] eqn:Ev; [|discriminate].
  rewrite (He _ _ Ev).
  destruct (leveldb_get d (node_key (unpack_from_be64 v))) as [pl|] eqn:Eg;
    [|discriminate].
  rewrite (He _ _ Eg). apply IH. exact H.
Qed.

Lemma traverse_resolve (d : db) (u : user) (comps : list string) :
  forall n x, traverse d u n comps = Some x -> resolve d n comps = Some x.
Proof.
  induction comps as [|c rest IH]; intros n x H; [exact H|].
  cbn [traverse resolve] in *.
  destruct (leveldb_get d (node_key n)) as [pl|]; [|discriminate].
  destruct (_ && _); [|discriminate].
  destruct (leveldb_get d (child_key n c)) as [v|]; [|discriminate].
  destruct (length v =? 8)%nat; [|discriminate].
  destruct (leveldb_get d (node_key (unpack_from_be64 v))) as [pl'|];
    [|discriminate].
  destruct (length pl' =? sizeof_mnode_payload)%nat; [|discriminate].
  apply IH. exact H.
Qed.

Lemma resolve_app (d : db) (pre more : list string) :
  forall n p x,
    resolve d n pre = Some p -> resolve d p more = Some x ->
    resolve d n (pre ++ more) = Some x.
Proof.
  induction pre as [|c rest IH]; intros n p x H1 H2.
  - cbn in H1. inversion H1; subst. exact H2.
  - cbn [resolve app] in *.
    destruct (leveldb_get d (child_key n c)) as [v|]; [|discriminate].
    destruct (leveldb_get d (node_key (unpack_from_be64 v))); [|discriminate].
    eapply IH; eauto.
Qed.

(** A caller who is allowed passes the check. *)
Lemma mode_check_allowed (n : Z) (pl : bytes) (req : mreq) (p : Z) :
  0 <= p < 8 ->
  check_perms req = negb (uid (ruser req) =? RF_SUPERUSER_UID) ->
  node_is_dir pl = true ->
  allowed pl (ruser req) p = true ->
  mstor_mode_check {| nid := n; val := Some pl |} req (Z.lor p MNODE_IS_DIR)
    = 0.
Proof.
  intros Hp Hc Hd Ha.
  change (Z.lor p MNODE_IS_DIR)
    with (Z.lor p (if true then MNODE_IS_DIR else 0)).
  rewrite mode_check_spec by exact Hp. cbn [hdr val].
  rewrite Hd, Hc. cbn [negb andb]. rewrite negb_involutive.
  unfold allowed in Ha.
  destruct (uid (ruser req) =? RF_SUPERUSER_UID); [reflexivity|].
  cbn [orb] in Ha. rewrite Ha. reflexivity.
Qed.

(** With the check switched off only the type is tested. *)
Lemma mode_check_unchecked_dir (n : Z) (pl : bytes) (req : mreq) (p : Z) :
  0 <= p < 8 ->
  check_perms req = false ->
  node_is_dir pl = true ->
  mstor_mode_check {| nid := n; val := Some pl |} req (Z.lor p MNODE_IS_DIR)
    = 0.
Proof.
  intros Hp Hc Hd.
  change (Z.lor p MNODE_IS_DIR)
    with (Z.lor p (if true then MNODE_IS_DIR else 0)).
  rewrite mode_check_spec by exact Hp. cbn [hdr val].
  rewrite Hd, Hc. reflexivity.
Qed.

Lemma cleared_flags_unchecked (req : mreq) :
  check_perms
    (set_flags req (Z.land (flags req) (Z.lnot MREQ_FLAG_CHECK_PERMS)))
  = false.
Proof.
  unfold check_perms. cbn [flags set_flags].
  rewrite <- Z.land_assoc.
  change (Z.land (Z.lnot MREQ_FLAG_CHECK_PERMS) MREQ_FLAG_CHECK_PERMS) with 0.
  rewrite Z.land_0_r. reflexivity.
Qed.

(** A mode with the directory flag or-ed in is a directory's. *)
Lemma dir_mode_is_dir (mode : Z) :
  negb (Z.land ((Z.lor mode MNODE_IS_DIR) mod two16) MNODE_IS_DIR =? 0) = true.
Proof.
  apply negb_true_iff, Z.eqb_neq. intros H.
  assert (Hb : Z.testbit (Z.land ((Z.lor mode MNODE_IS_DIR) mod two16)
                            MNODE_IS_DIR) 15 = true).
  { rewrite Z.land_spec. unfold two16.
    rewrite Z.mod_pow2_bits_low by lia. rewrite Z.lor_spec.
    change MNODE_IS_DIR with (2 ^ 15).
    rewrite Z.pow2_bits_eqb by lia. rewrite Z.eqb_refl.
    rewrite orb_true_r. reflexivity. }
  rewrite H in Hb. rewrite Z.bits_0 in Hb. discriminate.
Qed.

(** The store after [mstor_make_node] has put its two records. *)
Lemma make_node_effect (m m' : mstor) (mode mtime atime uid_ gid_ : Z)
  (pcomp : string) (n : Z) (pl : bytes) (cnode : mnode) :
  mstor_make_node m mode mtime atime uid_ gid_ pcomp
    {| nid := n; val := Some pl |} = Some (0, m', cnode) ->
  leveldb_get (ldb m) (node_key n) = Some pl ->
  leveldb_get (ldb m) (child_key n pcomp) = None ->
  ids_below (ldb m) (next_nid m) = true ->
  0 <= next_nid m ->
  exists body,
    cnode = {| nid := next_nid m; val := Some body |}
    /\ next_nid m < MSTOR_NID_MAX
    /\ next_nid m' = next_nid m + 1
    /\ db_extends (ldb m) (ldb m')
    /\ ids_below (ldb m') (next_nid m') = true
    /\ leveldb_get (ldb m') (child_key n pcomp)
       = Some (pack_to_be64 (next_nid m))
    /\ leveldb_get (ldb m') (node_key (next_nid m)) = Some body
    /\ (forall name, leveldb_get (ldb m') (child_key (next_nid m) name) = None)
    /\ length body = sizeof_mnode_payload
    /\ payload_mode_and_type body = mode mod two16
    /\ payload_mtime body = mtime mod two64
    /\ payload_atime body = atime mod two64
    /\ payload_uid body = uid_ mod two32
    /\ payload_gid body = gid_ mod two32
    /\ payload_length body = 0.
Proof.
  intros Hm Hgn Hgc Hids H0.
  destruct (make_node_cases _ _ _ _ _ _ _ _ _ _ _ Hm)
    as (Hle & Hnext & [(Hr & _)|(_ & Hne & Hnid & body & Hval & Hl & Hf)]);
    [discriminate Hr|].
  destruct Hf as (F1 & F2 & F3 & F4 & F5 & F6 & Hdb). cbn [nid] in Hdb.
  assert (Hrange : next_nid m <= next_nid m < two64)
    by (unfold two64, MSTOR_NID_MAX in *; lia).
  destruct (ids_below_unused _ _ _ Hids H0 Hrange) as [Hun Huc].
  assert (Hpar : n mod two64 < next_nid m).
  { unfold node_key in Hgn. rewrite <- (app_nil_r (pack_to_be64 n)) in Hgn.
    exact (ids_below_stored _ _ _ _ _ tag_n Hids (or_introl eq_refl) Hgn). }
  assert (Hnext' : next_nid m' = next_nid m + 1).
  { rewrite Hnext. apply Z.mod_small. unfold two64, MSTOR_NID_MAX in *. lia. }
  assert (Hkeys : node_key (next_nid m) <> child_key n pcomp)
    by (unfold node_key, child_key, child_prefix, tag_n, tag_c; cbn;
        congruence).
  exists body. split; [destruct cnode; cbn in *; congruence|].
  split; [lia|]. split; [exact Hnext'|].
  split.
  { rewrite Hdb. eapply db_extends_trans.
    - apply db_extends_put. exact Hgc.
    - apply db_extends_put. rewrite get_put_other by congruence. exact Hun. }
  split.
  { rewrite Hdb, Hnext'. unfold ids_below.
    apply forallb_put; [apply forallb_put|].
    - apply (ids_below_mono _ _ _ Hids). lia.
    - cbn [fst]. unfold child_key, child_prefix. cbn [app hd skipn].
      change ((tag_c =? tag_n) || (tag_c =? tag_c)) with true. cbv iota.
      unfold unpack_from_be64, pack_to_be64. rewrite unpack_pack.
      apply Z.ltb_lt. change (256 ^ Z.of_nat 8) with two64. lia.
    - cbn [fst]. unfold node_key. cbn [hd skipn].
      change ((tag_n =? tag_n) || (tag_n =? tag_c)) with true. cbv iota.
      rewrite <- (app_nil_r (pack_to_be64 (next_nid m))).
      rewrite unpack_pack64 by lia. apply Z.ltb_lt. lia. }
  split.
  { rewrite Hdb, get_put_other, get_put_same by congruence. reflexivity. }
  split; [rewrite Hdb; apply get_put_same|].
  split; [|auto 10].
  intros name. rewrite Hdb.
  rewrite get_put_other
    by (unfold node_key, child_key, child_prefix, tag_n, tag_c; cbn;
        congruence).
  rewrite get_put_other; [apply Huc|].
  intros Hu. apply (f_equal (fun k => unpack_from_be64 (skipn 1 k))) in Hu.
  unfold child_key, child_prefix in Hu. cbn [app skipn] in Hu.
  unfold unpack_from_be64, pack_to_be64 in Hu. rewrite !unpack_pack in Hu.
  change (256 ^ Z.of_nat 8) with two64 in Hu.
  rewrite (Z.mod_small (next_nid m)) in Hu by lia. lia.
Qed.

End CreateFacts.

Section CreateTheorems.
Context {P : Platform}.

Lemma reaches_resolve (d : db) (u : user) (comps : list string) (n : Z) :
  reaches d u comps = Some n -> resolve d MSTOR_ROOT_NID comps = Some n.
Proof.
  unfold reaches.
  destruct (leveldb_get d (node_key MSTOR_ROOT_NID)); [|discriminate].
  destruct (_ =? _)%nat; [|discriminate].
  apply traverse_resolve.
Qed.

Lemma traverse_extends (d d' : db) (u : user) (comps : list string) :
  db_extends d d' ->
  forall n x, traverse d u n comps = Some x -> traverse d' u n comps = Some x.
Proof.
  intros He. induction comps as [|c rest IH]; intros n x H; [exact H|].
  cbn [traverse] in *.
  destruct (leveldb_get d (node_key n)) as [pl|] eqn:Eg; [|discriminate].
  rewrite (He _ _ Eg).
  destruct (_ && _); [|discriminate].
  destruct (leveldb_get d (child_key n c)) as [v|] eqn:Ev; [|discriminate].
  rewrite (He _ _ Ev).
  destruct (length v =? 8)%nat; [|discriminate].
  destruct (leveldb_get d (node_key (unpack_from_be64 v))) as [pl1|] eqn:Eg1;
    [|discriminate].
  rewrite (He _ _ Eg1).
  destruct (length pl1 =? sizeof_mnode_payload)%nat; [|discriminate].
  apply IH. exact H.
Qed.

Lemma traverse_app (d : db) (u : user) (pre more : list string) :
  forall n p x,
    traverse d u n pre = Some p -> traverse d u p more = Some x ->
    traverse d u n (pre ++ more) = Some x.
Proof.
  induction pre as [|c rest IH]; intros n p x H1 H2.
  - cbn in H1. inversion H1; subst. exact H2.
  - cbn [traverse app] in *.
    destruct (leveldb_get d (node_key n)) as [pl|]; [|discriminate].
    destruct (_ && _); [|discriminate].
    destruct (leveldb_get d (child_key n c)) as [v|]; [|discriminate].
    destruct (length v =? 8)%nat; [|discriminate].
    destruct (leveldb_get d (node_key (unpack_from_be64 v))) as [pl1|];
      [|discriminate].
    destruct (length pl1 =? sizeof_mnode_payload)%nat; [|discriminate].
    eapply IH; eauto.
Qed.

(** A path that was reachable stays so when records are only added, and
    is extended by a child of a directory the caller may enter. *)
Lemma reaches_child (d d' : db) (u : user) (pre : list string) (c : string)
  (p id : Z) (ppl body : bytes) :
  db_extends d d' ->
  reaches d u pre = Some p ->
  leveldb_get d (node_key p) = Some ppl ->
  length ppl = sizeof_mnode_payload ->
  node_is_dir ppl = true ->
  allowed ppl u MSTOR_PERM_EXEC = true ->
  leveldb_get d' (child_key p c) = Some (pack_to_be64 id) ->
  0 <= id < two64 ->
  leveldb_get d' (node_key id) = Some body ->
  length body = sizeof_mnode_payload ->
  reaches d' u (pre ++ [c]) = Some id.
Proof.
  intros He Hr Hg Hl Hd Ha Hc Hid Hn Hb. unfold reaches in *.
  destruct (leveldb_get d (node_key MSTOR_ROOT_NID)) as [rpl|] eqn:Er;
    [|discriminate].
  rewrite (He _ _ Er).
  destruct (length rpl =? sizeof_mnode_payload)%nat; [|discriminate].
  eapply traverse_app; [eapply traverse_extends; eauto|].
  cbn [traverse]. rewrite (He _ _ Hg), Hl, Nat.eqb_refl, Hd.
  unfold allowed in Ha. rewrite Ha. cbn [andb]. rewrite Hc.
  change (length (pack_to_be64 id) =? 8)%nat with true. cbv iota.
  rewrite <- (app_nil_r (pack_to_be64 id)), unpack_pack64 by exact Hid.
  rewrite Hn, Hb, Nat.eqb_refl. reflexivity.
Qed.

(** The walk of [mkdirs] from a directory whose next component is missing:
    every remaining component is created below the one before it. *)
Lemma mkdirs_walk_creates (more : list string) :
  forall (m : mstor) (req : mreq) (pnode : mnode) (n : Z) (pl : bytes)
         (pcomp : string) (mode ctime : Z),
    op req = MSTOR_OP_MKDIRS mode ctime ->
    leveldb_get (ldb m) (node_key n) = Some pl ->
    mstor_mode_check {| nid := n; val := Some pl |} req
      (Z.lor MSTOR_PERM_EXEC MNODE_IS_DIR) = 0 ->
    mstor_mode_check {| nid := n; val := Some pl |} req
      (Z.lor MSTOR_PERM_WRITE MNODE_IS_DIR) = 0 ->
    match more with
    | c :: _ => leveldb_get (ldb m) (child_key n c) = None
    | [] => True
    end ->
    ids_below (ldb m) (next_nid m) = true ->
    0 <= next_nid m ->
    next_nid m + Z.of_nat (length more) <= MSTOR_NID_MAX ->
    exists m' req' pnode' last lpl pcomp',
      walk m req pnode {| nid := n; val := Some pl |} pcomp more
        = Some (Reached m' req' pnode' {| nid := last; val := Some lpl |}
                  pcomp')
      /\ op req' = op req
      /\ db_extends (ldb m) (ldb m')
      /\ next_nid m' = next_nid m + Z.of_nat (length more)
      /\ ids_below (ldb m') (next_nid m') = true
      /\ resolve (ldb m') n more = Some last
      /\ leveldb_get (ldb m') (node_key last) = Some lpl
      /\ (more <> [] ->
          last = next_nid m + Z.of_nat (length more) - 1
          /\ payload_mode_and_type lpl = (Z.lor mode MNODE_IS_DIR) mod two16
          /\ payload_uid lpl = uid (ruser req) mod two32
          /\ payload_gid lpl = gid (ruser req) mod two32
          /\ payload_mtime lpl = ctime mod two64
          /\ payload_atime lpl = ctime mod two64).
Proof.
  induction more as [|c rest IH];
    intros m req pnode n pl pcomp mode ctime Hop Hg Hx Hw Hmiss Hids H0 Hmax.
  - exists m, req, pnode, n, pl, pcomp. cbn [walk length Z.of_nat resolve].
    rewrite Z.add_0_r.
    repeat (split; [first [reflexivity | assumption | apply db_extends_refl]|]).
    congruence.
  - cbn [length] in Hmax. rewrite Nat2Z.inj_succ in Hmax.
    cbn [walk]. unfold mstor_fetch_child. rewrite Hx. cbn [negb Z.eqb nid].
    rewrite Hmiss, Z.eqb_refl, Hop. unfold mstor_do_mkdir. rewrite Hw.
    cbn [negb Z.eqb].
    destruct (mstor_make_node m (Z.lor mode MNODE_IS_DIR) ctime ctime
                (uid (ruser req)) (gid (ruser req)) c
                {| nid := n; val := Some pl |})
      as [[[r m1] cn]|] eqn:Emk.
    2:{ exfalso. unfold mstor_make_node, mstor_next_nid in Emk.
        destruct (next_nid m >? MSTOR_NID_MAX) eqn:E.
        - rewrite Z.gtb_ltb in E. apply Z.ltb_lt in E. lia.
        - destruct (next_nid m =? MSTOR_NID_MAX); discriminate. }
    assert (Hr : r = 0).
    { destruct (make_node_cases _ _ _ _ _ _ _ _ _ _ _ Emk)
        as (_ & _ & [(_ & He & _)|(Hr & _)]); [lia|exact Hr]. }
    subst r. cbn [negb Z.eqb].
    destruct (make_node_effect _ _ _ _ _ _ _ _ _ _ _ Emk Hg Hmiss Hids H0)
      as (body & Hcn & Hlt & Hnext & Hext & Hids1 & Hchild & Hnode & Hfresh
          & Hlen & Fm & Fmt & Fat & Fu & Fg & Fl).
    subst cn.
    set (req1 := set_flags req
                   (Z.land (flags req) (Z.lnot MREQ_FLAG_CHECK_PERMS))).
    assert (Hdir : node_is_dir body = true)
      by (unfold node_is_dir; rewrite Fm; apply dir_mode_is_dir).
    assert (Hc1 : check_perms req1 = false)
      by apply cleared_flags_unchecked.
    destruct (IH m1 req1 {| nid := n; val := Some pl |} (next_nid m) body c
                mode ctime Hop Hnode
                (mode_check_unchecked_dir _ body req1 MSTOR_PERM_EXEC
                   ltac:(cbv; split; congruence) Hc1 Hdir)
                (mode_check_unchecked_dir _ body req1 MSTOR_PERM_WRITE
                   ltac:(cbv; split; congruence) Hc1 Hdir)
                ltac:(destruct rest; [exact I|apply Hfresh])
                Hids1 ltac:(lia) ltac:(lia))
      as (m' & req' & pnode' & last & lpl & pcomp' & Hwalk & Hop' & Hext'
          & Hnext' & Hids' & Hres & Hlast & Hnew).
    exists m', req', pnode', last, lpl, pcomp'.
    split; [exact Hwalk|]. split; [exact (eq_trans Hop' Hop)|].
    split; [eapply db_extends_trans; eauto|].
    split; [cbn [length]; rewrite Hnext', Hnext, Nat2Z.inj_succ; lia|].
    split; [exact Hids'|].
    split.
    { cbn [resolve]. rewrite (Hext' _ _ Hchild).
      rewrite <- (app_nil_r (pack_to_be64 (next_nid m))).
      rewrite unpack_pack64
        by (unfold two64, MSTOR_NID_MAX in *; lia).
      rewrite (Hext' _ _ Hnode). exact Hres. }
    split; [exact Hlast|].
    intros _. destruct rest as [|c2 rest].
    + cbn [walk] in Hwalk. inversion Hwalk; subst.
      cbn [length]. repeat split; auto. lia.
    + destruct (Hnew ltac:(discriminate)) as (E1 & E2).
      split; [|exact E2].
      rewrite E1, Hnext. cbn [length]. rewrite !Nat2Z.inj_succ. lia.
Qed.

(** X10: [mkdirs] creates every missing directory of the path.  When
    every component of the path fits the key buffer and the
    path leads through directories the caller may enter to a directory the
    caller may write to, whose next component is missing, and the store's
    keys lie below the node counter, the call returns 0, every record that
    was there still is, the counter has advanced by the number of
    components created, the whole path now names the last node created,
    and that node is a directory with the requested mode, owned by the
    caller. *)
Theorem mkdirs_creates_missing_components (m : mstor) (req : mreq) (u : user)
  (pre : list string) (c : string) (rest : list string) (p : Z)
  (ppl : bytes) (mode ctime : Z) :
  udata_lookup_user (udir m) (user_name req) = inl u ->
  op req = MSTOR_OP_MKDIRS mode ctime ->
  request_path req = Some (pre ++ c :: rest) ->
  Forall (fun s => name_fits s) (pre ++ c :: rest) ->
  reaches (ldb m) u pre = Some p ->
  leveldb_get (ldb m) (node_key p) = Some ppl ->
  node_is_dir ppl = true ->
  allowed ppl u MSTOR_PERM_EXEC = true ->
  allowed ppl u MSTOR_PERM_WRITE = true ->
  leveldb_get (ldb m) (child_key p c) = None ->
  ids_below (ldb m) (next_nid m) = true ->
  0 <= next_nid m ->
  next_nid m + 1 + Z.of_nat (length rest) <= MSTOR_NID_MAX ->
  exists m',
    mstor_do_operation m req = Some (0, m', RNone)
    /\ db_extends (ldb m) (ldb m')
    /\ next_nid m' = next_nid m + 1 + Z.of_nat (length rest)
    /\ ids_below (ldb m') (next_nid m') = true
    /\ resolve (ldb m') MSTOR_ROOT_NID (pre ++ c :: rest)
       = Some (next_nid m + Z.of_nat (length rest))
    /\ let lpl := node_payload (ldb m')
                    (next_nid m + Z.of_nat (length rest)) in
       node_is_dir lpl = true
       /\ payload_mode_and_type lpl = (Z.lor mode MNODE_IS_DIR) mod two16
       /\ payload_uid lpl = uid u mod two32
       /\ payload_gid lpl = gid u mod two32
       /\ payload_mtime lpl = ctime mod two64
       /\ payload_atime lpl = ctime mod two64.
Proof.
  intros Hu Hop Hp Hfit Hr Hg Hd Hax Haw Hc Hids H0 Hmax.
  unfold mstor_do_operation. rewrite Hu.
  change (op (set_user req u)) with (op req). rewrite Hop.
  destruct (path_walk_prefix m (set_user req u) pre (c :: rest) p Hp Hr)
    as (pnode & pl & pcomp & Hg' & _ & Hw).
  rewrite Hg in Hg'. inversion Hg'; subst pl; clear Hg'.
  destruct (flagged_check_perms (set_user req u)) as (Hcp & Hru & Ho).
  change (op (set_user req u)) with (op req) in Ho.
  change (ruser (set_user req u)) with u in Hru.
  rewrite Hru in Hcp.
  assert (Hopf : op (flagged (set_user req u)) = MSTOR_OP_MKDIRS mode ctime)
    by congruence.
  destruct (mkdirs_walk_creates (c :: rest) m (flagged (set_user req u)) pnode
              p ppl pcomp mode ctime Hopf Hg
              (mode_check_allowed p ppl _ MSTOR_PERM_EXEC
                 ltac:(cbv; split; congruence)
                 ltac:(rewrite Hru; exact Hcp) Hd
                 ltac:(rewrite Hru; exact Hax))
              (mode_check_allowed p ppl _ MSTOR_PERM_WRITE
                 ltac:(cbv; split; congruence)
                 ltac:(rewrite Hru; exact Hcp) Hd
                 ltac:(rewrite Hru; exact Haw))
              Hc Hids H0
              ltac:(cbn [length]; rewrite Nat2Z.inj_succ; lia))
    as (m' & req' & pnode' & last & lpl & pcomp' & Hwalk & Hop' & Hext
        & Hnext & Hids' & Hres & Hlast & Hnew).
  rewrite Hwalk in Hw. rewrite Hop', Hopf in Hw.
  destruct (Hnew ltac:(discriminate)) as (E1 & E2 & E3 & E4 & E5 & E6).
  cbn [length] in E1, Hnext. rewrite Nat2Z.inj_succ in E1, Hnext.
  assert (El : last = next_nid m + Z.of_nat (length rest)) by lia.
  clear E1. subst last.
  exists m'. split; [exact Hw|]. split; [exact Hext|].
  split; [lia|]. split; [exact Hids'|].
  split.
  { eapply resolve_app; [|exact Hres].
    eapply resolve_extends; [exact Hext|]. eapply reaches_resolve; eauto. }
  cbv zeta. unfold node_payload. rewrite Hlast.
  rewrite Hru in E3, E4.
  repeat split; auto.
  unfold node_is_dir. rewrite E2. apply dir_mode_is_dir.
Qed.

(** X11: [creat] makes the file.  When every component of the path fits
    the key buffer and the path leads through directories
    the caller may enter to a directory the caller may write to, which has
    no entry for the last component, and the store's keys lie below the
    node counter, the call returns 0 and the id of the new node, which is
    the old counter; every record that was there still is, the path now
    names the new node and the caller can traverse to it, and the node has
    the requested mode, times and the caller as owner, and length 0. *)
Theorem creat_makes_file (m : mstor) (req : mreq) (u : user)
  (pre : list string) (c : string) (p : Z) (ppl : bytes) (mode ctime : Z) :
  udata_lookup_user (udir m) (user_name req) = inl u ->
  op req = MSTOR_OP_CREAT mode ctime ->
  request_path req = Some (pre ++ [c]) ->
  Forall (fun s => name_fits s) (pre ++ [c]) ->
  reaches (ldb m) u pre = Some p ->
  leveldb_get (ldb m) (node_key p) = Some ppl ->
  node_is_dir ppl = true ->
  allowed ppl u MSTOR_PERM_EXEC = true ->
  allowed ppl u MSTOR_PERM_WRITE = true ->
  leveldb_get (ldb m) (child_key p c) = None ->
  ids_below (ldb m) (next_nid m) = true ->
  0 <= next_nid m < MSTOR_NID_MAX ->
  exists m',
    mstor_do_operation m req = Some (0, m', RNid (next_nid m))
    /\ db_extends (ldb m) (ldb m')
    /\ next_nid m' = next_nid m + 1
    /\ ids_below (ldb m') (next_nid m') = true
    /\ resolve (ldb m') MSTOR_ROOT_NID (pre ++ [c]) = Some (next_nid m)
    /\ reaches (ldb m') u (pre ++ [c]) = Some (next_nid m)
    /\ let pl := node_payload (ldb m') (next_nid m) in
       payload_mode_and_type pl = mode mod two16
       /\ payload_uid pl = uid u mod two32
       /\ payload_gid pl = gid u mod two32
       /\ payload_mtime pl = ctime mod two64
       /\ payload_atime pl = ctime mod two64
       /\ payload_length pl = 0.
Proof.
  intros Hu Hop Hp Hfit Hr Hg Hd Hax Haw Hc Hids H0.
  unfold mstor_do_operation. rewrite Hu.
  change (op (set_user req u)) with (op req). rewrite Hop.
  destruct (path_walk_prefix m (set_user req u) pre [c] p Hp Hr)
    as (pnode & pl & pcomp & Hg' & Hpl & Hw).
  rewrite Hg in Hg'. inversion Hg'; subst pl; clear Hg'.
  destruct (flagged_check_perms (set_user req u)) as (Hcp & Hru & Ho).
  change (op (set_user req u)) with (op req) in Ho.
  change (ruser (set_user req u)) with u in Hru.
  cbn [walk] in Hw.
  rewrite (fetch_child_missing m _ c p ppl Hcp Hd) in Hw;
    [|rewrite Hru; exact Hax|exact Hc].
  rewrite Z.eqb_refl, Ho, Hop in Hw. unfold mstor_do_creat in Hw.
  rewrite (mode_check_allowed p ppl _ MSTOR_PERM_WRITE) in Hw;
    [|cbv; split; congruence|exact Hcp|exact Hd|rewrite Hru; exact Haw].
  cbn [negb Z.eqb] in Hw. rewrite Hru in Hw.
  destruct (mstor_make_node m mode ctime ctime (uid u) (gid u) c
              {| nid := p; val := Some ppl |})
    as [[[r m1] cn]|] eqn:Emk.
  2:{ exfalso. unfold mstor_make_node, mstor_next_nid in Emk.
      destruct (next_nid m >? MSTOR_NID_MAX) eqn:E.
      - rewrite Z.gtb_ltb in E. apply Z.ltb_lt in E. lia.
      - destruct (next_nid m =? MSTOR_NID_MAX); discriminate. }
  assert (Hr0 : r = 0).
  { destruct (make_node_cases _ _ _ _ _ _ _ _ _ _ _ Emk)
      as (_ & _ & [(_ & He & _)|(Hr0 & _)]); [lia|exact Hr0]. }
  subst r.
  destruct (make_node_effect _ _ _ _ _ _ _ _ _ _ _ Emk Hg Hc Hids
              ltac:(lia))
    as (body & Hcn & Hlt & Hnext & Hext & Hids1 & Hchild & Hnode & Hfresh
        & Hlen & Fm & Fmt & Fat & Fu & Fg & Fl).
  subst cn. cbn [Z.eqb nid] in Hw.
  exists m1. split; [exact Hw|]. split; [exact Hext|].
  split; [exact Hnext|]. split; [exact Hids1|].
  split.
  { eapply resolve_app.
    - eapply resolve_extends; [exact Hext|]. eapply reaches_resolve; eauto.
    - cbn [resolve]. rewrite Hchild.
      rewrite <- (app_nil_r (pack_to_be64 (next_nid m))).
      rewrite unpack_pack64 by (unfold two64, MSTOR_NID_MAX in *; lia).
      rewrite Hnode. reflexivity. }
  split.
  { apply (reaches_child (ldb m) (ldb m1) u pre c p (next_nid m) ppl body);
      auto.
    unfold two64, MSTOR_NID_MAX in *. lia. }
  cbv zeta. unfold node_payload. rewrite Hnode. auto 10.
Qed.

End CreateTheorems.

(** ** Checks on the way and at the target *)

Section AccessFacts.
Context {P : Platform}.

(** X12: the walk checks the type, then the permission.  When components
    follow a node of the path that is not a directory, every path
    operation returns [-ENOTDIR], for the superuser too; when they follow
    a directory the caller may not enter, it returns [-EPERM].  The store
    is left as it was, and neither [creat] nor [mkdirs] creates
    anything. *)
Theorem walk_checks_type_then_permission (m : mstor) (req : mreq)
  (u : user) (pre : list string) (c : string) (rest : list string) (p : Z) :
  udata_lookup_user (udir m) (user_name req) = inl u ->
  (forall n off, op req <> MSTOR_OP_CHUNKALLOC n off) ->
  request_path req = Some (pre ++ c :: rest) ->
  reaches (ldb m) u pre = Some p ->
  allowed (node_payload (ldb m) p) u MSTOR_PERM_EXEC = false
  \/ node_is_dir (node_payload (ldb m) p) = false ->
  mstor_do_operation m req
  = Some (if node_is_dir (node_payload (ldb m) p) then - EPERM
          else - ENOTDIR, m, RNone).
Proof.
  intros Hu Hop Hp Hr Hbad. unfold mstor_do_operation. rewrite Hu.
  destruct (path_walk_prefix m (set_user req u) pre (c :: rest) p Hp Hr)
    as (pnode & pl & pcomp & Hg & _ & Hw).
  unfold node_payload in *. rewrite Hg in *.
  destruct (flagged_check_perms (set_user req u)) as (Hcp & Hru & Ho).
  change (ruser (set_user req u)) with u in Hru.
  assert (Hwalk : walk m (flagged (set_user req u)) pnode
                    {| nid := p; val := Some pl |} pcomp (c :: rest)
                  = Some (Returned (if node_is_dir pl then - EPERM
                                    else - ENOTDIR) m RNone)).
  { cbn [walk]. unfold mstor_fetch_child.
    change (Z.lor MSTOR_PERM_EXEC MNODE_IS_DIR)
      with (Z.lor MSTOR_PERM_EXEC (if true then MNODE_IS_DIR else 0)).
    rewrite mode_check_spec by (cbv; split; congruence). cbn [hdr val].
    rewrite Hcp, Hru. cbn [negb andb].
    destruct (node_is_dir pl); cbn [negb]; [|reflexivity].
    destruct Hbad as [Hbad|Hbad]; [|discriminate].
    unfold allowed in Hbad. apply orb_false_iff in Hbad.
    destruct Hbad as [Hs Hgr]. rewrite Hs, Hgr. reflexivity. }
  rewrite Hwalk in Hw.
  change (op (set_user req u)) with (op req).
  destruct (op req) eqn:E; try exact Hw.
  exfalso. eapply Hop. reflexivity.
Qed.

(** X13: [open] asks for a regular file the caller may read.  On a path
    the caller can traverse, a directory is [-EISDIR], for the superuser
    too; a file the caller may not read is [-EPERM]; in both cases the
    store is left as it was.  Otherwise the call returns 0 and the node's
    id, and rewrites the node's record alone, with the access time set and
    every other field as before. *)
Theorem open_checks_type_then_read (m : mstor) (req : mreq) (u : user)
  (comps : list string) (n atime : Z) :
  udata_lookup_user (udir m) (user_name req) = inl u ->
  op req = MSTOR_OP_OPEN atime ->
  request_path req = Some comps ->
  reaches (ldb m) u comps = Some n ->
  let pl := node_payload (ldb m) n in
  if node_is_dir pl then mstor_do_operation m req = Some (- EISDIR, m, RNone)
  else if allowed pl u MSTOR_PERM_READ then
    exists m',
      mstor_do_operation m req = Some (0, m', RNid n)
      /\ (forall k, k <> node_key n ->
                    leveldb_get (ldb m') k = leveldb_get (ldb m) k)
      /\ next_nid m' = next_nid m /\ next_cid m' = next_cid m
      /\ let pl' := node_payload (ldb m') n in
         length pl' = sizeof_mnode_payload
         /\ payload_atime pl' = atime mod two64
         /\ payload_mtime pl' = payload_mtime pl
         /\ payload_mode_and_type pl' = payload_mode_and_type pl
         /\ payload_uid pl' = payload_uid pl
         /\ payload_gid pl' = payload_gid pl
         /\ payload_length pl' = payload_length pl
  else mstor_do_operation m req = Some (- EPERM, m, RNone).
Proof.
  intros Hu Hop Hp Hr. unfold mstor_do_operation. rewrite Hu.
  change (op (set_user req u)) with (op req). rewrite Hop.
  destruct (path_walk_reaches m (set_user req u) comps n Hp Hr)
    as (pnode & pl & pcomp & Hg & Hl & _ & _ & Hw).
  rewrite Hw. change (op (set_user req u)) with (op req). rewrite Hop.
  destruct (flagged_check_perms (set_user req u)) as (Hcp & Hru & Ho).
  change (ruser (set_user req u)) with u in Hru.
  assert (Hmc : mstor_mode_check {| nid := n; val := Some pl |}
                  (flagged (set_user req u)) MSTOR_PERM_READ
                = if node_is_dir pl then - EISDIR
                  else if allowed pl u MSTOR_PERM_READ then 0 else - EPERM).
  { change MSTOR_PERM_READ
      with (Z.lor MSTOR_PERM_READ (if false then MNODE_IS_DIR else 0)) at 1.
    rewrite mode_check_spec by (cbv; split; congruence). cbn [hdr val].
    rewrite Hcp, Hru. cbn [negb andb]. unfold allowed.
    destruct (node_is_dir pl); [reflexivity|].
    rewrite negb_involutive.
    destruct (uid u =? RF_SUPERUSER_UID); reflexivity. }
  unfold mstor_do_open. cbv zeta. rewrite Hmc.
  unfold node_payload at 1 2. rewrite Hg.
  destruct (node_is_dir pl); [reflexivity|].
  destruct (allowed pl u MSTOR_PERM_READ); [|reflexivity].
  cbn [negb Z.eqb].
  eexists. split; [reflexivity|].
  cbn [ldb set_ldb next_nid next_cid nid].
  split; [intros k Hk; apply get_put_other; congruence|].
  split; [reflexivity|]. split; [reflexivity|].
  unfold node_payload. rewrite get_put_same, Hg.
  exact (payload_store_atime pl atime Hl).
Qed.

End AccessFacts.

(** ** Changing the owner *)

Section ChownFacts.
Context {P : Platform}.

(** Writing the owner changes that field alone. *)
Lemma payload_store_uid (pl : bytes) (x : Z) :
  length pl = sizeof_mnode_payload ->
  let pl' := store_at off_uid (pack_to_be32 x) pl in
  length pl' = sizeof_mnode_payload
  /\ payload_uid pl' = x mod two32
  /\ payload_gid pl' = payload_gid pl
  /\ payload_mode_and_type pl' = payload_mode_and_type pl
  /\ payload_mtime pl' = payload_mtime pl
  /\ payload_atime pl' = payload_atime pl
  /\ payload_length pl' = payload_length pl.
Proof.
  intros H pl'. subst pl'. explode_payload pl H.
  repeat split; try reflexivity.
  unfold payload_uid, unpack_from_be32, off_uid.
  match goal with
  | |- unpack_from_be 4 (skipn 24 ?l) = _ =>
      match l with
      | store_at _ _ ?v =>
          change (skipn 24 l) with (pack_to_be 4 x ++ skipn 28 v)
      end
  end.
  apply unpack_pack.
Qed.

(** Writing the group changes that field alone. *)
Lemma payload_store_gid (pl : bytes) (x : Z) :
  length pl = sizeof_mnode_payload ->
  let pl' := store_at off_gid (pack_to_be32 x) pl in
  length pl' = sizeof_mnode_payload
  /\ payload_gid pl' = x mod two32
  /\ payload_uid pl' = payload_uid pl
  /\ payload_mode_and_type pl' = payload_mode_and_type pl
  /\ payload_mtime pl' = payload_mtime pl
  /\ payload_atime pl' = payload_atime pl
  /\ payload_length pl' = payload_length pl.
Proof.
  intros H pl'. subst pl'. explode_payload pl H.
  repeat split; try reflexivity.
  unfold payload_gid, unpack_from_be32, off_gid.
  match goal with
  | |- unpack_from_be 4 (skipn 28 ?l) = _ =>
      match l with
      | store_at _ _ ?v =>
          change (skipn 28 l) with (pack_to_be 4 x ++ skipn 32 v)
      end
  end.
  apply unpack_pack.
Qed.

(** X14: who may change owner and group.  On a path the caller can
    traverse, with the named user and group known, [chown] succeeds for
    the superuser, and for another caller only when no new owner is named
    and the new group, if one is named, is one of the caller's on a node
    the caller owns; otherwise it returns [-EPERM] and leaves the store as
    it was.  On success the node's record alone is rewritten: the owner
    and the group are the ones named, every other field is as before.
    Neither the node's type nor its permission bits are asked. *)
Theorem chown_policy (m : mstor) (req : mreq) (u : user)
  (comps : list string) (n : Z) (new_user new_group : option string)
  (nu : option user) (ng : option group) :
  udata_lookup_user (udir m) (user_name req) = inl u ->
  op req = MSTOR_OP_CHOWN new_user new_group ->
  request_path req = Some comps ->
  reaches (ldb m) u comps = Some n ->
  named_user (udir m) new_user = inl nu ->
  named_group (udir m) new_group = inl ng ->
  let pl := node_payload (ldb m) n in
  if chown_permitted pl u nu ng then
    exists m',
      mstor_do_operation m req = Some (0, m', RNone)
      /\ (forall k, k <> node_key n ->
                    leveldb_get (ldb m') k = leveldb_get (ldb m) k)
      /\ next_nid m' = next_nid m /\ next_cid m' = next_cid m
      /\ let pl' := node_payload (ldb m') n in
         length pl' = sizeof_mnode_payload
         /\ payload_uid pl'
            = match nu with
              | Some x => uid x mod two32
              | None => payload_uid pl
              end
         /\ payload_gid pl'
            = match ng with
              | Some g => g_gid g mod two32
              | None => payload_gid pl
              end
         /\ payload_mode_and_type pl' = payload_mode_and_type pl
         /\ payload_mtime pl' = payload_mtime pl
         /\ payload_atime pl' = payload_atime pl
         /\ payload_length pl' = payload_length pl
  else mstor_do_operation m req = Some (- EPERM, m, RNone).
Proof.
  intros Hu Hop Hp Hr Hnu Hng. unfold mstor_do_operation. rewrite Hu.
  change (op (set_user req u)) with (op req). rewrite Hop.
  destruct (path_walk_reaches m (set_user req u) comps n Hp Hr)
    as (pnode & pl & pcomp & Hg & Hl & _ & _ & Hw).
  rewrite Hw. change (op (set_user req u)) with (op req). rewrite Hop.
  destruct (flagged_check_perms (set_user req u)) as (Hcp & Hru & Ho).
  change (ruser (set_user req u)) with u in Hru.
  unfold check_perms in Hcp. rewrite Hru in Hcp.
  unfold mstor_do_chown. cbv zeta. cbn [hdr val nid].
  fold (named_user (udir m) new_user). fold (named_group (udir m) new_group).
  rewrite Hnu, Hng, Hcp, Hru.
  assert (Hpl : node_payload (ldb m) n = pl)
    by (unfold node_payload; rewrite Hg; reflexivity).
  rewrite !Hpl. unfold chown_permitted.
  fold (payload_uid pl).
  assert (Hfin :
    let new_node :=
      match ng with
      | Some g =>
          store_at off_gid (pack_to_be32 (g_gid g))
            match nu with
            | Some u0 => store_at off_uid (pack_to_be32 (uid u0)) pl
            | None => pl
            end
      | None =>
          match nu with
          | Some u0 => store_at off_uid (pack_to_be32 (uid u0)) pl
          | None => pl
          end
      end in
    exists m',
      Some (0, set_ldb m (leveldb_put (ldb m) (node_key n) new_node), RNone)
        = Some (0, m', RNone)
      /\ (forall k, k <> node_key n ->
                    leveldb_get (ldb m') k = leveldb_get (ldb m) k)
      /\ next_nid m' = next_nid m /\ next_cid m' = next_cid m
      /\ let pl' := node_payload (ldb m') n in
         length pl' = sizeof_mnode_payload
         /\ payload_uid pl'
            = match nu with
              | Some x => uid x mod two32
              | None => payload_uid pl
              end
         /\ payload_gid pl'
            = match ng with
              | Some g => g_gid g mod two32
              | None => payload_gid pl
              end
         /\ payload_mode_and_type pl' = payload_mode_and_type pl
         /\ payload_mtime pl' = payload_mtime pl
         /\ payload_atime pl' = payload_atime pl
         /\ payload_length pl' = payload_length pl).
  { cbv zeta. eexists. split; [reflexivity|].
    cbn [ldb set_ldb next_nid next_cid].
    split; [intros k Hk; apply get_put_other; congruence|].
    split; [reflexivity|]. split; [reflexivity|].
    unfold node_payload. rewrite get_put_same.
    destruct nu as [x|], ng as [g|].
    - pose proof (payload_store_uid pl (uid x) Hl) as H1. cbv zeta in H1.
      destruct H1 as (L1 & A1 & A2 & A3 & A4 & A5 & A6).
      pose proof (payload_store_gid _ (g_gid g) L1) as H2. cbv zeta in H2.
      destruct H2 as (L2 & B1 & B2 & B3 & B4 & B5 & B6).
      repeat split; congruence.
    - pose proof (payload_store_uid pl (uid x) Hl) as H1. cbv zeta in H1.
      destruct H1 as (L1 & A1 & A2 & A3 & A4 & A5 & A6).
      repeat split; congruence.
    - pose proof (payload_store_gid pl (g_gid g) Hl) as H2. cbv zeta in H2.
      destruct H2 as (L2 & B1 & B2 & B3 & B4 & B5 & B6).
      repeat split; congruence.
    - repeat split; auto. }
  cbv zeta in Hfin.
  destruct (uid u =? RF_SUPERUSER_UID); cbn [negb orb]; [exact Hfin|].
  destruct nu as [x|]; [reflexivity|].
  destruct ng as [g|]; [|exact Hfin].
  destruct (user_in_gid u (g_gid g)); cbn [negb orb andb]; [|reflexivity].
  destruct (payload_uid pl =? uid u); cbn [negb]; [exact Hfin|reflexivity].
Qed.

End ChownFacts.

(** ** What no operation does *)

Section FrameFacts.
Context {P : Platform}.

(** A path operation fails before its walk, or is its walk and the
    dispatch behind it. *)
Lemma path_operation_dispatch (m : mstor) (req : mreq) :
  (exists r, r <> 0 /\ mstor_do_path_operation m req = Some (r, m, RNone))
  \/ exists cnode pcomp comps,
       mstor_do_path_operation m req
       = dispatch (walk m (flagged req) mnode_zero cnode pcomp comps).
Proof.
  unfold mstor_do_path_operation.
  change (if uid (ruser (set_flags req MREQ_FLAG_CHECK_PERMS)) =? RF_SUPERUSER_UID
          then set_flags (set_flags req MREQ_FLAG_CHECK_PERMS)
                 (Z.land (flags (set_flags req MREQ_FLAG_CHECK_PERMS))
                    (Z.lnot MREQ_FLAG_CHECK_PERMS))
          else set_flags req MREQ_FLAG_CHECK_PERMS) with (flagged req).
  destruct (strlen (full_path (flagged req)) >=? RF_PATH_MAX).
  { left. eexists. split; [|reflexivity]. discriminate. }
  destruct (canonicalize_path (full_path (flagged req))) as [ret path].
  destruct (ret =? 0) eqn:Eret; cbn [negb].
  2:{ left. exists ret. split; [apply Z.eqb_neq; exact Eret|reflexivity]. }
  destruct (path_components path) as [pc comps].
  destruct (mstor_fetch_node m MSTOR_ROOT_NID) as [cnode|e].
  2:{ left. eexists. split; [|reflexivity]. discriminate. }
  right. exists cnode, pc, comps. unfold dispatch.
  destruct (walk m (flagged req) mnode_zero cnode pc comps)
    as [[r m1 rep|m1 req1 pn cn pcmp]|]; reflexivity.
Qed.

(** Where the walk of an operation other than [mkdirs] leaves the store:
    untouched, but for a [creat] that reported success. *)
Lemma walk_keeps_store (comps : list string) :
  forall (m : mstor) (req : mreq) (pnode cnode : mnode) (pcomp : string),
    (forall mode ctime, op req <> MSTOR_OP_MKDIRS mode ctime) ->
    match walk m req pnode cnode pcomp comps with
    | None => True
    | Some (Returned r m1 rep) =>
        (r <> 0 /\ m1 = m /\ rep = RNone)
        \/ ((exists mode ctime, op req = MSTOR_OP_CREAT mode ctime)
            /\ (r <> 0 -> ldb m1 = ldb m /\ next_cid m1 = next_cid m))
    | Some (Reached m1 req1 _ _ _) => m1 = m /\ req1 = req
    end.
Proof.
  induction comps as [|c rest IH]; intros m req pnode cnode pcomp Hop;
    [cbn; auto|].
  cbn [walk].
  destruct (mstor_fetch_child m req c cnode) as [cn|ret] eqn:Ef;
    [apply IH; exact Hop|].
  pose proof (fetch_child_failed _ _ _ _ _ Ef) as Hret.
  destruct (ret =? - ENOENT); [|left; auto].
  destruct (op req) eqn:Eop; try (left; auto; fail).
  - destruct rest; [|left; auto].
    unfold mstor_do_creat.
    destruct (negb (mstor_mode_check cnode req
                      (Z.lor MSTOR_PERM_WRITE MNODE_IS_DIR) =? 0)) eqn:Emc.
    + left. apply negb_true_iff, Z.eqb_neq in Emc. auto.
    + destruct (mstor_make_node m mode ctime ctime (uid (ruser req))
                  (gid (ruser req)) c cnode) as [[[r m1] cn]|] eqn:Emk;
        [|exact I].
      right. split; [eauto|]. intros Hr.
      destruct (make_node_cases _ _ _ _ _ _ _ _ _ _ _ Emk)
        as (_ & _ & [(_ & _ & Hl & _)|(Hr0 & _)]); [|contradiction].
      split; [exact Hl|].
      unfold mstor_make_node, mstor_next_nid in Emk.
      destruct (next_nid m >? MSTOR_NID_MAX); [discriminate|].
      destruct (next_nid m =? MSTOR_NID_MAX); inversion Emk; reflexivity.
  - exfalso. eapply Hop. reflexivity.
Qed.

Ltac ret_done := eexists; split; [reflexivity|]; cbn; auto.

(** The walk does not abort while the node counter is at or below its
    ceiling, and leaves the operation and the chunk counter as they
    were. *)
Lemma walk_returns (comps : list string) :
  forall (m : mstor) (req : mreq) (pnode cnode : mnode) (pcomp : string),
    0 <= next_nid m <= MSTOR_NID_MAX ->
    exists w,
      walk m req pnode cnode pcomp comps = Some w
      /\ match w with
         | Reached m1 req1 _ _ _ =>
             op req1 = op req /\ next_cid m1 = next_cid m
         | Returned _ m1 _ => next_cid m1 = next_cid m
         end.
Proof.
  induction comps as [|c rest IH]; intros m req pnode cnode pcomp Hn;
    [cbn [walk]; eexists; split; [reflexivity|]; cbn; auto|].
  cbn [walk].
  destruct (mstor_fetch_child m req c cnode) as [cn|ret];
    [apply IH; exact Hn|].
  destruct (ret =? - ENOENT); [|ret_done].
  assert (Hmk : forall mode mt at_ u_ g_,
             exists r m1 cn,
               mstor_make_node m mode mt at_ u_ g_ c cnode = Some (r, m1, cn)
               /\ next_cid m1 = next_cid m
               /\ (r = 0 -> 0 <= next_nid m1 <= MSTOR_NID_MAX)).
  { intros. unfold mstor_make_node, mstor_next_nid.
    destruct (next_nid m >? MSTOR_NID_MAX) eqn:E.
    { rewrite Z.gtb_ltb in E. apply Z.ltb_lt in E. lia. }
    destruct (next_nid m =? MSTOR_NID_MAX) eqn:E2.
    - do 3 eexists. split; [reflexivity|]. split; [reflexivity|].
      discriminate.
    - apply Z.eqb_neq in E2. do 3 eexists. split; [reflexivity|].
      split; [reflexivity|]. intros _. cbn [next_nid set_ldb set_next_nid].
      rewrite Z.mod_small; unfold two64, MSTOR_NID_MAX in *; lia. }
  destruct (op req) eqn:Eop; try ret_done.
  - destruct rest; [|ret_done]. unfold mstor_do_creat. cbv zeta.
    destruct (mstor_mode_check cnode req
                (Z.lor MSTOR_PERM_WRITE MNODE_IS_DIR) =? 0) eqn:Emc;
      cbn [negb]; [|ret_done].
    destruct (Hmk mode ctime ctime (uid (ruser req)) (gid (ruser req)))
      as (r & m1 & cn & -> & Hc & _).
    eexists. split; [reflexivity|]. exact Hc.
  - unfold mstor_do_mkdir. cbv zeta.
    destruct (mstor_mode_check cnode req
                (Z.lor MSTOR_PERM_WRITE MNODE_IS_DIR) =? 0) eqn:Emc;
      cbn [negb]; [|rewrite Emc; ret_done].
    destruct (Hmk (Z.lor mode MNODE_IS_DIR) ctime ctime (uid (ruser req))
                (gid (ruser req)))
      as (r & m1 & cn & -> & Hc & Hn1).
    destruct (r =? 0) eqn:Er; cbn [negb].
    + apply Z.eqb_eq in Er.
      destruct (IH m1 (set_flags req
                         (Z.land (flags req) (Z.lnot MREQ_FLAG_CHECK_PERMS)))
                  cnode cn c (Hn1 Er)) as (w & Hw & Hm).
      exists w. split; [exact Hw|].
      destruct w as [? ? ?|? ? ? ? ?]; cbn [op set_flags] in Hm;
        [congruence|destruct Hm; split; congruence].
    + eexists. split; [reflexivity|]. exact Hc.
Qed.

Lemma open_fail_keeps (m m' : mstor) (req : mreq) (atime r : Z)
  (node : mnode) (rep : reply) :
  mstor_do_open m req atime node = (r, m', rep) -> r <> 0 -> m' = m.
Proof.
  unfold mstor_do_open. intros H Hr.
  destruct (negb (mstor_mode_check node req MSTOR_PERM_READ =? 0));
    inversion H; subst; [reflexivity|contradiction].
Qed.

Lemma chown_fail_keeps (m m' : mstor) (req : mreq)
  (nu ng : option string) (r : Z) (node : mnode) (rep : reply) :
  mstor_do_chown m req nu ng node = (r, m', rep) -> r <> 0 -> m' = m.
Proof.
  unfold mstor_do_chown. intros H Hr.
  repeat match type of H with
         | context [match ?x with _ => _ end] => destruct x
         end;
    inversion H; subst; first [reflexivity | contradiction].
Qed.

Lemma rmdir_fail_keeps (m m' : mstor) (req : mreq) (rmr : bool)
  (pcomp : string) (pnode cnode : mnode) (r : Z) (rep : reply) :
  mstor_do_rmdir m req rmr pcomp pnode cnode = (r, m', rep) -> r <> 0 ->
  m' = m.
Proof.
  unfold mstor_do_rmdir. intros H Hr.
  destruct (val pnode); [|inversion H; reflexivity].
  destruct (negb (_ =? 0)); [inversion H; reflexivity|].
  destruct (rmdir_loop _ _ _ _ _ _) as [ret bat].
  destruct (ret =? 0) eqn:E; cbn [negb] in H; inversion H; subst;
    [|reflexivity].
  apply Z.eqb_eq in E. contradiction.
Qed.

Lemma chunkalloc_fail_keeps (m m' : mstor) (req : mreq) (n off r : Z)
  (rep : reply) :
  mstor_do_chunkalloc m req n off = Some (r, m', rep) -> r <> 0 -> m' = m.
Proof.
  unfold mstor_do_chunkalloc. intros H Hr.
  destruct (mstor_fetch_node m n) as [node|e]; [|inversion H; reflexivity].
  destruct (negb (_ =? 0)); [inversion H; reflexivity|].
  destruct (mstor_chunkfind_impl m n 1 off off) as [ret ci].
  destruct (ret <? 0); [inversion H; reflexivity|].
  destruct (ret =? 0) eqn:E; cbn [negb] in H; [|inversion H; reflexivity].
  apply Z.eqb_eq in E. subst ret.
  destruct (mstor_next_cid m) as [[cid m1]|]; [|discriminate].
  unfold mstor_assign_oid in H. cbn [Z.ltb Z.compare] in H.
  inversion H; subst. contradiction.
Qed.

Lemma read_handlers_keep (m m' : mstor) (req : mreq) (r : Z) (rep : reply) :
  (forall s e mx cnode,
      mstor_do_chunkfind m req s e mx cnode = (r, m', rep) -> m' = m)
  /\ (forall out_len dnode,
         mstor_do_listdir m req out_len dnode = (r, m', rep) -> m' = m)
  /\ (forall out_len pcomp pnode cnode,
         mstor_do_stat m req out_len pcomp pnode cnode = (r, m', rep) ->
         m' = m).
Proof.
  split; [|split].
  - intros s e mx cnode. unfold mstor_do_chunkfind.
    destruct (negb (_ =? 0)); [intros H; inversion H; reflexivity|].
    destruct (mstor_chunkfind_impl _ _ _ _ _) as [ret ci].
    destruct (ret <? 0); intros H; inversion H; reflexivity.
  - intros out_len dnode. unfold mstor_do_listdir.
    destruct (negb (_ =? 0)); [intros H; inversion H; reflexivity|].
    destruct (listdir_loop _ _ _ _ _ _) as [[ret ul] out].
    intros H; inversion H; reflexivity.
  - intros out_len pcomp pnode cnode. unfold mstor_do_stat.
    destruct (negb (_ =? 0)); [intros H; inversion H; reflexivity|].
    destruct (add_stat_to_list _ _ _ _ _ _) as [[ret ul] out].
    intros H; inversion H; reflexivity.
Qed.

(** X15: a failed operation changes no record.  Whatever the request,
    when an operation other than [mkdirs] returns an error, the database
    and the chunk counter are as they were before the call. *)
Theorem failed_operation_keeps_records (m m' : mstor) (req : mreq) (r : Z)
  (rep : reply) :
  mstor_do_operation m req = Some (r, m', rep) ->
  r <> 0 ->
  (forall mode ctime, op req <> MSTOR_OP_MKDIRS mode ctime) ->
  ldb m' = ldb m /\ next_cid m' = next_cid m.
Proof.
  unfold mstor_do_operation. intros H Hr Hop.
  destruct (udata_lookup_user (udir m) (user_name req)) as [u|e];
    [|inversion H; auto].
  change (op (set_user req u)) with (op req) in H.
  assert (Hpath : mstor_do_path_operation m (set_user req u)
                  = Some (r, m', rep) ->
                  ldb m' = ldb m /\ next_cid m' = next_cid m).
  { clear H. intros H.
    destruct (path_operation_dispatch m (set_user req u))
      as [(r0 & _ & E)|(cnode & pcomp & comps & E)];
      rewrite E in H; [inversion H; auto|].
    destruct (flagged_check_perms (set_user req u)) as (_ & _ & Ho).
    change (op (set_user req u)) with (op req) in Ho.
    pose proof (walk_keeps_store comps m (flagged (set_user req u))
                  mnode_zero cnode pcomp
                  ltac:(intros mo ct; rewrite Ho; apply Hop)) as Hw.
    destruct (walk m (flagged (set_user req u)) mnode_zero cnode pcomp comps)
      as [[r1 m1 rep1|m1 req1 pn cn pc]|]; [| |discriminate].
    - cbn [dispatch] in H. inversion H; subst.
      destruct Hw as [(_ & -> & _)|(_ & Hk)]; auto.
    - destruct Hw as [-> ->]. cbn [dispatch] in H. rewrite Ho in H.
      destruct (op req) eqn:Eop; inversion H as [H1]; clear H;
        try (inversion H1; subst; auto; fail).
      + apply open_fail_keeps in H1; [subst; auto|exact Hr].
      + apply (proj1 (read_handlers_keep _ _ _ _ _)) in H1. subst; auto.
      + apply (proj1 (proj2 (read_handlers_keep _ _ _ _ _))) in H1.
        subst; auto.
      + apply (proj2 (proj2 (read_handlers_keep _ _ _ _ _))) in H1.
        subst; auto.
      + unfold mstor_do_chmod in H1. inversion H1; subst. contradiction.
      + apply chown_fail_keeps in H1; [subst; auto|exact Hr].
      + unfold mstor_do_utimes in H1. inversion H1; subst. contradiction.
      + apply rmdir_fail_keeps in H1; [subst; auto|exact Hr]. }
  destruct (op req) eqn:Eop; try (apply Hpath; exact H).
  apply chunkalloc_fail_keeps in H; [subst; auto|exact Hr].
Qed.

(** X16: operations that only read.  [stat], [listdir] and [chunkfind],
    and the four operations the dispatcher knows but does not implement,
    leave the whole store as it was, whatever they return; the four
    unimplemented ones never return 0. *)
Theorem read_operations_keep_store (m m' : mstor) (req : mreq) (r : Z)
  (rep : reply) :
  mstor_do_operation m req = Some (r, m', rep) ->
  match op req with
  | MSTOR_OP_STAT _ | MSTOR_OP_LISTDIR _ | MSTOR_OP_CHUNKFIND _ _ _ =>
      m' = m
  | MSTOR_OP_SEQUESTER_TREE | MSTOR_OP_FIND_SEQUESTERED
  | MSTOR_OP_DESTROY_SEQUESTERED | MSTOR_OP_RENAME =>
      m' = m /\ r <> 0 /\ rep = RNone
  | _ => True
  end.
Proof.
  unfold mstor_do_operation. intros H.
  destruct (udata_lookup_user (udir m) (user_name req)) as [u|e].
  2:{ inversion H; subst. destruct (op req); auto; repeat split; discriminate. }
  change (op (set_user req u)) with (op req) in H.
  destruct (flagged_check_perms (set_user req u)) as (_ & _ & Ho).
  change (op (set_user req u)) with (op req) in Ho.
  destruct (op req) eqn:Eop; try exact I;
    (destruct (path_operation_dispatch m (set_user req u))
       as [(r0 & Hr0 & E)|(cnode & pcomp & comps & E)];
     rewrite E in H;
     [inversion H; subst; auto|];
     pose proof (walk_keeps_store comps m (flagged (set_user req u))
                   mnode_zero cnode pcomp
                   ltac:(intros mo ct; rewrite Ho; discriminate)) as Hw;
     destruct (walk m (flagged (set_user req u)) mnode_zero cnode pcomp comps)
       as [[r1 m1 rep1|m1 req1 pn cn pc]|]; [| |discriminate];
     [cbn [dispatch] in H; inversion H; subst;
      destruct Hw as [(Hne & -> & ->)|((mo & ct & Hc) & _)];
      [auto|rewrite Ho in Hc; discriminate]
     |destruct Hw as [-> ->]; cbn [dispatch] in H; rewrite Ho in H;
      inversion H as [H1]; clear H]).
  - apply (proj1 (read_handlers_keep _ _ _ _ _)) in H1. exact H1.
  - apply (proj1 (proj2 (read_handlers_keep _ _ _ _ _))) in H1. exact H1.
  - apply (proj2 (proj2 (read_handlers_keep _ _ _ _ _))) in H1. exact H1.
  - inversion H1; subst. repeat split; discriminate.
  - inversion H1; subst. repeat split; discriminate.
  - inversion H1; subst. repeat split; discriminate.
  - inversion H1; subst. repeat split; discriminate.
Qed.

(** X17: no request aborts the store while the counters are in range.
    With the node counter and the chunk counter at or below their
    ceilings, every operation returns: the [abort] of the two allocators
    is not reached, nor is the dispatcher's default case. *)
Theorem operation_returns_in_range (m : mstor) (req : mreq) :
  0 <= next_nid m <= MSTOR_NID_MAX ->
  next_cid m <= MSTOR_CID_MAX ->
  exists r m' rep, mstor_do_operation m req = Some (r, m', rep).
Proof.
  intros Hn Hc. unfold mstor_do_operation.
  destruct (udata_lookup_user (udir m) (user_name req)) as [u|e]; [|eauto].
  change (op (set_user req u)) with (op req).
  assert (Hpath : (forall n off, op req <> MSTOR_OP_CHUNKALLOC n off) ->
                  exists r m' rep,
                    mstor_do_path_operation m (set_user req u)
                    = Some (r, m', rep)).
  { intros Hop.
    destruct (path_operation_dispatch m (set_user req u))
      as [(r0 & _ & E)|(cnode & pcomp & comps & E)]; rewrite E; [eauto|].
    destruct (flagged_check_perms (set_user req u)) as (_ & _ & Ho).
    change (op (set_user req u)) with (op req) in Ho.
    destruct (walk_returns comps m (flagged (set_user req u)) mnode_zero
                cnode pcomp Hn) as (w & -> & Hw).
    destruct w as [r1 m1 rep1|m1 req1 pn cn pc]; cbn [dispatch]; [eauto|].
    destruct Hw as [Hw _]. rewrite Hw, Ho.
    destruct (op req) eqn:Eop;
      try match goal with
          | |- exists r m' rep, Some ?x = _ => destruct x as [[? ?] ?]
          end; eauto.
    exfalso. eapply Hop. reflexivity. }
  destruct (op req) eqn:Eop;
    try (apply Hpath; intros; discriminate).
  unfold mstor_do_chunkalloc.
  destruct (mstor_fetch_node m _) as [node|e]; [|eauto].
  destruct (negb (_ =? 0)); [eauto|].
  destruct (mstor_chunkfind_impl _ _ _ _ _) as [ret ci].
  destruct (ret <? 0); [eauto|].
  destruct (negb (ret =? 0)); [eauto|].
  unfold mstor_next_cid.
  destruct (next_cid m >? MSTOR_NID_MAX) eqn:E.
  { rewrite Z.gtb_ltb in E. apply Z.ltb_lt in E.
    unfold MSTOR_CID_MAX, MSTOR_NID_MAX in *. lia. }
  unfold mstor_assign_oid. cbn [Z.ltb Z.compare]. eauto.
Qed.

End FrameFacts.

(** ** What [chunkfind] reports *)

Section ChunkfindFacts.
Context {P : Platform}.

Lemma pack_bytes_ok (k : nat) (x : Z) : forallb byte_ok (pack_to_be k x) = true.
Proof.
  induction k as [|k IH]; [reflexivity|].
  cbn [pack_to_be forallb]. rewrite IH, andb_true_r. unfold byte_ok.
  pose proof (Z.mod_pos_bound (x / 256 ^ Z.of_nat k) 256 ltac:(lia)) as H.
  apply andb_true_iff. split; [apply Z.leb_le|apply Z.ltb_lt]; lia.
Qed.

Lemma key_compare_app (p a b : bytes) :
  key_compare (p ++ a) (p ++ b) = key_compare a b.
Proof.
  induction p as [|x p IH]; [reflexivity|].
  cbn [app key_compare]. rewrite Z.compare_refl. exact IH.
Qed.

(** A record of file [n] is the file's prefix and eight bytes of offset. *)
Lemma file_record_shape (n : Z) (e : entry) :
  file_record n e = true ->
  fst e = (tag_f :: pack_to_be64 n) ++ skipn 9 (fst e)
  /\ length (skipn 9 (fst e)) = 8%nat
  /\ ci_start (cinfo_of e) = unpack_acc 0 (skipn 9 (fst e)).
Proof.
  unfold file_record, MFILE_KEY_LEN. intros H.
  apply andb_true_iff in H. destruct H as [Hl Hp].
  apply Nat.eqb_eq in Hl. apply bytes_eqb_eq in Hp.
  assert (Hs : length (skipn 9 (fst e)) = 8%nat)
    by (rewrite length_skipn, Hl; reflexivity).
  split; [rewrite <- Hp; symmetry; apply firstn_skipn|].
  split; [exact Hs|].
  cbn [cinfo_of ci_start]. unfold unpack_from_be64, unpack_from_be.
  rewrite firstn_all2 by lia. reflexivity.
Qed.

(** Keys of one file compare as their offsets do. *)
Lemma file_key_ltb (p a b : bytes) :
  length a = 8%nat -> length b = 8%nat ->
  forallb byte_ok a = true -> forallb byte_ok b = true ->
  key_ltb (p ++ a) (p ++ b) = (unpack_acc 0 a <? unpack_acc 0 b).
Proof.
  intros La Lb Ba Bb. unfold key_ltb. rewrite key_compare_app.
  rewrite (key_compare_unpack a b) by congruence.
  unfold Z.ltb. reflexivity.
Qed.

Lemma forallb_skipn (f : Z -> bool) (k : nat) (l : bytes) :
  forallb f l = true -> forallb f (skipn k l) = true.
Proof.
  revert l; induction k as [|k IH]; intros [|x l] H; cbn; auto.
  cbn in H. apply andb_true_iff in H. apply IH. tauto.
Qed.

Lemma db_bytes_In (d : db) (e : entry) :
  db_bytes d = true -> In e d ->
  forallb byte_ok (fst e) = true /\ forallb byte_ok (snd e) = true.
Proof.
  unfold db_bytes. rewrite forallb_forall. intros H Hin.
  apply andb_true_iff. apply H. exact Hin.
Qed.

(** A record of file [n] against the key of an offset. *)
Lemma file_record_below (n s : Z) (e : entry) :
  file_record n e = true -> forallb byte_ok (fst e) = true ->
  0 <= s < two64 ->
  key_ltb (fst e) (file_key n s) = (ci_start (cinfo_of e) <? s).
Proof.
  intros Hf Hb Hs. destruct (file_record_shape n e Hf) as (Hk & Hl & Hst).
  rewrite Hst. rewrite Hk at 1.
  change (file_key n s) with ((tag_f :: pack_to_be64 n) ++ pack_to_be64 s).
  rewrite file_key_ltb;
    [|exact Hl|apply pack_to_be_length|apply forallb_skipn; exact Hb
     |apply pack_bytes_ok].
  f_equal. rewrite <- (app_nil_r (pack_to_be64 s)).
  unfold pack_to_be64. rewrite unpack_acc_pack. cbn [unpack_acc].
  change (256 ^ Z.of_nat 8) with two64.
  rewrite Z.mod_small by exact Hs. lia.
Qed.

(** Two records of file [n]. *)
Lemma file_records_ltb (n : Z) (e e' : entry) :
  file_record n e = true -> file_record n e' = true ->
  forallb byte_ok (fst e) = true -> forallb byte_ok (fst e') = true ->
  key_ltb (fst e) (fst e')
  = (ci_start (cinfo_of e) <? ci_start (cinfo_of e')).
Proof.
  intros Hf Hf' Hb Hb'.
  destruct (file_record_shape n e Hf) as (Hk & Hl & Hst).
  destruct (file_record_shape n e' Hf') as (Hk' & Hl' & Hst').
  rewrite Hst, Hst'. rewrite Hk at 1. rewrite Hk' at 1.
  apply file_key_ltb; auto using forallb_skipn.
Qed.

(** The loop of [mstor_chunkfind_impl] reports a run of records: the one
    under the iterator and records that follow it directly. *)
Lemma chunkfind_loop_run (pfx : bytes) (max_cinfos end_ : Z)
  (rest : list entry) :
  forall (e0 : entry) (cinfos : list chunk_info) (ret : Z)
         (out : list chunk_info),
    chunkfind_loop pfx max_cinfos end_ rest
      (unpack_from_be64 (skipn 9 (fst e0))) (snd e0) cinfos = (ret, out) ->
    exists taken rest',
      e0 :: rest = taken ++ rest'
      /\ out = cinfos ++ map cinfo_of taken
      /\ (ret = - EIO \/ ret = Z.of_nat (length out))
      /\ Forall (fun e : entry => length (fst e) = MFILE_KEY_LEN
                          /\ firstn 9 (fst e) = pfx
                          /\ ci_start (cinfo_of e) <= end_) (tl taken).
Proof.
  induction rest as [|[k v'] rest IH]; intros e0 cinfos ret out;
    cbn [chunkfind_loop]; cbv zeta;
    (destruct (Z.of_nat (length cinfos) + 1 >=? max_cinfos);
     [intros H; inversion H; subst; exists []; eexists;
      (split; [reflexivity|]);
      cbn [app map tl]; rewrite app_nil_r; auto|]);
    (destruct (negb (length (snd e0) =? 8)%nat);
     [intros H; inversion H; subst; exists []; eexists;
      (split; [reflexivity|]);
      cbn [app map tl]; rewrite app_nil_r; auto|]).
  - intros H; inversion H; subst. exists [e0], []. cbn [app map tl]. auto.
  - destruct (negb (length k =? MFILE_KEY_LEN)%nat
              || negb (bytes_eqb (firstn 9 k) pfx)) eqn:Ek.
    { intros H; inversion H; subst. exists [e0], ((k, v') :: rest).
      cbn [app map tl]. auto. }
    destruct (unpack_from_be64 (skipn 9 k) >? end_) eqn:Ee.
    { intros H; inversion H; subst. exists [e0], ((k, v') :: rest).
      cbn [app map tl]. auto. }
    intros H.
    destruct (IH (k, v') _ ret out H)
      as (taken & rest' & Hsplit & Hout & Hret & Hall).
    exists (e0 :: taken), rest'.
    split; [cbn [app]; rewrite <- Hsplit; reflexivity|].
    split; [rewrite Hout, <- app_assoc; reflexivity|].
    split; [exact Hret|]. cbn [tl].
    destruct taken as [|t taken]; [constructor|].
    cbn [app] in Hsplit. inversion Hsplit; subst t rest.
    constructor; [|exact Hall].
    apply orb_false_iff in Ek. destruct Ek as [E1 E2].
    apply negb_false_iff in E1, E2.
    apply Nat.eqb_eq in E1. apply bytes_eqb_eq in E2.
    rewrite Z.gtb_ltb in Ee. apply Z.ltb_ge in Ee.
    cbn [fst cinfo_of ci_start]. auto.
Qed.


Lemma file_key_prefix (n s : Z) :
  firstn 9 (file_key n s) = tag_f :: pack_to_be64 n.
Proof. reflexivity. Qed.

(** The records [mstor_chunkfind_impl] reports are a run of the store: the
    last record below the key of [start + 1], when it belongs to the
    file, and records of the file that follow it directly. *)
Lemma chunkfind_impl_run (m : mstor) (n max_cinfos start end_ ret : Z)
  (cinfos : list chunk_info) :
  db_sorted (ldb m) = true ->
  mstor_chunkfind_impl m n max_cinfos start end_ = (ret, cinfos) ->
  exists lo run hi,
    ldb m = lo ++ run ++ hi
    /\ cinfos = map cinfo_of run
    /\ (ret = - EIO \/ ret = Z.of_nat (length cinfos))
    /\ match run with
       | [] => True
       | e0 :: more =>
           file_record n e0 = true
           /\ key_ltb (fst e0) (file_key n ((start + 1) mod two64)) = true
           /\ (forall e, In e (more ++ hi) ->
                  key_ltb (fst e) (file_key n ((start + 1) mod two64)) = false)
           /\ Forall (fun e : entry => file_record n e = true
                               /\ ci_start (cinfo_of e) <= end_) more
       end.
Proof.
  intros Hs. unfold mstor_chunkfind_impl. cbv zeta.
  change (tag_f :: pack_to_be64 n ++ pack_to_be64 ((start + 1) mod two64))
    with (file_key n ((start + 1) mod two64)).
  set (fkey := file_key n ((start + 1) mod two64)).
  change (firstn 9 fkey) with (tag_f :: pack_to_be64 n).
  assert (Hnone : (0, @nil chunk_info) = (ret, cinfos) ->
                  exists lo run hi,
                    ldb m = lo ++ run ++ hi
                    /\ cinfos = map cinfo_of run
                    /\ (ret = - EIO \/ ret = Z.of_nat (length cinfos))
                    /\ match run with
                       | [] => True
                       | e0 :: more =>
                           file_record n e0 = true
                           /\ key_ltb (fst e0) fkey = true
                           /\ (forall e, In e (more ++ hi) ->
                                         key_ltb (fst e) fkey = false)
                           /\ Forall (fun e : entry => file_record n e = true
                                               /\ ci_start (cinfo_of e) <= end_)
                                more
                       end).
  { intros H; inversion H; subst. exists [], [], (ldb m). cbn. auto. }
  unfold leveldb_iter_seek.
  destruct (seek_from_spec fkey (ldb m) [])
    as (lo' & Hseek & Hsplit & Hlo & Hhi).
  rewrite Hseek, app_nil_r.
  set (hi' := skipn (length lo') (ldb m)) in *.
  unfold leveldb_iter_prev, leveldb_iter_valid, leveldb_iter_key,
    leveldb_iter_value.
  cbn [it_after it_before].
  destruct hi' as [|h hi''] eqn:Ehi; cbn [it_after negb]; [exact Hnone|].
  destruct (rev lo') as [|e0 b] eqn:Erev; cbn [it_after negb];
    [exact Hnone|].
  destruct (negb (length (fst e0) =? MFILE_KEY_LEN)%nat
            || negb (bytes_eqb (firstn 9 (fst e0)) (tag_f :: pack_to_be64 n)))
    eqn:Ek; [exact Hnone|].
  cbn [tl]. intros Hloop.
  destruct (chunkfind_loop_run _ _ _ _ e0 [] ret cinfos Hloop)
    as (taken & rest' & Htk & Hout & Hret & Hall).
  assert (Hlo' : lo' = rev b ++ [e0]).
  { rewrite <- (rev_involutive lo'), Erev. reflexivity. }
  exists (rev b), taken, rest'.
  split.
  { rewrite Hsplit, Hlo', <- app_assoc, <- Htk. reflexivity. }
  split; [exact Hout|]. split; [exact Hret|].
  destruct taken as [|t more]; [exact I|].
  cbn [app] in Htk. injection Htk as Ht Hrest. subst t.
  apply orb_false_iff in Ek. destruct Ek as [E1 E2].
  apply negb_false_iff in E1, E2.
  split; [unfold file_record; rewrite E1, E2; reflexivity|].
  split; [apply Hlo; rewrite Hlo'; apply in_or_app; right; left; reflexivity|].
  split.
  { intros e Hin. rewrite <- Hrest in Hin.
    rewrite Hsplit in Hs. apply db_sorted_app in Hs.
    destruct Hs as (_ & Hs2 & _).
    exact (sorted_suffix_not_below fkey (h :: hi'') Hs2 Hhi e Hin). }
  cbn [tl] in Hall. eapply Forall_impl; [|exact Hall].
  intros e (A1 & A2 & A3). split; [|exact A3].
  unfold file_record. rewrite A1, A2, Nat.eqb_refl.
  cbn [andb]. unfold bytes_eqb.
  clear. induction (tag_f :: pack_to_be64 n) as [|x l IH]; [reflexivity|].
  cbn. rewrite Z.eqb_refl. exact IH.
Qed.


Lemma sorted_file_starts (n : Z) (run : list entry) :
  db_sorted run = true ->
  (forall e, In e run ->
             file_record n e = true /\ forallb byte_ok (fst e) = true) ->
  increasing (map ci_start (map cinfo_of run)) = true.
Proof.
  induction run as [|e run IH]; intros Hs Hall; [reflexivity|].
  destruct run as [|e' run]; [reflexivity|].
  change (increasing (map ci_start (map cinfo_of (e :: e' :: run))))
    with ((ci_start (cinfo_of e) <? ci_start (cinfo_of e'))
          && increasing (map ci_start (map cinfo_of (e' :: run)))).
  rewrite IH;
    [|eapply db_sorted_tail; exact Hs
     |intros x Hx; apply Hall; right; exact Hx].
  rewrite andb_true_r.
  destruct (Hall e (or_introl eq_refl)) as [F1 B1].
  destruct (Hall e' (or_intror (or_introl eq_refl))) as [F2 B2].
  rewrite <- (file_records_ltb n e e' F1 F2 B1 B2).
  apply (db_sorted_head_lt _ _ Hs). left. reflexivity.
Qed.

(** X18: what [chunkfind] reports.  On a store with its keys in order,
    every entry reported is a file-chunk record of the file, with the
    offset of its key and the id its value decodes to; the offsets come
    in increasing order; the first is the nearest offset at or below
    [start] that the file has a record for, and the others lie past
    [start] and at or below [end].  The value returned is the number of
    entries, or [-EIO]. *)
Theorem chunkfind_reports_stored_run (m : mstor)
  (n max_cinfos start end_ ret : Z) (cinfos : list chunk_info) :
  db_sorted (ldb m) = true ->
  db_bytes (ldb m) = true ->
  0 <= start < two64 - 1 ->
  mstor_chunkfind_impl m n max_cinfos start end_ = (ret, cinfos) ->
  (ret = - EIO \/ ret = Z.of_nat (length cinfos))
  /\ (forall ci, In ci cinfos ->
         exists e, In e (ldb m) /\ file_record n e = true /\ ci = cinfo_of e)
  /\ increasing (map ci_start cinfos) = true
  /\ match cinfos with
     | [] => True
     | c0 :: more =>
         ci_start c0 <= start
         /\ (forall e, In e (ldb m) -> file_record n e = true ->
                       ci_start (cinfo_of e) <= start ->
                       ci_start (cinfo_of e) <= ci_start c0)
         /\ Forall (fun c => start < ci_start c <= end_) more
     end.
Proof.
  intros Hs Hb Hstart Himpl.
  destruct (chunkfind_impl_run m n max_cinfos start end_ ret cinfos Hs Himpl)
    as (lo & run & hi & Hsplit & Hout & Hret & Hrun).
  rewrite (Z.mod_small (start + 1)) in Hrun by lia.
  split; [exact Hret|]. subst cinfos.
  assert (Hin : forall e, In e run -> In e (ldb m)).
  { intros e He. rewrite Hsplit. apply in_or_app. right.
    apply in_or_app. left. exact He. }
  assert (Hrec : forall e, In e run ->
                   file_record n e = true /\ forallb byte_ok (fst e) = true).
  { intros e He. split; [|apply (db_bytes_In _ _ Hb (Hin e He))].
    destruct run as [|e0 more]; [destruct He|].
    destruct Hrun as (F0 & _ & _ & Hall).
    destruct He as [<-|He]; [exact F0|].
    rewrite Forall_forall in Hall. apply (Hall e He). }
  split.
  { intros ci Hci. apply in_map_iff in Hci. destruct Hci as (e & <- & He).
    exists e. split; [apply Hin; exact He|].
    split; [apply Hrec; exact He|reflexivity]. }
  split.
  { apply (sorted_file_starts n); [|exact Hrec].
    rewrite Hsplit in Hs. apply db_sorted_app in Hs.
    destruct Hs as (_ & Hs & _). apply db_sorted_app in Hs. tauto. }
  destruct run as [|e0 more]; [exact I|]. cbn [map].
  destruct Hrun as (F0 & Hlt & Hge & Hall).
  destruct (Hrec e0 (or_introl eq_refl)) as [_ B0].
  rewrite (file_record_below n (start + 1) e0 F0 B0) in Hlt by lia.
  apply Z.ltb_lt in Hlt.
  split; [lia|]. split.
  - intros e He Fe Hle.
    destruct (db_bytes_In _ _ Hb He) as [Be _].
    assert (Hbelow : key_ltb (fst e) (file_key n (start + 1)) = true).
    { rewrite (file_record_below n (start + 1) e Fe Be) by lia.
      apply Z.ltb_lt. lia. }
    rewrite Hsplit in He. apply in_app_or in He.
    destruct He as [He|He].
    + rewrite Hsplit in Hs. apply db_sorted_app in Hs.
      destruct Hs as (_ & _ & Hs).
      specialize (Hs e e0 He ltac:(left; reflexivity)).
      rewrite (file_records_ltb n e e0 Fe F0 Be B0) in Hs.
      apply Z.ltb_lt in Hs. lia.
    + cbn [app] in He. destruct He as [<-|He]; [lia|].
      rewrite (Hge e He) in Hbelow. discriminate.
  - rewrite Forall_forall in Hall. apply Forall_forall.
    intros c Hc. apply in_map_iff in Hc. destruct Hc as (e & <- & He).
    destruct (Hall e He) as [Fe Hend]. split; [|exact Hend].
    destruct (Hrec e (or_intror He)) as [_ Be].
    pose proof (Hge e ltac:(apply in_or_app; left; exact He)) as Hnb.
    rewrite (file_record_below n (start + 1) e Fe Be) in Hnb by lia.
    apply Z.ltb_ge in Hnb. lia.
Qed.

End ChunkfindFacts.

(** ** Listing and dumping *)

Section ListingFacts.
Context {P : Platform}.

Lemma add_stat_appends (m : mstor) (off out_len : Z) (pcomp : string)
  (node : mnode) (out : list stat_entry) (ret off' : Z)
  (out' : list stat_entry) :
  add_stat_to_list m off out_len pcomp node out = (ret, off', out') ->
  (ret <> 0 /\ out' = out)
  \/ (ret = 0 /\ exists s, out' = out ++ [s] /\ stat_of s pcomp (hdr node)).
Proof.
  unfold add_stat_to_list. cbv zeta.
  destruct ((out_len - off) mod two32 <? sizeof_mmm_stat_hdr).
  { intros H; inversion H; subst. left. split; [discriminate|reflexivity]. }
  destruct (pack_str ((off + sizeof_mmm_stat_hdr) mod two32) out_len pcomp)
    as [r o].
  destruct (r =? 0) eqn:Er; cbn [negb].
  2:{ intros H; inversion H; subst. left.
      apply Z.eqb_neq in Er. auto. }
  destruct ((o - off) mod two32 >? 65535).
  { intros H; inversion H; subst. left. split; [discriminate|reflexivity]. }
  intros H; inversion H; subst. right. split; [reflexivity|].
  eexists. split; [reflexivity|]. unfold stat_of. cbn. auto 10.
Qed.

Lemma listdir_loop_sound (m : mstor) (out_len : Z) (dnode : mnode)
  (rest : list entry) :
  forall (off : Z) (out : list stat_entry) (ret used : Z)
         (out' : list stat_entry),
    listdir_loop m out_len dnode rest off out = (ret, used, out') ->
    exists new,
      out' = out ++ new
      /\ Forall (fun s =>
                   exists e pl,
                     In e rest
                     /\ hd 0 (fst e) = tag_c
                     /\ unpack_from_be64 (skipn 1 (fst e)) = nid dnode
                     /\ leveldb_get (ldb m)
                          (node_key (unpack_from_be64 (snd e))) = Some pl
                     /\ stat_of s
                          (cstring_of_bytes
                             (skipn MCHILD_KEY_LEN_PREFIX (fst e))) pl) new.
Proof.
  induction rest as [|[k v] rest IH]; intros off out ret used out';
    cbn [listdir_loop].
  { intros H; inversion H; subst. exists []. rewrite app_nil_r. auto. }
  assert (Hstop : forall r u, (r, u, out) = (ret, used, out') ->
            exists new,
              out' = out ++ new
              /\ Forall (fun s =>
                   exists e pl,
                     In e ((k, v) :: rest)
                     /\ hd 0 (fst e) = tag_c
                     /\ unpack_from_be64 (skipn 1 (fst e)) = nid dnode
                     /\ leveldb_get (ldb m)
                          (node_key (unpack_from_be64 (snd e))) = Some pl
                     /\ stat_of s
                          (cstring_of_bytes
                             (skipn MCHILD_KEY_LEN_PREFIX (fst e))) pl) new).
  { intros r u H; inversion H; subst. exists []. rewrite app_nil_r. auto. }
  assert (Hweak : forall new,
            Forall (fun s =>
                   exists e pl,
                     In e rest
                     /\ hd 0 (fst e) = tag_c
                     /\ unpack_from_be64 (skipn 1 (fst e)) = nid dnode
                     /\ leveldb_get (ldb m)
                          (node_key (unpack_from_be64 (snd e))) = Some pl
                     /\ stat_of s
                          (cstring_of_bytes
                             (skipn MCHILD_KEY_LEN_PREFIX (fst e))) pl) new ->
            Forall (fun s =>
                   exists e pl,
                     In e ((k, v) :: rest)
                     /\ hd 0 (fst e) = tag_c
                     /\ unpack_from_be64 (skipn 1 (fst e)) = nid dnode
                     /\ leveldb_get (ldb m)
                          (node_key (unpack_from_be64 (snd e))) = Some pl
                     /\ stat_of s
                          (cstring_of_bytes
                             (skipn MCHILD_KEY_LEN_PREFIX (fst e))) pl) new).
  { intros new Hf. eapply Forall_impl; [|exact Hf].
    intros s (e & pl & Hin & Hrest). exists e, pl.
    split; [right; exact Hin|exact Hrest]. }
  destruct (length k <? 1)%nat; [apply Hstop|].
  destruct (hd 0 k =? tag_c) eqn:Etag; cbn [negb]; [|apply Hstop].
  destruct (length k <=? MCHILD_KEY_LEN_PREFIX)%nat; [apply Hstop|].
  destruct (unpack_from_be64 (skipn 1 k) =? nid dnode) eqn:Epar; cbn [negb];
    [|apply Hstop].
  destruct (length v =? 8)%nat; cbn [negb]; [|apply Hstop].
  cbv zeta.
  destruct (Z.of_nat (length k - MCHILD_KEY_LEN_PREFIX) >=? RF_PCOMP_MAX);
    [apply Hstop|].
  unfold mstor_fetch_node.
  destruct (leveldb_get (ldb m) (node_key (unpack_from_be64 v)))
    as [pl|] eqn:Eg.
  2:{ cbn [Z.eqb]. rewrite Z.eqb_refl. intros H.
      destruct (IH _ _ _ _ _ H) as (new & Hout & Hf).
      exists new. split; [exact Hout|]. apply Hweak. exact Hf. }
  destruct (negb (length pl =? sizeof_mnode_payload)%nat).
  { replace (- EIO =? - ENOENT) with false by reflexivity. apply Hstop. }
  destruct (add_stat_to_list m off out_len
              (cstring_of_bytes (skipn MCHILD_KEY_LEN_PREFIX k))
              {| nid := unpack_from_be64 v; val := Some pl |} out)
    as [[r off1] out1] eqn:Eadd.
  destruct (add_stat_appends _ _ _ _ _ _ _ _ _ Eadd)
    as [(Hr & ->)|(-> & s & -> & Hs)].
  - apply Z.eqb_neq in Hr. rewrite Hr. cbn [negb]. apply Hstop.
  - cbn [Z.eqb negb]. intros H.
    destruct (IH _ _ _ _ _ H) as (new & Hout & Hf).
    exists (s :: new). split; [rewrite Hout, <- app_assoc; reflexivity|].
    constructor; [|apply Hweak; exact Hf].
    exists (k, v), pl. cbn [fst snd hdr val] in *.
    apply Z.eqb_eq in Etag, Epar.
    split; [left; reflexivity|]. auto.
Qed.

(** X19: [listdir] reports children only.  Every record of the reply
    belongs to a child record of the directory: it carries the name of
    that record's key and the mode, times, length, owner and group of the
    node the record points to, as the store holds them.  The store is
    left as it was. *)
Theorem listdir_reports_children (m m' : mstor) (req : mreq)
  (out_len ret used : Z) (dnode : mnode) (out : list stat_entry) :
  mstor_do_listdir m req out_len dnode = (ret, m', RStat used out) ->
  m' = m
  /\ Forall (fun s =>
               exists e pl,
                 In e (ldb m)
                 /\ hd 0 (fst e) = tag_c
                 /\ unpack_from_be64 (skipn 1 (fst e)) = nid dnode
                 /\ leveldb_get (ldb m)
                      (node_key (unpack_from_be64 (snd e))) = Some pl
                 /\ stat_of s
                      (cstring_of_bytes
                         (skipn MCHILD_KEY_LEN_PREFIX (fst e))) pl) out.
Proof.
  unfold mstor_do_listdir. cbv zeta.
  destruct (negb (_ =? 0)).
  { intros H; inversion H; subst. split; [reflexivity|constructor]. }
  unfold leveldb_iter_seek.
  destruct (seek_from_spec (child_prefix (nid dnode)) (ldb m) [])
    as (lo & Hseek & Hsplit & _ & _).
  rewrite Hseek. cbn [it_after].
  destruct (listdir_loop m out_len dnode (skipn (length lo) (ldb m)) 0 [])
    as [[r u] o] eqn:El.
  intros H; inversion H; subst. split; [reflexivity|].
  destruct (listdir_loop_sound _ _ _ _ _ _ _ _ _ El) as (new & -> & Hf).
  cbn [app]. eapply Forall_impl; [|exact Hf].
  intros s (e & pl & Hin & Hrest). exists e, pl. split; [|exact Hrest].
  rewrite Hsplit. apply in_or_app. right. exact Hin.
Qed.

Lemma dump_loop_lines (rest : list entry) :
  forall (out : list dump_line) (ret : Z) (lines : list dump_line),
    dump_loop rest out = (ret, lines) ->
    exists new,
      lines = out ++ new
      /\ map line_tag new
         = firstn (length new) (map (fun e : entry => hd 0 (fst e)) rest)
      /\ (length new <= length rest)%nat
      /\ (ret = 0 <-> length new = length rest).
Proof.
  induction rest as [|[k v] rest IH]; intros out ret lines;
    cbn [dump_loop].
  { intros H; inversion H; subst. exists []. rewrite app_nil_r.
    cbn. repeat split; auto. }
  assert (Hstop : forall r, r <> 0 -> (r, out) = (ret, lines) ->
            exists new,
              lines = out ++ new
              /\ map line_tag new
                 = firstn (length new)
                     (map (fun e : entry => hd 0 (fst e)) ((k, v) :: rest))
              /\ (length new <= length ((k, v) :: rest))%nat
              /\ (ret = 0 <-> length new = length ((k, v) :: rest))).
  { intros r Hr H; inversion H; subst. exists []. rewrite app_nil_r.
    cbn [map length firstn].
    split; [reflexivity|]. split; [reflexivity|]. split; [lia|].
    split; intros; [contradiction|discriminate]. }
  assert (Hgo : forall l, line_tag l = hd 0 k ->
            dump_loop rest (out ++ [l]) = (ret, lines) ->
            exists new,
              lines = out ++ new
              /\ map line_tag new
                 = firstn (length new)
                     (map (fun e : entry => hd 0 (fst e)) ((k, v) :: rest))
              /\ (length new <= length ((k, v) :: rest))%nat
              /\ (ret = 0 <-> length new = length ((k, v) :: rest))).
  { intros l Hl H. destruct (IH _ _ _ H) as (new & Hout & Hm & Hle & Hiff).
    exists (l :: new). split; [rewrite Hout, <- app_assoc; reflexivity|].
    cbn [map length firstn fst]. rewrite Hm, Hl.
    split; [reflexivity|]. split; [apply le_n_S; exact Hle|].
    rewrite Hiff. split; intros E; [f_equal; exact E|injection E; auto]. }
  destruct (length k <? 1)%nat; [apply Hstop; discriminate|].
  cbv zeta.
  destruct (hd 0 k =? tag_c) eqn:Ec.
  { apply Z.eqb_eq in Ec. unfold mstor_dump_child.
    destruct (_ || _); [apply Hstop; discriminate|].
    destruct (negb _); [apply Hstop; discriminate|].
    apply Hgo. symmetry. exact Ec. }
  destruct (hd 0 k =? tag_f) eqn:Ef.
  { apply Z.eqb_eq in Ef. unfold mstor_dump_file_entry.
    destruct (negb _); [apply Hstop; discriminate|].
    destruct (negb _); [apply Hstop; discriminate|].
    apply Hgo. symmetry. exact Ef. }
  destruct (hd 0 k =? tag_h) eqn:Eh.
  { apply Z.eqb_eq in Eh. unfold mstor_dump_chunk_entry.
    destruct (negb _); [apply Hstop; discriminate|].
    destruct (negb _); [apply Hstop; discriminate|].
    apply Hgo. symmetry. exact Eh. }
  destruct (hd 0 k =? tag_n) eqn:En.
  { apply Z.eqb_eq in En. unfold mstor_dump_node.
    destruct (negb _); [apply Hstop; discriminate|].
    destruct (_ <? _)%nat; [apply Hstop; discriminate|].
    destruct (negb _); [apply Hstop; discriminate|].
    apply Hgo. symmetry. exact En. }
  destruct (hd 0 k =? tag_v) eqn:Ev; [|apply Hstop; discriminate].
  apply Z.eqb_eq in Ev.
  destruct (negb _); [apply Hstop; discriminate|].
  destruct (_ =? MSTOR_VERSION_INVAL); [apply Hstop; discriminate|].
  apply Hgo. symmetry. exact Ev.
Qed.

(** X20: the dump follows the store.  [mstor_dump] writes one line for
    each record, in key order and of the kind the record's first byte
    names, and stops at the first record it cannot decode: it returns 0
    exactly when it has written a line for every record. *)
Theorem dump_follows_store (m : mstor) (ret : Z) (lines : list dump_line) :
  mstor_dump m = (ret, lines) ->
  map line_tag lines
  = firstn (length lines) (map (fun e : entry => hd 0 (fst e)) (ldb m))
  /\ (length lines <= length (ldb m))%nat
  /\ (ret = 0 <-> length lines = length (ldb m)).
Proof.
  unfold mstor_dump, leveldb_iter_seek_to_first. cbn [it_after]. intros H.
  destruct (dump_loop_lines _ _ _ _ H) as (new & -> & Hrest).
  exact Hrest.
Qed.

End ListingFacts.

(** ** What [stat] reports *)

Section StatFacts.
Context {P : Platform}.

(** Past the loop, [pcomp] is the last component visited. *)
Lemma walk_last (comps : list string) :
  forall (m : mstor) (req : mreq) (pnode cnode : mnode) (pcomp : string)
         (m1 : mstor) (req1 : mreq) (pn cn : mnode) (pc : string),
    walk m req pnode cnode pcomp comps = Some (Reached m1 req1 pn cn pc) ->
    pc = last comps pcomp.
Proof.
  induction comps as [|c rest IH];
    intros m req pnode cnode pcomp m1 req1 pn cn pc H.
  - cbn in H. inversion H. reflexivity.
  - assert (Hl : last (c :: rest) pcomp = last rest c)
      by (clear; revert c; induction rest as [|x rest IH]; intros c;
          [reflexivity|]; cbn [last] in *; destruct rest; auto).
    rewrite Hl. cbn [walk] in H.
    destruct (mstor_fetch_child m req c cnode) as [cn'|ret];
      [eapply IH; exact H|].
    destruct (ret =? - ENOENT); [|discriminate].
    destruct (op req); try discriminate.
    + destruct rest; [|discriminate].
      destruct (mstor_do_creat m req mode ctime c cnode)
        as [[[[? ?] ?] ?]|]; discriminate.
    + destruct (mstor_do_mkdir m req mode ctime c cnode)
        as [[[r m2] cn2]|]; [|discriminate].
      destruct (negb (r =? 0)); [discriminate|].
      eapply IH; exact H.
Qed.

(** A path operation on a path that canonicalizes is the walk from the
    root and the dispatch behind it. *)
Lemma path_operation_walk (m : mstor) (req : mreq) (comps : list string)
  (rpl : bytes) :
  request_path req = Some comps ->
  leveldb_get (ldb m) (node_key MSTOR_ROOT_NID) = Some rpl ->
  length rpl = sizeof_mnode_payload ->
  exists pc,
    mstor_do_path_operation m req
    = dispatch (walk m (flagged req) mnode_zero
                  {| nid := MSTOR_ROOT_NID; val := Some rpl |} pc comps).
Proof.
  unfold request_path, mstor_do_path_operation. intros Hp Hg Hl.
  change (if uid (ruser (set_flags req MREQ_FLAG_CHECK_PERMS)) =? RF_SUPERUSER_UID
          then set_flags (set_flags req MREQ_FLAG_CHECK_PERMS)
                 (Z.land (flags (set_flags req MREQ_FLAG_CHECK_PERMS))
                    (Z.lnot MREQ_FLAG_CHECK_PERMS))
          else set_flags req MREQ_FLAG_CHECK_PERMS) with (flagged req).
  replace (full_path (flagged req)) with (full_path req)
    by (unfold flagged; destruct (uid (ruser req) =? RF_SUPERUSER_UID);
        reflexivity).
  destruct (strlen (full_path req) >=? RF_PATH_MAX); [discriminate|].
  destruct (canonicalize_path (full_path req)) as [ret path].
  destruct (ret =? 0); [|discriminate]. cbn [negb].
  destruct (path_components path) as [pc comps'].
  cbn [snd] in Hp. inversion Hp; subst comps'.
  rewrite (fetch_node_get m _ rpl Hg Hl).
  exists pc. unfold dispatch.
  destruct (walk m (flagged req) mnode_zero
              {| nid := MSTOR_ROOT_NID; val := Some rpl |} pc comps)
    as [[r m1 rep|m1 req1 pn cn pcmp]|]; reflexivity.
Qed.

(** X21: [stat] reports what the store holds.  On a path the caller can
    traverse, a [stat] that returns 0 leaves the store as it was and
    replies with one record: the mode, times, length, owner and group of
    the node the path names, under the name of the path's last
    component. *)
Theorem stat_reports_stored_fields (m m' : mstor) (req : mreq) (u : user)
  (comps : list string) (n out_len : Z) (rep : reply) :
  udata_lookup_user (udir m) (user_name req) = inl u ->
  op req = MSTOR_OP_STAT out_len ->
  request_path req = Some comps ->
  reaches (ldb m) u comps = Some n ->
  mstor_do_operation m req = Some (0, m', rep) ->
  m' = m
  /\ exists s name,
       rep = RStat 0 [s]
       /\ stat_of s name (node_payload (ldb m) n)
       /\ (comps <> [] -> name = last comps EmptyString).
Proof.
  intros Hu Hop Hp Hr. unfold mstor_do_operation. rewrite Hu.
  change (op (set_user req u)) with (op req). rewrite Hop.
  destruct (flagged_check_perms (set_user req u)) as (Hcp & Hru & Ho).
  change (ruser (set_user req u)) with u in Hru.
  change (op (set_user req u)) with (op req) in Ho.
  pose proof Hr as Hr'. unfold reaches in Hr'.
  destruct (leveldb_get (ldb m) (node_key MSTOR_ROOT_NID)) as [rpl|] eqn:Er;
    [|discriminate].
  destruct (length rpl =? sizeof_mnode_payload)%nat eqn:Erl; [|discriminate].
  apply Nat.eqb_eq in Erl.
  destruct (path_operation_walk m (set_user req u) comps rpl Hp Er Erl)
    as (pc & ->).
  rewrite <- Hru in Hr'.
  destruct (walk_traverse comps m (flagged (set_user req u)) mnode_zero
              MSTOR_ROOT_NID rpl pc n Er Erl Hcp Hr')
    as (pnode & pl & pcomp & Hw & Hg & Hl & _ & _).
  pose proof (walk_last _ _ _ _ _ _ _ _ _ _ _ Hw) as Hlast.
  rewrite Hw. cbn [dispatch]. rewrite Ho, Hop.
  unfold mstor_do_stat.
  destruct (negb (_ =? 0)) eqn:Eperm.
  { intros H; inversion H; subst. apply negb_true_iff, Z.eqb_neq in Eperm.
    contradiction. }
  destruct (add_stat_to_list m 0 out_len pcomp
              {| nid := n; val := Some pl |} [])
    as [[r off] out] eqn:Eadd.
  intros H; inversion H; subst. split; [reflexivity|].
  destruct (add_stat_appends _ _ _ _ _ _ _ _ _ Eadd)
    as [(Hne & _)|(_ & s & -> & Hs)]; [contradiction|].
  exists s, (last comps pc). split; [reflexivity|].
  unfold node_payload. rewrite Hg. cbn [hdr val] in Hs.
  split; [exact Hs|].
  intros Hne. clear - Hne. revert pc.
  induction comps as [|c rest IH]; intros pc; [contradiction|].
  destruct rest as [|c' rest]; [reflexivity|].
  change (last (c :: c' :: rest) pc) with (last (c' :: rest) pc).
  change (last (c :: c' :: rest) EmptyString)
    with (last (c' :: rest) EmptyString).
  apply IH. discriminate.
Qed.

End StatFacts.

(** ** The checks of [chunkalloc] *)

Section ChunkallocFacts.
Context {P : Platform}.

(** X22: what [chunkalloc] asks and what it writes.  The node is looked
    up by id: a missing node is [-ENOENT], a record of the wrong size
    [-EIO], a directory [-EISDIR]; write permission is asked only when
    the request arrives with the check-permissions flag set, which
    [mstor_do_operation] does not touch for this operation, and then of
    the superuser too.  In these cases the store is left as it was.
    Otherwise the call returns 0 and the id the chunk counter held,
    advances that counter by one, and writes the file-chunk record of the
    offset and the record of the new chunk: every other key reads as
    before and the node counter is unchanged. *)
Theorem chunkalloc_checks_and_writes (m : mstor) (req : mreq) (u : user)
  (n off : Z) :
  udata_lookup_user (udir m) (user_name req) = inl u ->
  op req = MSTOR_OP_CHUNKALLOC n off ->
  0 <= next_cid m <= MSTOR_CID_MAX ->
  match leveldb_get (ldb m) (node_key n) with
  | None => mstor_do_operation m req = Some (- ENOENT, m, RNone)
  | Some pl =>
      if negb (length pl =? sizeof_mnode_payload)%nat
      then mstor_do_operation m req = Some (- EIO, m, RNone)
      else if node_is_dir pl
      then mstor_do_operation m req = Some (- EISDIR, m, RNone)
      else if check_perms req && negb (granted pl u MSTOR_PERM_WRITE)
      then mstor_do_operation m req = Some (- EPERM, m, RNone)
      else
        exists m',
          mstor_do_operation m req
          = Some (0, m', RAlloc (next_cid m) [123; 456])
          /\ next_cid m' = next_cid m + 1
          /\ next_nid m' = next_nid m
          /\ (exists v, leveldb_get (ldb m') (file_key n off) = Some v)
          /\ (exists v, leveldb_get (ldb m') (chunk_key (next_cid m))
                        = Some v)
          /\ forall k, k <> file_key n off -> k <> chunk_key (next_cid m) ->
                       leveldb_get (ldb m') k = leveldb_get (ldb m) k
  end.
Proof.
  intros Hu Hop Hc.
  assert (Hrun : mstor_do_operation m req
                 = mstor_do_chunkalloc m (set_user req u) n off).
  { unfold mstor_do_operation. rewrite Hu.
    change (op (set_user req u)) with (op req). rewrite Hop. reflexivity. }
  rewrite Hrun.
  destruct (leveldb_get (ldb m) (node_key n)) as [pl|] eqn:Eg.
  2:{ unfold mstor_do_chunkalloc, mstor_fetch_node. rewrite Eg. reflexivity. }
  destruct (negb (length pl =? sizeof_mnode_payload)%nat) eqn:El.
  { unfold mstor_do_chunkalloc, mstor_fetch_node. rewrite Eg, El.
    reflexivity. }
  apply negb_false_iff, Nat.eqb_eq in El.
  pose proof (fetch_node_get m n pl Eg El) as Hf.
  assert (Hmc : mstor_mode_check {| nid := n; val := Some pl |}
                  (set_user req u) MSTOR_PERM_WRITE
                = if node_is_dir pl then - EISDIR
                  else if check_perms req
                          && negb (granted pl u MSTOR_PERM_WRITE)
                       then - EPERM else 0).
  { change MSTOR_PERM_WRITE
      with (Z.lor MSTOR_PERM_WRITE (if false then MNODE_IS_DIR else 0)) at 1.
    rewrite mode_check_spec by (cbv; split; congruence). cbn [hdr val].
    cbn [negb andb].
    change (check_perms (set_user req u)) with (check_perms req).
    change (ruser (set_user req u)) with u.
    destruct (node_is_dir pl); [reflexivity|].
    destruct (check_perms req); [|reflexivity]. cbn [negb andb].
    destruct (granted pl u MSTOR_PERM_WRITE); reflexivity. }
  destruct (node_is_dir pl).
  { unfold mstor_do_chunkalloc. rewrite Hf, Hmc. reflexivity. }
  destruct (check_perms req && negb (granted pl u MSTOR_PERM_WRITE)).
  { unfold mstor_do_chunkalloc. rewrite Hf, Hmc. reflexivity. }
  rewrite (chunkalloc_goes_through m (set_user req u) n off _ Hf Hmc)
    by lia.
  eexists. split; [reflexivity|].
  cbn [next_cid next_nid ldb set_ldb set_next_cid leveldb_write fold_left
         apply_op].
  split; [apply Z.mod_small; unfold two64, MSTOR_CID_MAX in *; lia|].
  split; [reflexivity|].
  assert (Hkeys : file_key n off <> chunk_key (next_cid m))
    by (unfold file_key, chunk_key, tag_f, tag_h; congruence).
  split; [eexists; rewrite get_put_other, get_put_same by congruence;
          reflexivity|].
  split; [eexists; apply get_put_same|].
  intros k Hk1 Hk2. rewrite !get_put_other by congruence. reflexivity.
Qed.

End ChunkallocFacts.

(** ** The properties at work on concrete stores *)

Section RunningTheStore.
#[local] Existing Instance linux_x86_64.

Ltac zcmp := vm_compute; first [reflexivity | discriminate].

(** Discharges a side condition by evaluation; leaves a goal that speaks
    of the store the call returned. *)
Ltac side :=
  lazymatch goal with
  | |- ex _ => idtac
  | |- Forall _ _ => repeat (constructor; [zcmp|]); constructor
  | |- _ /\ _ => split; zcmp
  | |- _ => zcmp
  end.

(** Version 3 written to the fresh store is read back. *)
Lemma version_write_read_witness :
  mstor_read_version (snd (mstor_write_version fresh_store 3)) = 3.
Proof.
  destruct (version_write_read fresh_store 3) as [H _]; [split; zcmp|].
  exact H.
Defined.

(** A missing directory opened with [mstor_create = 1]. *)
Lemma init_formats_empty_store_witness :
  exists m,
    mstor_init test_conf test_udata None 100 = inl m
    /\ length (ldb m) = 2%nat /\ next_nid m = 1.
Proof.
  destruct (init_formats_empty_store test_conf test_udata None 100)
    as (m & pl & H1 & H2 & H3 & _); [vm_compute; discriminate|].
  exists m. split; [exact H1|]. split; [exact H2|exact H3].
Defined.

(** A database stamped with version 2 is refused. *)
Lemma init_refuses_missing_or_foreign_store_witness :
  mstor_init test_conf test_udata (Some foreign_db) 100 = inr EINVAL.
Proof.
  refine (init_refuses_missing_or_foreign_store test_conf test_udata
            (Some foreign_db) 100 _).
  split; vm_compute; discriminate.
Defined.

(** Two ids of each kind from the store with four nodes and one chunk. *)
Lemma allocators_hand_out_consecutive_ids_witness :
  alloc_nids 2 store_chunk0 = Some [4; 5]
  /\ alloc_cids 2 store_chunk0 = Some [2; 3].
Proof.
  destruct (allocators_hand_out_consecutive_ids 2 store_chunk0) as [H1 H2];
    [zcmp|zcmp|].
  split; [rewrite H1|rewrite H2]; vm_compute; reflexivity.
Defined.

(** The file ["x"] made below the root is fetched by id and by name. *)
Lemma make_node_then_fetch_witness :
  mstor_fetch_node store_x (nid node_x) = Got node_x
  /\ mstor_fetch_child store_x (req_alice (MSTOR_OP_OPEN 1) "/x") "x" node_root
     = Got node_x.
Proof.
  destruct (make_node_then_fetch fresh_store store_x
              (req_alice (MSTOR_OP_OPEN 1) "/x") 420 5 5 0 0 "x" node_root
              node_x) as (_ & _ & _ & _ & H4 & H5 & _);
    [zcmp|zcmp|vm_compute; reflexivity|].
  split; [exact H4|]. apply H5. vm_compute. reflexivity.
Defined.

(** Making ["x"] leaves the version record alone. *)
Lemma make_node_writes_two_records_witness :
  leveldb_get (ldb store_x) [tag_v] = leveldb_get (ldb fresh_store) [tag_v].
Proof.
  refine (make_node_writes_two_records fresh_store store_x 420 5 5 0 0 "x"
            node_root node_x [tag_v] _ _ _);
    [vm_compute; reflexivity|vm_compute; discriminate
    |vm_compute; discriminate].
Defined.

(** On the fresh store the counter is far below the ceiling. *)
Lemma make_node_respects_ceiling_witness :
  match mstor_make_node fresh_store 420 5 5 0 0 "x" node_root with
  | None => MSTOR_NID_MAX < next_nid fresh_store
  | Some (r, m', cnode) =>
      (r = - EOVERFLOW /\ next_nid fresh_store = MSTOR_NID_MAX
       /\ ldb m' = ldb fresh_store)
      \/ (r = 0 /\ nid cnode = next_nid fresh_store
          /\ nid cnode < MSTOR_NID_MAX
          /\ next_nid m' = next_nid fresh_store + 1)
  end.
Proof.
  refine (make_node_respects_ceiling fresh_store 420 5 5 0 0 "x" node_root _).
  zcmp.
Defined.

(** [open] of a name the root does not have. *)
Lemma missing_component_is_enoent_witness :
  mstor_do_operation fresh_store (mk_req (MSTOR_OP_OPEN 7) "/nope" "root")
  = Some (- ENOENT, fresh_store, RNone).
Proof.
  refine (missing_component_is_enoent fresh_store
            (mk_req (MSTOR_OP_OPEN 7) "/nope" "root") superuser [] "nope" []
            0 (hdr node_root) _ _ _ _ _ _ _ I);
    vm_compute; reflexivity.
Defined.

(** [creat] of the file that is there. *)
Lemma creat_existing_is_eexist_witness :
  mstor_do_operation store_abf (mk_req (MSTOR_OP_CREAT 420 9) "/a/b/f" "root")
  = Some (- EEXIST, store_abf, RNone).
Proof.
  refine (creat_existing_is_eexist store_abf
            (mk_req (MSTOR_OP_CREAT 420 9) "/a/b/f" "root") superuser
            ["a"; "b"; "f"]%string 3 420 9 _ _ _ _);
    vm_compute; reflexivity.
Defined.

(** [mkdirs("/a/b")] on the fresh store creates nodes 1 and 2. *)
Lemma mkdirs_creates_missing_components_witness :
  exists m',
    mstor_do_operation fresh_store
      (mk_req (MSTOR_OP_MKDIRS 493 100) "/a/b" "root") = Some (0, m', RNone)
    /\ next_nid m' = 3
    /\ resolve (ldb m') MSTOR_ROOT_NID ["a"; "b"]%string = Some 2.
Proof.
  destruct (mkdirs_creates_missing_components fresh_store
              (mk_req (MSTOR_OP_MKDIRS 493 100) "/a/b" "root") superuser
              [] "a" ["b"]%string 0 (hdr node_root) 493 100)
    as (m' & H1 & _ & H3 & _ & H5 & _); side.
  exists m'. split; [exact H1|]. split; [exact H3|exact H5].
Defined.

(** [creat("/a/g")] in the store that holds [/a]. *)
Lemma creat_makes_file_witness :
  exists m',
    mstor_do_operation store_a (mk_req (MSTOR_OP_CREAT 420 9) "/a/g" "root")
    = Some (0, m', RNid 2)
    /\ reaches (ldb m') superuser ["a"; "g"]%string = Some 2.
Proof.
  destruct (creat_makes_file store_a
              (mk_req (MSTOR_OP_CREAT 420 9) "/a/g" "root") superuser
              ["a"]%string "g" 1 (node_payload (ldb store_a) 1) 420 9)
    as (m' & H1 & _ & _ & _ & _ & H6 & _); side.
  exists m'. split; [exact H1|exact H6].
Defined.

(** A path through the file [/a/b/f], asked for by the superuser. *)
Lemma walk_checks_type_then_permission_witness :
  mstor_do_operation store_abf (mk_req (MSTOR_OP_OPEN 7) "/a/b/f/x" "root")
  = Some (- ENOTDIR, store_abf, RNone).
Proof.
  refine (walk_checks_type_then_permission store_abf
            (mk_req (MSTOR_OP_OPEN 7) "/a/b/f/x" "root") superuser
            ["a"; "b"; "f"]%string "x" [] 3 _ _ _ _ _);
    [vm_compute; reflexivity|intros n off; vm_compute; discriminate
    |vm_compute; reflexivity|vm_compute; reflexivity
    |right; vm_compute; reflexivity].
Defined.

(** [open] of the file [/a/b/f] at time 7. *)
Lemma open_checks_type_then_read_witness :
  exists m',
    mstor_do_operation store_abf (mk_req (MSTOR_OP_OPEN 7) "/a/b/f" "root")
    = Some (0, m', RNid 3)
    /\ payload_atime (node_payload (ldb m') 3) = 7.
Proof.
  pose proof (open_checks_type_then_read store_abf
                (mk_req (MSTOR_OP_OPEN 7) "/a/b/f" "root") superuser
                ["a"; "b"; "f"]%string 3 7
                ltac:(vm_compute; reflexivity) ltac:(vm_compute; reflexivity)
                ltac:(vm_compute; reflexivity) ltac:(vm_compute; reflexivity))
    as H.
  cbv zeta in H.
  change (node_is_dir (node_payload (ldb store_abf) 3)) with false in H.
  change (allowed (node_payload (ldb store_abf) 3) superuser MSTOR_PERM_READ)
    with true in H.
  cbv iota in H. destruct H as (m' & H1 & _ & _ & _ & _ & H5 & _).
  exists m'. split; [exact H1|exact H5].
Defined.

(** The superuser gives [/a/b/f] to alice. *)
Lemma chown_policy_witness :
  exists m',
    mstor_do_operation store_abf
      (mk_req (MSTOR_OP_CHOWN (Some "alice"%string) None) "/a/b/f" "root")
    = Some (0, m', RNone)
    /\ payload_uid (node_payload (ldb m') 3) = 1000.
Proof.
  pose proof (chown_policy store_abf
                (mk_req (MSTOR_OP_CHOWN (Some "alice"%string) None) "/a/b/f"
                   "root") superuser ["a"; "b"; "f"]%string 3
                (Some "alice"%string) None (Some alice) None
                ltac:(vm_compute; reflexivity) ltac:(vm_compute; reflexivity)
                ltac:(vm_compute; reflexivity) ltac:(vm_compute; reflexivity)
                ltac:(vm_compute; reflexivity) ltac:(vm_compute; reflexivity))
    as H.
  cbv zeta in H.
  change (chown_permitted (node_payload (ldb store_abf) 3) superuser
            (Some alice) None) with true in H.
  cbv iota in H. destruct H as (m' & H1 & _ & _ & _ & _ & H5 & _).
  exists m'. split; [exact H1|exact H5].
Defined.

(** [creat] with the node counter at the ceiling: the counter moves, the
    records do not. *)
Lemma failed_operation_keeps_records_witness :
  mstor_do_operation full_store (mk_req (MSTOR_OP_CREAT 420 9) "/x" "root")
  = Some (- EOVERFLOW, set_next_nid full_store (MSTOR_NID_MAX + 1), RNone)
  /\ ldb (set_next_nid full_store (MSTOR_NID_MAX + 1)) = ldb full_store.
Proof.
  assert (H : mstor_do_operation full_store
                (mk_req (MSTOR_OP_CREAT 420 9) "/x" "root")
              = Some (- EOVERFLOW,
                      set_next_nid full_store (MSTOR_NID_MAX + 1), RNone))
    by (vm_compute; reflexivity).
  split; [exact H|].
  refine (proj1 (failed_operation_keeps_records _ _ _ _ _ H _ _));
    [vm_compute; discriminate|intros mode ctime; vm_compute; discriminate].
Defined.

(** Listing [/a] leaves the store as it was. *)
Lemma read_operations_keep_store_witness :
  after store_abf (mk_req (MSTOR_OP_LISTDIR 4096) "/a" "root") = store_abf.
Proof.
  refine (read_operations_keep_store store_abf
            (after store_abf (mk_req (MSTOR_OP_LISTDIR 4096) "/a" "root"))
            (mk_req (MSTOR_OP_LISTDIR 4096) "/a" "root") 0
            (match listing_a with
             | Some (_, _, rep) => rep
             | None => RNone
             end) _).
  vm_compute. reflexivity.
Defined.

(** A [mkdirs] by alice returns, whatever its result. *)
Lemma operation_returns_in_range_witness :
  exists r m' rep,
    mstor_do_operation store_abf
      (mk_req (MSTOR_OP_MKDIRS 493 1) "/a/b/c/d" "alice") = Some (r, m', rep).
Proof.
  apply (operation_returns_in_range store_abf); [split; zcmp|zcmp].
Defined.

(** The one chunk of the file of [store_chunk0]. *)
Lemma chunkfind_reports_stored_run_witness :
  (1 = - EIO \/ 1 = Z.of_nat (length chunks0))
  /\ increasing (map ci_start chunks0) = true.
Proof.
  destruct (chunkfind_reports_stored_run store_chunk0 nid_f 4 0 10 1 chunks0)
    as (H1 & _ & H3 & _);
    [vm_compute; reflexivity|vm_compute; reflexivity|split; zcmp
    |vm_compute; reflexivity|].
  split; [exact H1|exact H3].
Defined.

(** The listing of the root holds one record, of the child ["a"]. *)
Lemma listdir_reports_children_witness :
  length listed_root = 1%nat
  /\ Forall (fun s => exists e : entry,
                        In e (ldb store_abf) /\ hd 0 (fst e) = tag_c)
       listed_root.
Proof.
  split; [vm_compute; reflexivity|].
  destruct (listdir_reports_children store_abf store_abf
              (req_alice (MSTOR_OP_LISTDIR 4096) "/") 4096 0 43 node_root
              listed_root) as [_ H]; [vm_compute; reflexivity|].
  eapply Forall_impl; [|exact H].
  intros s (e & pl & Hin & Htag & _). exists e. split; [exact Hin|exact Htag].
Defined.

(** The dump of [store_chunk0] has a line for each of its ten records. *)
Lemma dump_follows_store_witness :
  length dumped = length (ldb store_chunk0).
Proof.
  destruct (dump_follows_store store_chunk0 0 dumped) as (_ & _ & H);
    [vm_compute; reflexivity|].
  apply H. reflexivity.
Defined.

(** [stat] of the file [/a/b/f]: one record, named ["f"], of mode 0644. *)
Lemma stat_reports_stored_fields_witness :
  exists s,
    stat_f_reply = RStat 0 [s]
    /\ st_name s = "f"%string /\ st_mode_and_type s = 420.
Proof.
  destruct (stat_reports_stored_fields store_abf store_abf
              (mk_req (MSTOR_OP_STAT 4096) "/a/b/f" "root") superuser
              ["a"; "b"; "f"]%string 3 4096 stat_f_reply)
    as (_ & s & name & H1 & H2 & H3);
    [vm_compute; reflexivity|vm_compute; reflexivity|vm_compute; reflexivity
    |vm_compute; reflexivity|vm_compute; reflexivity|].
  exists s. split; [exact H1|].
  destruct H2 as (Hn & Hm & _).
  split; [rewrite Hn; apply H3; discriminate|exact Hm].
Defined.

(** [chunkalloc] on the file of the reopened store, asked for by alice in
    a request that does not carry the check-permissions flag. *)
Lemma chunkalloc_checks_and_writes_witness :
  exists m',
    mstor_do_operation store_reopened
      (mk_req (MSTOR_OP_CHUNKALLOC nid_f 0) "" "alice")
    = Some (0, m', RAlloc 1 [123; 456])
    /\ next_cid m' = 2.
Proof.
  pose proof (chunkalloc_checks_and_writes store_reopened
                (mk_req (MSTOR_OP_CHUNKALLOC nid_f 0) "" "alice") alice
                nid_f 0
                ltac:(vm_compute; reflexivity) ltac:(vm_compute; reflexivity)
                ltac:(split; zcmp)) as H.
  assert (E : leveldb_get (ldb store_reopened) (node_key nid_f)
              = Some (hdr node_f)) by (vm_compute; reflexivity).
  rewrite E in H.
  change (negb (length (hdr node_f) =? sizeof_mnode_payload)%nat)
    with false in H.
  cbv iota in H.
  change (node_is_dir (hdr node_f)) with false in H.
  cbv iota in H.
  change (check_perms (mk_req (MSTOR_OP_CHUNKALLOC nid_f 0) "" "alice")
          && negb (granted (hdr node_f) alice MSTOR_PERM_WRITE))
    with false in H.
  cbv iota in H. destruct H as (m' & H1 & H2 & _).
  exists m'. split; [exact H1|exact H2].
Defined.

End RunningTheStore.
